(** * MathBattle backend: a shallow embedding of the match-session engine

    The development follows the four source files of the repository:
    - [controllers/playerManager.js]  (class PlayerManager),
    - [controllers/gameLogic.js]      (class GameLogic),
    - [controllers/questionBank.js]   (class QuestionBank),
    - [controllers/roomManager.js]    (class RoomManager),
    - [server.js]                     (the Socket.IO event handlers).

    Modelling conventions.
    - JavaScript numbers are IEEE 754 doubles.  Scores, streaks and counters
      are integers and are modelled by [Z].  A number that is not an integer
      is the rational [Q] it denotes, and the scoring code, which divides
      and multiplies by decimal constants, rounds the result of every
      operation to the nearest double ([JS.double]), as the processor does.
      The arithmetic on random draws and the averages of the statistics are
      kept exact.
    - [Math.random()] and [new Date()] are inputs: random draws are read from
      an explicit list of rationals of [0,1), the clock is an argument.
    - A JS [Map] or object used as a dictionary is a [gmap]; an array is a
      [list]; an exception is the [Throw] result of a state-passing
      computation, which returns the store as it was when the exception was
      raised (JavaScript does not roll mutations back); a call that never
      returns is the [Diverge] result, and it blocks the event loop. *)

From Stdlib Require Import ZArith QArith Qround Qabs Qpower Lia Lqa.
From Stdlib Require Import Ascii String DecimalString DecimalPos DecimalZ.
From stdpp Require Import base option list sorting gmap strings.

Local Open Scope Z_scope.

(* ===================================================================== *)
(** ** JavaScript primitives used by the sources *)
(* ===================================================================== *)

Module JS.

(** [Math.round(x)]: the integer nearest to [x], halves rounded up. *)
Definition Math_round (x : Q) : Z := Qfloor (x + (1 # 2))%Q.

(** [Math.floor(x)]. *)
Definition Math_floor (x : Q) : Z := Qfloor x.

(** *** Double arithmetic

    [floor(log2 x)] for a positive rational [x]. *)
Definition Qlog2 (x : Q) : Z :=
  let a := Z.log2 (Qnum x) - Z.log2 (Zpos (Qden x)) in
  if Qle_bool (2 ^ a)%Q x then a else a - 1.

(** The integer nearest to [x], a tie going to the even one. *)
Definition nearest_even (x : Q) : Z :=
  let f := Qfloor x in
  match (x - inject_Z f ?= 1 # 2)%Q with
  | Lt => f
  | Gt => f + 1
  | Eq => if Z.even f then f else f + 1
  end.

(** The exponent of the last bit of the double nearest to [x]: the
    significand has 53 bits, and the exponent is never below -1074. *)
Definition exponent (x : Q) : Z := Z.max (-1074) (Qlog2 (Qabs x) - 52).

(** The multiple of [2 ^ e] nearest to [x], and the binary64 number nearest
    to the real [x], ties to even.  The numbers of the sources stay far
    below [2 ^ 1024], where the result would be [Infinity]. *)
Definition round_at (e : Z) (x : Q) : Q :=
  (inject_Z (nearest_even (x / 2 ^ e)) * 2 ^ e)%Q.

Definition double (x : Q) : Q :=
  if Qeq_bool x 0 then 0%Q else round_at (exponent x) x.

(** [x * y], [x / y] and [x + y] on doubles, and a decimal literal. *)
Definition mul (x y : Q) : Q := double (x * y).
Definition div (x y : Q) : Q := double (x / y).
Definition add (x y : Q) : Q := double (x + y).
Definition lit (x : Q) : Q := double x.

(** The number that a value sent by a client converts to where the sources
    compare it with a number: a rational, or one of the three numbers that
    are not ([NaN] for a value such as ["many"] or an object). *)
Inductive Number : Type :=
| finite (q : Q)
| NaN
| Infinity
| NegInfinity.

(** [n >= x] for the length [n] of an array: every comparison with [NaN]
    is false. *)
Definition length_ge (n : nat) (x : Number) : bool :=
  match x with
  | finite q => Qle_bool q (inject_Z (Z.of_nat n))
  | NaN | Infinity => false
  | NegInfinity => true
  end.

(** The values a client can send as an answer (JSON scalars); numbers are
    restricted to the integers, which is all the question bank produces. *)
Inductive Value : Type :=
| VNum (n : Z)
| VStr (s : string)
| VBool (b : bool)
| VNull
| VUndefined.

Global Instance Value_eq_dec : EqDecision Value.
Proof. solve_decision. Defined.

(** [a === b] on the scalars above. *)
Definition strict_eq (a b : Value) : bool := bool_decide (a = b).

(** [n.toString()] for an integer [n]. *)
Definition Number_toString (n : Z) : string :=
  NilZero.string_of_int (Z.to_int n).

(** [String(v)]. *)
Definition String_of (v : Value) : string :=
  match v with
  | VNum n => Number_toString n
  | VStr s => s
  | VBool true => "true"
  | VBool false => "false"
  | VNull => "null"
  | VUndefined => "undefined"
  end.

(** [c.toLowerCase()] on one character: the ASCII letters are mapped,
    every other byte is kept (non-ASCII case folding is not modelled). *)
Definition lower_ascii (c : ascii) : ascii :=
  let n := nat_of_ascii c in
  if ((65 <=? n)%nat && (n <=? 90)%nat)%bool then ascii_of_nat (n + 32) else c.

Fixpoint toLowerCase (s : string) : string :=
  match s with
  | EmptyString => EmptyString
  | String c r => String (lower_ascii c) (toLowerCase r)
  end.

(** [s.trim()]: ASCII white space is stripped at both ends. *)
Fixpoint trimStart (s : string) : string :=
  match s with
  | String c r => if Ascii.is_space c then trimStart r else s
  | EmptyString => EmptyString
  end.

Definition trimEnd (s : string) : string :=
  String.rev (trimStart (String.rev s)).

Definition trim (s : string) : string := trimEnd (trimStart s).

(** [x || d] for a possibly missing number: [undefined] and [0] are falsy. *)
Definition or_default_nat (x : option nat) (d : nat) : nat :=
  match x with
  | Some O | None => d
  | Some n => n
  end.

Definition or_default_Q (x : option Q) (d : Q) : Q :=
  match x with
  | Some q => if Qeq_bool q 0 then d else q
  | None => d
  end.

(** A JS [Map] with string keys: iteration follows insertion order, and
    [set] on a present key keeps its position. *)
Section Map.
Context {V : Type}.

Definition Map : Type := list (string * V).

Fixpoint Map_get (k : string) (m : Map) : option V :=
  match m with
  | [] => None
  | (k', v) :: r => if bool_decide (k' = k) then Some v else Map_get k r
  end.

Definition Map_has (k : string) (m : Map) : bool :=
  match Map_get k m with Some _ => true | None => false end.

Fixpoint Map_set (k : string) (v : V) (m : Map) : Map :=
  match m with
  | [] => [(k, v)]
  | (k', v') :: r =>
      if bool_decide (k' = k) then (k', v) :: r else (k', v') :: Map_set k v r
  end.

Definition Map_size (m : Map) : nat := length m.
Definition Map_values (m : Map) : list V := m.*2.
Definition Map_entries (m : Map) : list (string * V) := m.
Definition Map_clear (m : Map) : Map := [].
End Map.
Global Arguments Map : clear implicits.

(** [Array.prototype.sort(cmp)] is stable; [cmp a b > 0] puts [b] first.
    A stable insertion sort gives the same array for every comparator that
    is a weak order, which is the case of all comparators in the sources. *)
Section Sort.
Context {A : Type} (cmp : A -> A -> Z).

Fixpoint sort_insert (x : A) (l : list A) : list A :=
  match l with
  | [] => [x]
  | y :: r => if (0 <? cmp x y) then y :: sort_insert x r else x :: l
  end.

Definition sort (l : list A) : list A := foldr sort_insert [] l.

(** [a] may stay in front of [b]: the comparator does not ask for a swap. *)
Definition precedes (a b : A) : Prop := cmp a b <= 0.
End Sort.

End JS.

(* ===================================================================== *)
(** ** Exceptions and state passing *)
(* ===================================================================== *)

(** The errors thrown by the sources (the comment gives the message). *)
Inductive Error : Type :=
| EInvalidName            (* 'Nombre de jugador invalido. ...' *)
| EDuplicateConnection    (* 'Ya existe un jugador con este ID de conexion' *)
| EPlayerNotFound (playerId : string)   (* `Jugador ${playerId} no encontrado` *)
| ESessionNotFound (roomCode : string)  (* `Sesion de juego no encontrada para sala ...` *)
| ENotPlaying             (* 'El juego no esta en estado de recibir respuestas' *)
| EAlreadyAnswered        (* 'El jugador ya respondio esta pregunta' *)
| ENoActiveQuestion       (* 'No hay pregunta activa' *)
| ERoomNotFound           (* 'Sala no encontrada' / `Sala ${roomCode} no encontrada` *)
| ERoomFull               (* 'Sala llena' / `Sala ... esta llena` *)
| EAlreadyInRoom          (* `El jugador ya esta en la sala ...` *)
| ENotHost                (* 'Solo el host puede iniciar el juego' *)
| ENotEnoughPlayers       (* 'Se necesitan al menos 2 jugadores para iniciar' *)
| ESubmitPlayerNotFound   (* 'Jugador no encontrado' *)
| ETypeError              (* reading a property of null *)
| ECategoryNotFound (category : string)      (* `Categoria ${category} no encontrada` *)
| ENoPredefinedQuestions (category difficulty : string)
                          (* `No hay preguntas predefinidas para ...` *)
| ECategoryNotSupported (category : string). (* `Categoria ... no soportada ...` *)

(** How a call ends: it returns a value, it throws, or it never returns
    (a loop that does not end); no code runs after a call that does not
    return. *)
Inductive Res (A : Type) : Type :=
| Ok (a : A)
| Throw (e : Error)
| Diverge.
Arguments Ok {A} a.
Arguments Throw {A} e.
Arguments Diverge {A}.

(** A computation over a store [S]: the store is returned in every case,
    as the call leaves it. *)
Definition M (S A : Type) : Type := S -> Res A * S.

Definition ret {S A} (a : A) : M S A := fun s => (Ok a, s).
Definition throw {S A} (e : Error) : M S A := fun s => (Throw e, s).
Definition bind {S A B} (m : M S A) (k : A -> M S B) : M S B :=
  fun s => match m s with
           | (Ok a, s') => k a s'
           | (Throw e, s') => (Throw e, s')
           | (Diverge, s') => (Diverge, s')
           end.
(** A call whose outcome is given. *)
Definition outcome {S A} (r : Res A) : M S A := fun s => (r, s).
Definition get {S} : M S S := fun s => (Ok s, s).
Definition put {S} (s : S) : M S unit := fun _ => (Ok tt, s).
Definition modify {S} (f : S -> S) : M S unit := fun s => (Ok tt, f s).

(** Run a computation on a component [T] of the store [S]. *)
Definition zoom {S T A} (proj : S -> T) (upd : T -> S -> S) (m : M T A) : M S A :=
  fun s => let '(r, t) := m (proj s) in (r, upd t s).

(** The computation [m] keeps the property [P] of the store, whether it
    returns or throws. *)
Definition keeps {S A} (P : S -> Prop) (m : M S A) : Prop :=
  forall s, P s -> P (m s).2.

Declare Scope js_scope.
Delimit Scope js_scope with js.
Notation "'do' x <- m ; k" := (bind m (fun x => k))
  (at level 10, x name, m at level 100, k at level 200) : js_scope.
Notation "'exec' m ; k" := (bind m (fun _ => k))
  (at level 10, m at level 100, k at level 200) : js_scope.

(** String literals are read in [string_scope]; the list, map and integer
    notations keep priority over the string ones. *)
Local Open Scope string_scope.
Local Open Scope list_scope.
Local Open Scope stdpp_scope.
Local Open Scope Z_scope.

(** [x < y] and [x >= y] on rationals, as booleans. *)
Definition Qltb (x y : Q) : bool := negb (Qle_bool y x).
Definition Qmin (x y : Q) : Q := if Qle_bool x y then x else y.

(* ===================================================================== *)
(** ** controllers/playerManager.js: class PlayerManager *)
(* ===================================================================== *)

Module PlayerManager.

(** [player.gameStats]. [difficultyPerformance] maps a difficulty to its
    [(correct, total)] pair. *)
Record GameStats : Type := {
  totalQuestions : Z;
  correctByCategory : gmap string Z;
  responseTimes : list Z;
  difficultyPerformance : gmap string (Z * Z)
}.

(** [playerData]. The avatar, the connection flags and the two timestamps
    are left out: no method modelled below reads them. *)
Record Player : Type := {
  id : string;
  name : string;
  isHost : bool;
  score : Z;
  correctAnswers : Z;
  wrongAnswers : Z;
  streak : Z;
  bestStreak : Z;
  averageResponseTime : Z;
  gameStats : GameStats
}.

(** [this.players]. *)
Abbreviation Store := (gmap string Player).

(** [this.scoringConfig]. *)
Definition scoringConfig_correctAnswer : Q := 100.
Definition scoringConfig_timeBonus : Q := 50.
Definition scoringConfig_streakMultiplier : Q := 1.5.
Definition scoringConfig_wrongAnswer : Q := 0.

(** The character class [[a-zA-Z0-9\s\-_]] of [isValidPlayerName]. *)
Definition name_char (c : ascii) : bool :=
  let n := nat_of_ascii c in
  ((97 <=? n) && (n <=? 122) || (65 <=? n) && (n <=? 90) ||
   (48 <=? n) && (n <=? 57))%nat
  || Ascii.is_space c || bool_decide (c = "-"%char) || bool_decide (c = "_"%char).

Fixpoint all_chars (p : ascii -> bool) (s : string) : bool :=
  match s with
  | EmptyString => true
  | String c r => p c && all_chars p r
  end.

Definition isValidPlayerName (name : string) : bool :=
  let t := JS.trim name in
  (2 <=? String.length t)%nat && (String.length t <=? 20)%nat &&
  (* the regular expression ends in [+]: at least one character *)
  negb (bool_decide (t = "")) && all_chars name_char t.

Definition createPlayer (socketId playerName : string) (isHost : bool)
  : M Store Player :=
  fun players =>
    if negb (isValidPlayerName playerName) then (Throw EInvalidName, players)
    else if bool_decide (is_Some (players !! socketId))
    then (Throw EDuplicateConnection, players)
    else
      let playerData := {|
        id := socketId;
        name := JS.trim playerName;
        isHost := isHost;
        score := 0;
        correctAnswers := 0;
        wrongAnswers := 0;
        streak := 0;
        bestStreak := 0;
        averageResponseTime := 0;
        gameStats := {|
          totalQuestions := 0;
          correctByCategory :=
            {[ "arithmetic" := 0; "logic" := 0; "geometry" := 0 ]};
          responseTimes := [];
          difficultyPerformance :=
            {[ "easy" := (0, 0); "medium" := (0, 0); "hard" := (0, 0) ]}
        |}
      |} in
      (Ok playerData, <[socketId := playerData]> players).

(** [getPlayer]: only [lastActivity] is written, which is not modelled. *)
Definition getPlayer (playerId : string) (players : Store) : option Player :=
  players !! playerId.

(** [calculateAverageResponseTime]. *)
Definition calculateAverageResponseTime (responseTimes : list Z) : Z :=
  if bool_decide (length responseTimes = 0%nat) then 0
  else JS.Math_round (inject_Z (foldl Z.add 0 responseTimes)
                      / inject_Z (Z.of_nat (length responseTimes))).

(** [updatePlayerScore(playerId, points, isCorrect = true, responseTime = 0,
    category = '', difficulty = 'medium')]: an argument that the caller
    leaves out is [None] and takes its default. *)
Definition updatePlayerScore (playerId : string) (points : Z)
    (isCorrect_arg : option bool) (responseTime_arg : option Z)
    (category_arg difficulty_arg : option string) : M Store Player :=
  fun players =>
    let isCorrect := default true isCorrect_arg in
    let responseTime := default 0 responseTime_arg in
    let category := default "" category_arg in
    let difficulty := default "medium" difficulty_arg in
    match getPlayer playerId players with
    | None => (Throw (EPlayerNotFound playerId), players)
    | Some player =>
        let gs := gameStats player in
        let score' := score player + points in
        let totalQuestions' := totalQuestions gs + 1 in
        let correctAnswers' :=
          if isCorrect then correctAnswers player + 1 else correctAnswers player in
        let streak' := if isCorrect then streak player + 1 else 0 in
        let bestStreak' :=
          if isCorrect then Z.max (bestStreak player) streak' else bestStreak player in
        let correctByCategory' :=
          if isCorrect && negb (bool_decide (category = ""))
          then match correctByCategory gs !! category with
               | Some n => <[category := n + 1]> (correctByCategory gs)
               | None => correctByCategory gs
               end
          else correctByCategory gs in
        let wrongAnswers' :=
          if isCorrect then wrongAnswers player else wrongAnswers player + 1 in
        let difficultyPerformance' :=
          match difficultyPerformance gs !! difficulty with
          | Some (c, t) =>
              <[difficulty := ((if isCorrect then c + 1 else c), t + 1)]>
                (difficultyPerformance gs)
          | None => difficultyPerformance gs
          end in
        let responseTimes' :=
          if 0 <? responseTime then responseTimes gs ++ [responseTime]
          else responseTimes gs in
        let averageResponseTime' :=
          if 0 <? responseTime then calculateAverageResponseTime responseTimes'
          else averageResponseTime player in
        let player' := {|
          id := id player;
          name := name player;
          isHost := isHost player;
          score := score';
          correctAnswers := correctAnswers';
          wrongAnswers := wrongAnswers';
          streak := streak';
          bestStreak := bestStreak';
          averageResponseTime := averageResponseTime';
          gameStats := {|
            totalQuestions := totalQuestions';
            correctByCategory := correctByCategory';
            responseTimes := responseTimes';
            difficultyPerformance := difficultyPerformance'
          |}
        |} in
        (Ok player', <[playerId := player']> players)
    end.

(** The table [difficultyMultipliers], shared by both scoring functions;
    a key that is not in the table reads [undefined]. *)
Definition difficultyMultipliers (difficulty : string) : option Q :=
  if bool_decide (difficulty = "easy") then Some (JS.lit 0.8)
  else if bool_decide (difficulty = "medium") then Some (JS.lit 1.0)
  else if bool_decide (difficulty = "hard") then Some (JS.lit 1.3)
  else None.

(** [calculatePoints(timeRemaining, maxTime, streak, difficulty = 'medium')]. *)
Definition calculatePoints (timeRemaining maxTime : Q) (streak : Z)
    (difficulty : string) : Z :=
  let points := scoringConfig_correctAnswer in
  let points :=
    JS.mul points (default (JS.lit 1.0) (difficultyMultipliers difficulty)) in
  let points :=
    if Qltb 0 timeRemaining && Qltb 0 maxTime then
      let speedRatio := JS.div timeRemaining maxTime in
      let timeBonus := JS.Math_round (JS.mul scoringConfig_timeBonus speedRatio) in
      JS.add points (inject_Z timeBonus)
    else points in
  let points :=
    if 3 <=? streak then
      let streakBonus := Qmin (JS.div (inject_Z streak) 10) (JS.lit 0.5) in
      inject_Z (JS.Math_round (JS.mul points (JS.add 1 streakBonus)))
    else points in
  JS.Math_round points.

(** [setAsHost]. *)
Definition setAsHost (playerId : string) (players : Store) : bool * Store :=
  match getPlayer playerId players with
  | None => (false, players)
  | Some player =>
      (true, <[playerId := {|
         id := id player; name := name player; isHost := true;
         score := score player; correctAnswers := correctAnswers player;
         wrongAnswers := wrongAnswers player; streak := streak player;
         bestStreak := bestStreak player;
         averageResponseTime := averageResponseTime player;
         gameStats := gameStats player |}]> players)
  end.

(** [removePlayer]. *)
Definition removePlayer (playerId : string) (players : Store)
  : option Player * Store :=
  match players !! playerId with
  | None => (None, players)
  | Some player => (Some player, delete playerId players)
  end.

(** [calculateAccuracy(player)]. *)
Definition calculateAccuracy (player : Player) : Z :=
  let totalAnswers := correctAnswers player + wrongAnswers player in
  if totalAnswers =? 0 then 0
  else JS.Math_round
         (JS.mul (JS.div (inject_Z (correctAnswers player)) (inject_Z totalAnswers))
                 100).

(** [calculatePerformance(player)]. *)
Definition calculatePerformance (player : Player) : string :=
  let accuracy := calculateAccuracy player in
  let avgTime := averageResponseTime player in
  if (90 <=? accuracy) && (avgTime <=? 5000) then "Excelente"
  else if (75 <=? accuracy) && (avgTime <=? 10000) then "Muy Bueno"
  else if (60 <=? accuracy) && (avgTime <=? 15000) then "Bueno"
  else if 40 <=? accuracy then "Regular"
  else "Necesita Práctica".

(** One line of [getPlayerRanking]: the fields of the player, spread, and
    the three computed ones. *)
Record RankedPlayer : Type := {
  ranked : Player;
  rank : Z;
  accuracy : Z;
  performance : string
}.

(** The comparator of [getPlayerRanking]. *)
Definition ranking_cmp (a b : Player) : Z :=
  if negb (score b =? score a) then score b - score a
  else averageResponseTime a - averageResponseTime b.

(** [getPlayerRanking(playerIds)]. *)
Definition getPlayerRanking (playerIds : list string) (players : Store)
  : list RankedPlayer :=
  let found := omap (fun id => getPlayer id players) playerIds in
  imap (fun index player =>
          {| ranked := player; rank := Z.of_nat index + 1;
             accuracy := calculateAccuracy player;
             performance := calculatePerformance player |})
       (JS.sort ranking_cmp found).

(** [getTotalPlayers()]. *)
Definition getTotalPlayers (players : Store) : nat := size players.

(** [resetPlayerGameStats(playerId)]: [bestStreak] is not among the fields
    that the method resets. *)
Definition resetPlayerGameStats (playerId : string) (players : Store)
  : bool * Store :=
  match getPlayer playerId players with
  | None => (false, players)
  | Some player =>
      (true, <[playerId := {|
         id := id player; name := name player; isHost := isHost player;
         score := 0; correctAnswers := 0; wrongAnswers := 0; streak := 0;
         bestStreak := bestStreak player;
         averageResponseTime := 0;
         gameStats := {|
           totalQuestions := 0;
           correctByCategory :=
             {[ "arithmetic" := 0; "logic" := 0; "geometry" := 0 ]};
           responseTimes := [];
           difficultyPerformance :=
             {[ "easy" := (0, 0); "medium" := (0, 0); "hard" := (0, 0) ]}
         |} |}]> players)
  end.

End PlayerManager.

(* ===================================================================== *)
(** ** controllers/questionBank.js: class QuestionBank *)
(* ===================================================================== *)

Module QuestionBank.

(** A question record; [id] and [timeLimit] are stamped by
    [getQuestionSet] and are [undefined] before. *)
Record Question : Type := {
  question : string;
  options : list string;
  correctAnswer : string;
  explanation : string;
  category : string;
  difficulty : string;
  type : string;
  id : option string;
  timeLimit : option Z
}.

(** [validateAnswer(question, answer)]. *)
Definition validateAnswer_normalizeAnswer (ans : JS.Value) : string :=
  match ans with
  | JS.VNum n => JS.Number_toString n
  | _ => JS.trim (JS.toLowerCase (JS.String_of ans))
  end.

Definition validateAnswer (q : Question) (answer : JS.Value) : bool :=
  bool_decide (validateAnswer_normalizeAnswer answer
               = validateAnswer_normalizeAnswer (JS.VStr (correctAnswer q))).

(** *** Randomised generators

    A generator reads its [Math.random()] results from a list of draws and
    returns the draws it has not used; [None] is a generator that has not
    returned when the draws are used up. *)
Definition Rand (A : Type) : Type := list Q -> option (A * list Q).

Definition rand_ret {A} (a : A) : Rand A := fun rs => Some (a, rs).
Definition rand_bind {A B} (m : Rand A) (k : A -> Rand B) : Rand B :=
  fun rs => match m rs with
            | Some (a, rs') => k a rs'
            | None => None
            end.
Definition Math_random : Rand Q :=
  fun rs => match rs with
            | r :: rs' => Some (r, rs')
            | [] => None
            end.

(** What [Math.random()] can return. *)
Definition unit_interval (r : Q) : Prop := (0 <= r)%Q /\ (r < 1)%Q.

(** [randomInt(min, max)], at the draw [r]. *)
Definition randomInt_at (r : Q) (min max : Z) : Z :=
  JS.Math_floor (r * inject_Z (max - min + 1)) + min.

Definition randomInt (min max : Z) : Rand Z :=
  rand_bind Math_random (fun r => rand_ret (randomInt_at r min max)).

(** The bound of the offset in [generateWrongAnswers]:
    [Math.max(1, Math.floor(correct * 0.3))]. *)
Definition offset_bound (correct : Z) : Z :=
  Z.max 1 (JS.Math_floor (inject_Z correct * 0.3)).

(** The [while (wrongAnswers.length < count)] loop of
    [generateWrongAnswers]: every iteration takes one draw. *)
Fixpoint generateWrongAnswers_loop (correct : Z) (count : nat)
    (wrongAnswers : list string) (used : gset Z) (rs : list Q)
  : option (list string * list Q) :=
  if bool_decide (length wrongAnswers < count)%nat then
    match rs with
    | [] => None
    | r :: rs' =>
        let offset :=
          randomInt_at r (- offset_bound correct) (offset_bound correct) in
        let wrong := Z.max 0 (correct + offset) in
        if bool_decide (wrong ∈ used)
        then generateWrongAnswers_loop correct count wrongAnswers used rs'
        else generateWrongAnswers_loop correct count
               (wrongAnswers ++ [JS.Number_toString wrong])
               ({[wrong]} ∪ used) rs'
    end
  else Some (wrongAnswers, rs).

(** [generateWrongAnswers(correct, count)]. *)
Definition generateWrongAnswers (correct : Z) (count : nat) : Rand (list string) :=
  generateWrongAnswers_loop correct count [] {[correct]}.

(** [shuffleArray(array)]: [i] runs from [length - 1] down to [1]. *)
Fixpoint shuffleArray_loop {A} (i : nat) (shuffled : list A) : Rand (list A) :=
  match i with
  | O => rand_ret shuffled
  | S i' =>
      rand_bind Math_random (fun r =>
        let j := Z.to_nat (JS.Math_floor (r * inject_Z (Z.of_nat i + 1))) in
        match shuffled !! i, shuffled !! j with
        | Some xi, Some xj =>
            shuffleArray_loop i' (<[j := xi]> (<[i := xj]> shuffled))
        | _, _ => shuffleArray_loop i' shuffled
        end)
  end.

Definition shuffleArray {A} (array : list A) : Rand (list A) :=
  shuffleArray_loop (length array - 1)%nat array.

(** The table [ranges] of [generateSubtraction]. *)
Definition subtraction_ranges (difficulty : string) : option (Z * Z) :=
  if bool_decide (difficulty = "easy") then Some (1, 50)
  else if bool_decide (difficulty = "medium") then Some (50, 500)
  else if bool_decide (difficulty = "hard") then Some (500, 2000)
  else None.

(** The operands and the answer of [generateSubtraction], for the
    difficulties of the table. *)
Definition generateSubtraction_operands (min max : Z) : Rand (Z * Z) :=
  rand_bind (randomInt min max) (fun a =>
  rand_bind (randomInt min (Z.min a max)) (fun b =>
  rand_ret (if b >? a then (b, a) else (a, b)))).

(** [generateSubtraction(difficulty)]; a difficulty outside the table makes
    [range.min] a [TypeError], which is the result [None] at once. *)
Definition generateSubtraction (difficulty : string) : Rand Question :=
  match subtraction_ranges difficulty with
  | None => fun _ => None
  | Some (min, max) =>
      rand_bind (generateSubtraction_operands min max) (fun '(a, b) =>
      let answer := a - b in
      rand_bind (generateWrongAnswers answer 3) (fun wrongAnswers =>
      rand_bind (shuffleArray (JS.Number_toString answer :: wrongAnswers))
        (fun options =>
      rand_ret {|
        question := "¿Cuánto es " +:+ JS.Number_toString a +:+ " - "
                    +:+ JS.Number_toString b +:+ "?";
        options := options;
        correctAnswer := JS.Number_toString answer;
        explanation := JS.Number_toString a +:+ " - " +:+ JS.Number_toString b
                       +:+ " = " +:+ JS.Number_toString answer;
        category := "arithmetic";
        difficulty := difficulty;
        type := "multiple_choice";
        id := None;
        timeLimit := None
      |})))
  end.

(** [getDifficultyDistribution(baseDifficulty)], as the ordered entries of
    the object it returns. *)
Definition getDifficultyDistribution (baseDifficulty : string)
  : list (string * Q) :=
  if bool_decide (baseDifficulty = "easy")
  then [("easy", 0.7%Q); ("medium", 0.3%Q); ("hard", 0.0%Q)]
  else if bool_decide (baseDifficulty = "hard")
  then [("easy", 0.1%Q); ("medium", 0.3%Q); ("hard", 0.6%Q)]
  else [("easy", 0.2%Q); ("medium", 0.6%Q); ("hard", 0.2%Q)].

(** [selectDifficultyFromDistribution(distribution)], at the draw [rand]. *)
Fixpoint selectDifficulty_loop (rand cumulative : Q)
    (entries : list (string * Q)) : string :=
  match entries with
  | [] => "medium"
  | (difficulty, probability) :: rest =>
      let cumulative := (cumulative + probability)%Q in
      if Qle_bool rand cumulative then difficulty
      else selectDifficulty_loop rand cumulative rest
  end.

Definition selectDifficultyFromDistribution (distribution : list (string * Q))
    (rand : Q) : string :=
  selectDifficulty_loop rand 0 distribution.

(** The random inputs of one call of [getQuestionSet]: the draw that picks
    the difficulty of slot [i], and how the [k]-th call of
    [getRandomQuestion(category, difficulty)] for slot [i] ends.  It returns
    a question; or it throws, as for a category that is not one of the
    three of the bank; or it never returns, as when [generateWrongAnswers]
    is asked for three distractors of a small value. *)
Record Oracle : Type := {
  difficultyDraw : nat -> Q;
  getRandomQuestion : nat -> nat -> option string -> string -> Res Question
}.

Section QuestionSet.
Variable oracle : Oracle.

(** The [while (attempts < 10)] loop for slot [i]; [left] is
    [10 - attempts]. *)
Fixpoint pickQuestion (i : nat) (category : option string)
    (questionDifficulty : string) (left : nat) (question : option Question)
    (usedQuestions : gset string) : Res (option Question * gset string) :=
  match left with
  | O => Ok (question, usedQuestions)
  | S left' =>
      match getRandomQuestion oracle i (10 - left)%nat category
              questionDifficulty with
      | Ok q =>
          let questionKey :=
            QuestionBank.question q +:+ "-" +:+ correctAnswer q in
          if bool_decide (questionKey ∈ usedQuestions)
          then pickQuestion i category questionDifficulty left' (Some q)
                 usedQuestions
          else Ok (Some q, {[questionKey]} ∪ usedQuestions)
      | Throw e => Throw e
      | Diverge => Diverge
      end
  end.

(** The [for (let i = 0; i < count; i++)] loop; [todo] is [count - i]. *)
Fixpoint getQuestionSet_loop (todo i : nat) (difficulty : string)
    (categories : list string) (questions : list Question)
    (usedQuestions : gset string) : Res (list Question) :=
  match todo with
  | O => Ok questions
  | S todo' =>
      let category := categories !! (i mod length categories)%nat in
      let questionDifficulty :=
        selectDifficultyFromDistribution
          (getDifficultyDistribution difficulty) (difficultyDraw oracle i) in
      match pickQuestion i category questionDifficulty 10 None usedQuestions with
      | Ok (question, usedQuestions) =>
          let questions :=
            match question with
            | Some q =>
                questions ++ [ {|
                  question := QuestionBank.question q;
                  options := options q;
                  correctAnswer := correctAnswer q;
                  explanation := explanation q;
                  category := QuestionBank.category q;
                  difficulty := QuestionBank.difficulty q;
                  type := type q;
                  id := Some ("q_" +:+ JS.Number_toString (Z.of_nat i + 1));
                  timeLimit := Some 30 |} ]
            | None => questions
            end in
          getQuestionSet_loop todo' (S i) difficulty categories questions
            usedQuestions
      | Throw e => Throw e
      | Diverge => Diverge
      end
  end.

(** [getQuestionSet(count, difficulty, categories)]. *)
Definition getQuestionSet (count : nat) (difficulty : string)
    (categories : list string) : Res (list Question) :=
  getQuestionSet_loop count 0 difficulty categories [] ∅.
End QuestionSet.

(** What the loop of [generateWrongAnswers] has built so far: the
    distractors are the decimal forms of the values [vs], which are
    distinct, different from [correct], not negative and at most the offset
    bound away from [correct]; [used] holds them and [correct]. *)
Definition distractors_of (correct : Z) (wrongAnswers : list string)
    (used : gset Z) (vs : list Z) : Prop :=
  wrongAnswers = JS.Number_toString <$> vs /\
  used = {[correct]} ∪ list_to_set vs /\
  NoDup vs /\ (correct ∉ vs) /\
  Forall (fun v => Z.max 0 (correct - offset_bound correct) <= v
                   <= correct + offset_bound correct) vs.

(** The question that [getQuestionSet] emits for slot [i] from the draw
    [q]. *)
Definition stamped (i : nat) (q : Question) : Question :=
  {| question := question q; options := options q;
     correctAnswer := correctAnswer q; explanation := explanation q;
     category := category q; difficulty := difficulty q; type := type q;
     id := Some ("q_" +:+ JS.Number_toString (Z.of_nat i + 1));
     timeLimit := Some 30 |}.

(** *** [generateOrderOfOperations] *)

(** The expression shapes, [type] in the source. *)
Inductive Shape : Type :=
| add_mul | mul_add | paren_add_mul | paren_sub_mul | paren_mul_add | three_terms.

(** The table [configs]: the shapes and the largest operand of a
    difficulty; a difficulty outside the table takes the entry of medium. *)
Definition orderOfOperations_configs (difficulty : string) : list Shape * Z :=
  if bool_decide (difficulty = "easy")
  then ([add_mul; mul_add; paren_add_mul], 8)
  else if bool_decide (difficulty = "hard")
  then ([add_mul; mul_add; paren_add_mul; paren_sub_mul; three_terms;
         paren_mul_add], 15)
  else ([add_mul; mul_add; paren_add_mul; paren_sub_mul; paren_mul_add], 12).

(** What one branch of the [if] chain computes: the text of the expression,
    its value and the three mistaken values. *)
Record Expression : Type := {
  expr : string;
  correct : Z;
  w1 : Z;
  w2 : Z;
  w3 : Z
}.

Definition num (n : Z) : string := JS.Number_toString n.

(** The branches of the [if] chain, with the operands drawn in the order of
    the source; the last branch also takes a [type] that is [undefined]. *)
Definition orderOfOperations_expression (type : option Shape) (hi : Z)
  : Rand Expression :=
  match type with
  | Some add_mul =>
      rand_bind (randomInt 1 hi) (fun a =>
      rand_bind (randomInt 2 hi) (fun b =>
      rand_bind (randomInt 2 hi) (fun c =>
      rand_ret {| expr := num a +:+ " + " +:+ num b +:+ " × " +:+ num c;
                  correct := a + b * c;
                  w1 := (a + b) * c; w2 := a * b + c; w3 := a + b + c |})))
  | Some mul_add =>
      rand_bind (randomInt 2 hi) (fun a =>
      rand_bind (randomInt 2 hi) (fun b =>
      rand_bind (randomInt 1 hi) (fun c =>
      rand_ret {| expr := num a +:+ " × " +:+ num b +:+ " + " +:+ num c;
                  correct := a * b + c;
                  w1 := a * (b + c); w2 := a + b + c; w3 := a * b - c |})))
  | Some paren_add_mul =>
      rand_bind (randomInt 1 hi) (fun a =>
      rand_bind (randomInt 1 hi) (fun b =>
      rand_bind (randomInt 2 hi) (fun c =>
      rand_ret {| expr := "(" +:+ num a +:+ " + " +:+ num b +:+ ") × " +:+ num c;
                  correct := (a + b) * c;
                  w1 := a + b * c; w2 := a * c + b; w3 := (a + b) + c |})))
  | Some paren_sub_mul =>
      rand_bind (randomInt 1 (hi - 1)) (fun b =>
      rand_bind (randomInt (b + 1) hi) (fun a =>
      rand_bind (randomInt 2 hi) (fun c =>
      rand_ret {| expr := "(" +:+ num a +:+ " - " +:+ num b +:+ ") × " +:+ num c;
                  correct := (a - b) * c;
                  w1 := a - b * c; w2 := a * c - b; w3 := (a + b) * c |})))
  | Some paren_mul_add =>
      rand_bind (randomInt 2 hi) (fun a =>
      rand_bind (randomInt 2 hi) (fun b =>
      rand_bind (randomInt 1 hi) (fun c =>
      rand_ret {| expr := num a +:+ " × (" +:+ num b +:+ " + " +:+ num c +:+ ")";
                  correct := a * (b + c);
                  w1 := a * b + c; w2 := a * b * c; w3 := (a + b) * c |})))
  | Some three_terms | None =>
      rand_bind (randomInt 2 hi) (fun a =>
      rand_bind (randomInt 2 hi) (fun b =>
      rand_bind (randomInt 2 hi) (fun c =>
      rand_bind (randomInt 2 hi) (fun d =>
      rand_ret {| expr := num a +:+ " + " +:+ num b +:+ " - " +:+ num c
                          +:+ " × " +:+ num d;
                  correct := a + b - c * d;
                  w1 := (a + b - c) * d; w2 := a + b - c + d;
                  w3 := a * b - c * d |}))))
  end.

(** [[w1, w2, w3].filter(w => !used.has(w) && w >= 0 && used.add(w))]: the
    mistaken values that are new and not negative, with the set of the
    values seen. *)
Definition keep_new (state : list Z * gset Z) (w : Z) : list Z * gset Z :=
  let '(kept, used) := state in
  if negb (bool_decide (w ∈ used)) && (0 <=? w)
  then (kept ++ [w], {[w]} ∪ used)
  else (kept, used).

(** The loop [while (wrongs.length < 3)], which fills the distractors with
    [correct + 1], [correct - 1], [correct + 2], ...; [fuel] bounds the
    number of its iterations. *)
Fixpoint fill_loop (fuel : nat) (correct fill : Z) (wrongs : list string)
    (used : gset Z) : option (list string) :=
  if bool_decide (length wrongs < 3)%nat then
    match fuel with
    | O => None
    | S fuel' =>
        let cand := correct + fill in
        let fill' := if 0 <? fill then - fill else - fill + 1 in
        if bool_decide (cand ∈ used)
        then fill_loop fuel' correct fill' wrongs used
        else fill_loop fuel' correct fill' (wrongs ++ [num cand]) ({[cand]} ∪ used)
    end
  else Some wrongs.

(** The distractors of an expression: the filter, then the fill loop. *)
Definition orderOfOperations_wrongs (fuel : nat) (e : Expression)
  : option (list string) :=
  let '(kept, used) := foldl keep_new ([], {[correct e]}) [w1 e; w2 e; w3 e] in
  fill_loop fuel (correct e) 1 (num <$> kept) used.

(** [generateOrderOfOperations(difficulty)], with [fuel] iterations allowed
    to the fill loop. *)
Definition generateOrderOfOperations (fuel : nat) (difficulty : string)
  : Rand Question :=
  let '(types, hi) := orderOfOperations_configs difficulty in
  rand_bind Math_random (fun r =>
  let type :=
    types !! Z.to_nat (JS.Math_floor (r * inject_Z (Z.of_nat (length types)))) in
  rand_bind (orderOfOperations_expression type hi) (fun e =>
  match orderOfOperations_wrongs fuel e with
  | None => fun _ => None
  | Some wrongs =>
      rand_bind (shuffleArray (num (correct e) :: take 3 wrongs)) (fun options =>
      rand_ret {|
        question := "¿Cuánto es: " +:+ expr e +:+ "?";
        options := options;
        correctAnswer := num (correct e);
        explanation := "PEMDAS: " +:+ expr e +:+ " = " +:+ num (correct e);
        category := "arithmetic";
        difficulty := difficulty;
        type := "multiple_choice";
        id := None;
        timeLimit := None
      |})
  end)).

End QuestionBank.

(** A reference to a player object, as the arrays [room.players] and
    [session.players] hold it.  Through these arrays the sources read the
    [id] and the [name] only, and neither field is reassigned after
    [createPlayer]: the reference is modelled by the two values. *)
Record PlayerRef : Type := {
  ref_id : string;
  ref_name : string
}.

Definition ref_of (p : PlayerManager.Player) : PlayerRef :=
  {| ref_id := PlayerManager.id p; ref_name := PlayerManager.name p |}.

(* ===================================================================== *)
(** ** controllers/gameLogic.js: class GameLogic *)
(* ===================================================================== *)

Module GameLogic.

(** The argument [gameSettings] of [initializeGame]: a missing field is
    [None]. *)
Record GameSettings : Type := {
  arg_totalQuestions : option nat;
  arg_questionTime : option Q;
  arg_difficultyLevel : option string;
  arg_categories : option (list string)
}.

(** [gameSettings = {}]. *)
Definition empty_settings : GameSettings :=
  {| arg_totalQuestions := None; arg_questionTime := None;
     arg_difficultyLevel := None; arg_categories := None |}.

(** [session.settings]. *)
Record Settings : Type := {
  totalQuestions : nat;
  questionTime : Q;
  difficultyLevel : string;
  categories : list string
}.

Inductive Status : Type :=
| starting | playing | waiting_answers | showing_results | finished.

Global Instance Status_eq_dec : EqDecision Status.
Proof. solve_decision. Defined.

(** [answerData]. *)
Record AnswerData : Type := {
  playerId : string;
  answer : JS.Value;
  isCorrect : bool;
  responseTime : Z;
  timeRemaining : Q;
  pointsEarned : Z;
  timestamp : Z
}.

(** [session.gameStats]; [averageResponseTime] stays [0] and is left out. *)
Record SessionStats : Type := {
  totalQuestionsAnswered : Z;
  fastestResponse : option Z;
  slowestResponse : option Z
}.

(** One line of [roundRanking]. *)
Record RoundRank : Type := {
  rr_rank : Z;
  rr_playerId : string;
  rr_isCorrect : bool;
  rr_pointsEarned : Z;
  rr_responseTime : Z;
  rr_currentTotalScore : option Z
}.

(** One line of the overall ranking. *)
Record OverallRank : Type := {
  or_playerId : string;
  or_playerName : string;
  or_totalScore : Z;
  or_rank : Z
}.

(** [roundResult.stats]; [fastestResponse] is [None] for [Infinity]. *)
Record RoundStats : Type := {
  rs_totalPlayers : nat;
  rs_playersAnswered : nat;
  rs_correctAnswers : nat;
  rs_accuracy : Z;
  rs_averageResponseTime : Z;
  rs_fastestResponse : option Z
}.

Record RoundResult : Type := {
  questionNumber : nat;
  rr_question : QuestionBank.Question;
  rr_correctAnswer : string;
  rr_explanation : string;
  stats : RoundStats;
  roundRanking : list RoundRank;
  overallRanking : list OverallRank
}.

(** [gameSession]; the two timer handles are never assigned and are left
    out. *)
Record GameSession : Type := {
  roomCode : string;
  players : list PlayerRef;
  settings : Settings;
  status : Status;
  currentQuestionIndex : nat;
  currentQuestion : option QuestionBank.Question;
  questions : list QuestionBank.Question;
  currentRoundAnswers : JS.Map AnswerData;
  allAnswersReceived : bool;
  playerScores : JS.Map Z;
  roundResults : list RoundResult;
  gameStartedAt : option Z;
  questionStartedAt : option Z;
  gameStats : SessionStats
}.

(** [this.gameSessions]. *)
Abbreviation Store := (gmap string GameSession).

(** Field updates of the session object. *)
Definition set_round (s : GameSession) (q : option QuestionBank.Question)
    (started : option Z) (st : Status) (answers : JS.Map AnswerData)
    (all : bool) : GameSession :=
  {| roomCode := roomCode s; players := players s; settings := settings s;
     status := st; currentQuestionIndex := currentQuestionIndex s;
     currentQuestion := q; questions := questions s;
     currentRoundAnswers := answers; allAnswersReceived := all;
     playerScores := playerScores s; roundResults := roundResults s;
     gameStartedAt := gameStartedAt s; questionStartedAt := started;
     gameStats := gameStats s |}.

Definition set_status (s : GameSession) (st : Status) : GameSession :=
  set_round s (currentQuestion s) (questionStartedAt s) st
    (currentRoundAnswers s) (allAnswersReceived s).

Definition set_currentQuestionIndex (s : GameSession) (i : nat) : GameSession :=
  {| roomCode := roomCode s; players := players s; settings := settings s;
     status := status s; currentQuestionIndex := i;
     currentQuestion := currentQuestion s; questions := questions s;
     currentRoundAnswers := currentRoundAnswers s;
     allAnswersReceived := allAnswersReceived s;
     playerScores := playerScores s; roundResults := roundResults s;
     gameStartedAt := gameStartedAt s;
     questionStartedAt := questionStartedAt s; gameStats := gameStats s |}.

Definition push_roundResult (s : GameSession) (r : RoundResult) : GameSession :=
  {| roomCode := roomCode s; players := players s; settings := settings s;
     status := showing_results; currentQuestionIndex := currentQuestionIndex s;
     currentQuestion := currentQuestion s; questions := questions s;
     currentRoundAnswers := currentRoundAnswers s;
     allAnswersReceived := allAnswersReceived s;
     playerScores := playerScores s; roundResults := roundResults s ++ [r];
     gameStartedAt := gameStartedAt s;
     questionStartedAt := questionStartedAt s; gameStats := gameStats s |}.

(** [getGameSession]. *)
Definition getGameSession (roomCode : string) (gameSessions : Store)
  : option GameSession := gameSessions !! roomCode.

(** [generateQuestionSet]. *)
Definition generateQuestionSet (oracle : QuestionBank.Oracle) (st : Settings)
  : Res (list QuestionBank.Question) :=
  QuestionBank.getQuestionSet oracle (totalQuestions st) (difficultyLevel st)
    (categories st).

(** The [settings] of the session that [initializeGame] builds:
    [gameSettings.totalQuestions || 10] and so on. *)
Definition session_settings (gameSettings : GameSettings) : Settings :=
  {| totalQuestions := JS.or_default_nat (arg_totalQuestions gameSettings) 10;
     questionTime := JS.or_default_Q (arg_questionTime gameSettings) 30;
     difficultyLevel :=
       match arg_difficultyLevel gameSettings with
       | Some d => if bool_decide (d = "") then "medium" else d
       | None => "medium"
       end;
     categories :=
       default ["arithmetic"; "logic"; "geometry"] (arg_categories gameSettings) |}.

(** [initializeGame(roomCode, players, gameSettings = {})]: the session is
    stored after [generateQuestionSet] has returned; when that call throws
    or does not return, nothing has been written to [this.gameSessions]. *)
Definition initializeGame (oracle : QuestionBank.Oracle) (roomCode : string)
    (players : list PlayerRef) (gameSettings : GameSettings)
  : M Store GameSession :=
  fun gameSessions =>
    let settings := session_settings gameSettings in
    match generateQuestionSet oracle settings with
    | Ok questions =>
        let gameSession := {|
          roomCode := roomCode;
          players := players;
          settings := settings;
          status := starting;
          currentQuestionIndex := 0;
          currentQuestion := None;
          questions := questions;
          currentRoundAnswers := [];
          allAnswersReceived := false;
          playerScores :=
            foldl (fun scores player => JS.Map_set (ref_id player) 0 scores) []
              players;
          roundResults := [];
          gameStartedAt := None;
          questionStartedAt := None;
          gameStats := {| totalQuestionsAnswered := 0; fastestResponse := None;
                          slowestResponse := None |}
        |} in
        (Ok gameSession, <[roomCode := gameSession]> gameSessions)
    | Throw e => (Throw e, gameSessions)
    | Diverge => (Diverge, gameSessions)
    end.

(** [setCurrentQuestion(roomCode, question)] at the time [now]. *)
Definition setCurrentQuestion (now : Z) (roomCode : string)
    (question : QuestionBank.Question) : M Store bool :=
  fun gameSessions =>
    match getGameSession roomCode gameSessions with
    | None => (Throw (ESessionNotFound roomCode), gameSessions)
    | Some session =>
        (Ok true,
         <[roomCode := set_round session (Some question) (Some now) playing
                         (JS.Map_clear (currentRoundAnswers session)) false]>
           gameSessions)
    end.

(** [checkAnswer(question, answer)]: a number is returned as it is. *)
Definition checkAnswer_normalizeAnswer (ans : JS.Value) : JS.Value :=
  match ans with
  | JS.VNum n => JS.VNum n
  | JS.VStr s => JS.VStr (JS.trim (JS.toLowerCase s))
  | _ => JS.VStr (JS.trim (JS.toLowerCase (JS.String_of ans)))
  end.

Definition checkAnswer (question : QuestionBank.Question) (answer : JS.Value)
  : bool :=
  let userAnswer := checkAnswer_normalizeAnswer answer in
  let correctAnswer :=
    checkAnswer_normalizeAnswer (JS.VStr (QuestionBank.correctAnswer question)) in
  JS.strict_eq userAnswer correctAnswer.

(** [calculateQuestionPoints(timeRemaining, maxTime, responseTime,
    difficulty)]. *)
Definition calculateQuestionPoints (timeRemaining maxTime : Q)
    (responseTime : Z) (difficulty : string) : Z :=
  let basePoints := 100%Q in
  let points :=
    JS.mul basePoints
      (default (JS.lit 1.0) (PlayerManager.difficultyMultipliers difficulty)) in
  let speedRatio := JS.div timeRemaining maxTime in
  let speedBonus :=
    JS.Math_round (JS.mul (JS.mul points (JS.lit 0.5)) speedRatio) in
  let points := JS.add points (inject_Z speedBonus) in
  JS.Math_round points.

(** [calculateResponseTime(questionStartTime)] at the time [now];
    [null] counts as [0] in the subtraction. *)
Definition calculateResponseTime (now : Z) (questionStartTime : option Z) : Z :=
  now - default 0 questionStartTime.

(** [updateGameStats(session, answerData)], on [session.gameStats]. *)
Definition updateGameStats (st : SessionStats) (answerData : AnswerData)
  : SessionStats :=
  let rt := responseTime answerData in
  {| totalQuestionsAnswered := totalQuestionsAnswered st + 1;
     fastestResponse :=
       match fastestResponse st with
       | Some f => if (f =? 0) || (rt <? f) then Some rt else Some f
       | None => Some rt
       end;
     slowestResponse :=
       match slowestResponse st with
       | Some f => if (f =? 0) || (f <? rt) then Some rt else Some f
       | None => Some rt
       end |}.

(** The result object of [processAnswer]. *)
Record AnswerResult : Type := {
  res_isCorrect : bool;
  res_pointsEarned : Z;
  res_responseTime : Z;
  res_allAnswersReceived : bool
}.

(** [processAnswer(roomCode, playerId, answer, timeRemaining)] at the time
    [now]. *)
Definition processAnswer (now : Z) (roomCode playerId : string)
    (answer : JS.Value) (timeRemaining : Q) : M Store AnswerResult :=
  fun gameSessions =>
    match getGameSession roomCode gameSessions with
    | None => (Throw (ESessionNotFound roomCode), gameSessions)
    | Some session =>
        if negb (bool_decide (status session = playing))
        then (Throw ENotPlaying, gameSessions)
        else if JS.Map_has playerId (currentRoundAnswers session)
        then (Throw EAlreadyAnswered, gameSessions)
        else
          match currentQuestion session with
          | None => (Throw ENoActiveQuestion, gameSessions)
          | Some currentQuestion =>
              let responseTime :=
                calculateResponseTime now (questionStartedAt session) in
              let isCorrect := checkAnswer currentQuestion answer in
              let points :=
                if isCorrect
                then calculateQuestionPoints timeRemaining
                       (questionTime (settings session)) responseTime
                       (QuestionBank.difficulty currentQuestion)
                else 0 in
              let answerData := {|
                playerId := playerId;
                answer := answer;
                isCorrect := isCorrect;
                responseTime := responseTime;
                timeRemaining := timeRemaining;
                pointsEarned := points;
                timestamp := now
              |} in
              let answers :=
                JS.Map_set playerId answerData (currentRoundAnswers session) in
              let currentScore :=
                default 0 (JS.Map_get playerId (playerScores session)) in
              let scores :=
                JS.Map_set playerId (currentScore + points) (playerScores session) in
              let all :=
                bool_decide (length (players session) <= JS.Map_size answers)%nat in
              let session' := {|
                roomCode := GameLogic.roomCode session;
                players := players session;
                settings := settings session;
                status := status session;
                currentQuestionIndex := currentQuestionIndex session;
                currentQuestion := GameLogic.currentQuestion session;
                questions := questions session;
                currentRoundAnswers := answers;
                allAnswersReceived := all;
                playerScores := scores;
                roundResults := roundResults session;
                gameStartedAt := gameStartedAt session;
                questionStartedAt := questionStartedAt session;
                gameStats := updateGameStats (gameStats session) answerData
              |} in
              (Ok {| res_isCorrect := isCorrect;
                     res_pointsEarned := points;
                     res_responseTime := responseTime;
                     res_allAnswersReceived := all |},
               <[roomCode := session']> gameSessions)
          end
    end.

(** [allPlayersAnswered(roomCode)]. *)
Definition allPlayersAnswered (roomCode : string) (gameSessions : Store) : bool :=
  match getGameSession roomCode gameSessions with
  | Some session => allAnswersReceived session
  | None => false
  end.

(** [getOverallRanking(session)]. *)
Definition getOverallRanking (session : GameSession) : list OverallRank :=
  let entries :=
    (fun '(playerId, score) =>
       let player :=
         list_find (fun p => ref_id p = playerId) (players session) in
       (playerId,
        match player with
        | Some (_, p) => ref_name p
        | None => "Desconocido"
        end,
        score)) <$> JS.Map_entries (playerScores session) in
  let sorted :=
    JS.sort (fun a b => b.2 - a.2) entries in
  imap (fun index '(playerId, playerName, totalScore) =>
          {| or_playerId := playerId; or_playerName := playerName;
             or_totalScore := totalScore; or_rank := Z.of_nat index + 1 |})
       sorted.

(** The array that [getOverallRanking] sorts: identity, name and score of
    every entry of the score map. *)
Definition ranking_entries (session : GameSession) : list (string * string * Z) :=
  (fun '(playerId, score) =>
     (playerId,
      match list_find (fun p => ref_id p = playerId) (players session) with
      | Some (_, p) => ref_name p
      | None => "Desconocido"
      end,
      score)) <$> JS.Map_entries (playerScores session).

(** The comparator of the round ranking. *)
Definition roundRanking_cmp (a b : AnswerData) : Z :=
  if negb (bool_decide (isCorrect b = isCorrect a))
  then Z.b2z (isCorrect b) - Z.b2z (isCorrect a)
  else if negb (pointsEarned b =? pointsEarned a)
  then pointsEarned b - pointsEarned a
  else responseTime a - responseTime b.

(** [Math.min(...xs)], [None] for [Infinity]. *)
Definition Math_min_list (xs : list Z) : option Z :=
  match xs with
  | [] => None
  | x :: r => Some (foldl Z.min x r)
  end.

(** [getRoundResults(roomCode)].  Reading [currentQuestion.correctAnswer]
    of a [null] question is a [TypeError].  The quotients by
    [answers.length] are [NaN] on an empty round and read [0] here. *)
Definition getRoundResults (roomCode : string) : M Store RoundResult :=
  fun gameSessions =>
    match getGameSession roomCode gameSessions with
    | None => (Throw (ESessionNotFound roomCode), gameSessions)
    | Some session =>
        let answers := JS.Map_values (currentRoundAnswers session) in
        let correctAnswers := length (filter (fun a => isCorrect a = true) answers) in
        let len := inject_Z (Z.of_nat (length answers)) in
        let total := foldl (fun sum a => sum + responseTime a) 0 answers in
        let averageResponseTime := (inject_Z total / len)%Q in
        let fastestResponse := Math_min_list (responseTime <$> answers) in
        let roundRanking :=
          imap (fun index answer =>
                  {| rr_rank := Z.of_nat index + 1;
                     rr_playerId := playerId answer;
                     rr_isCorrect := isCorrect answer;
                     rr_pointsEarned := pointsEarned answer;
                     rr_responseTime := responseTime answer;
                     rr_currentTotalScore :=
                       JS.Map_get (playerId answer) (playerScores session) |})
               (JS.sort roundRanking_cmp answers) in
        match currentQuestion session with
        | None => (Throw ETypeError, gameSessions)
        | Some currentQuestion =>
            let roundResult := {|
              questionNumber := (currentQuestionIndex session + 1)%nat;
              rr_question := currentQuestion;
              rr_correctAnswer := QuestionBank.correctAnswer currentQuestion;
              rr_explanation := QuestionBank.explanation currentQuestion;
              stats := {|
                rs_totalPlayers := length (players session);
                rs_playersAnswered := length answers;
                rs_correctAnswers := correctAnswers;
                rs_accuracy :=
                  JS.Math_round
                    (inject_Z (Z.of_nat correctAnswers) / len * 100);
                rs_averageResponseTime := JS.Math_round averageResponseTime;
                rs_fastestResponse := fastestResponse
              |};
              roundRanking := roundRanking;
              overallRanking := getOverallRanking session
            |} in
            (Ok roundResult,
             <[roomCode := push_roundResult session roundResult]> gameSessions)
        end
    end.

(** [getNextQuestion(roomCode)] at the time [now]: the next question with
    its number, or [null]. *)
Definition getNextQuestion (now : Z) (roomCode : string)
  : M Store (option (QuestionBank.Question * nat)) :=
  fun gameSessions =>
    match getGameSession roomCode gameSessions with
    | None => (Ok None, gameSessions)
    | Some session =>
        let index := S (currentQuestionIndex session) in
        let session := set_currentQuestionIndex session index in
        if bool_decide (length (questions session) <= index)%nat
        then (Ok None, <[roomCode := set_status session finished]> gameSessions)
        else
          match questions session !! index with
          | None => (Throw ETypeError, <[roomCode := session]> gameSessions)
          | Some nextQuestion =>
              bind (setCurrentQuestion now roomCode nextQuestion)
                   (fun _ => ret (Some (nextQuestion, S index)))
                   (<[roomCode := session]> gameSessions)
          end
    end.

(** [calculateFinalStats(session)]. *)
Record FinalStats : Type := {
  fs_totalAnswers : nat;
  fs_correctAnswers : nat;
  fs_overallAccuracy : Z;
  fs_averageResponseTime : Z;
  fs_fastestResponse : option Z;
  fs_slowestResponse : option Z
}.

Definition calculateFinalStats (session : GameSession) : FinalStats :=
  let allAnswers :=
    concat ((fun round =>
               (fun rank => (rr_isCorrect rank, rr_responseTime rank))
                 <$> roundRanking round) <$> roundResults session) in
  let correctAnswers := length (filter (fun a => a.1 = true) allAnswers) in
  let len := inject_Z (Z.of_nat (length allAnswers)) in
  let total := foldl (fun sum a => sum + a.2) 0 allAnswers in
  let avgResponseTime := (inject_Z total / len)%Q in
  {| fs_totalAnswers := length allAnswers;
     fs_correctAnswers := correctAnswers;
     fs_overallAccuracy :=
       JS.Math_round (inject_Z (Z.of_nat correctAnswers) / len * 100);
     fs_averageResponseTime := JS.Math_round avgResponseTime;
     fs_fastestResponse := fastestResponse (gameStats session);
     fs_slowestResponse := slowestResponse (gameStats session) |}.

(** [calculateGameDuration(session)] at the time [now]. *)
Definition calculateGameDuration (now : Z) (session : GameSession) : Z :=
  match gameStartedAt session with
  | None => 0
  | Some started => JS.Math_round (inject_Z (now - started) / 1000)
  end.

(** [finalResults]. *)
Record FinalResults : Type := {
  gameId : string;
  fr_totalQuestions : nat;
  fr_totalPlayers : nat;
  finalRanking : list OverallRank;
  winner : option OverallRank;
  fr_gameStats : FinalStats;
  gameDuration : Z;
  roundHistory : list RoundResult
}.

(** [getFinalResults(roomCode)] at the time [now]. *)
Definition getFinalResults (now : Z) (roomCode : string) : M Store FinalResults :=
  fun gameSessions =>
    match getGameSession roomCode gameSessions with
    | None => (Throw (ESessionNotFound roomCode), gameSessions)
    | Some session =>
        let session := set_status session finished in
        let finalRanking := getOverallRanking session in
        let finalResults := {|
          gameId := roomCode;
          fr_totalQuestions := length (questions session);
          fr_totalPlayers := length (players session);
          finalRanking := finalRanking;
          winner := head finalRanking;
          fr_gameStats := calculateFinalStats session;
          gameDuration := calculateGameDuration now session;
          roundHistory := roundResults session
        |} in
        (Ok finalResults, <[roomCode := session]> gameSessions)
    end.

(** [closeGameSession(roomCode)]. *)
Definition closeGameSession (roomCode : string) (gameSessions : Store)
  : bool * Store :=
  match gameSessions !! roomCode with
  | None => (false, gameSessions)
  | Some _ => (true, delete roomCode gameSessions)
  end.

End GameLogic.

(* ===================================================================== *)
(** ** controllers/roomManager.js: class RoomManager *)
(* ===================================================================== *)

Module RoomManager.

(** The argument [customSettings] of [createRoom], sent by the client as
    [gameSettings]: a missing field is [None].  No handler validates
    [maxPlayers], which the sources only compare with the length of the
    roster: the field holds the number that the value converts to there. *)
Record CustomSettings : Type := {
  arg_maxPlayers : option JS.Number;
  arg_questionTime : option Q;
  arg_totalQuestions : option nat;
  arg_difficultyLevel : option string;
  arg_categories : option (list string)
}.

(** [customSettings = {}]. *)
Definition empty_settings : CustomSettings :=
  {| arg_maxPlayers := None; arg_questionTime := None;
     arg_totalQuestions := None; arg_difficultyLevel := None;
     arg_categories := None |}.

(** [room.settings]. *)
Record Settings : Type := {
  settings_maxPlayers : JS.Number;
  questionTime : Q;
  totalQuestions : nat;
  difficultyLevel : string;
  categories : list string
}.

(** [this.defaultSettings]. *)
Definition defaultSettings : Settings :=
  {| settings_maxPlayers := JS.finite 30; questionTime := 30;
     totalQuestions := 10;
     difficultyLevel := "medium";
     categories := ["arithmetic"; "logic"; "geometry"] |}.

(** [{ ...this.defaultSettings, ...customSettings }]. *)
Definition merge_settings (d : Settings) (c : CustomSettings) : Settings :=
  {| settings_maxPlayers := default (settings_maxPlayers d) (arg_maxPlayers c);
     questionTime := default (questionTime d) (arg_questionTime c);
     totalQuestions := default (totalQuestions d) (arg_totalQuestions c);
     difficultyLevel := default (difficultyLevel d) (arg_difficultyLevel c);
     categories := default (categories d) (arg_categories c) |}.

Inductive Status : Type := waiting | playing | finished.

(** [roomData]; of [gameState] only [scores] is ever written; the two
    timestamps are left out. *)
Record Room : Type := {
  code : string;
  hostId : string;
  players : list PlayerRef;
  settings : Settings;
  status : Status;
  maxPlayers : JS.Number;
  gameState_scores : gmap string Z
}.

(** [this.rooms]. *)
Abbreviation Store := (gmap string Room).

Definition set_players (room : Room) (ps : list PlayerRef)
    (scores : gmap string Z) : Room :=
  {| code := code room; hostId := hostId room; players := ps;
     settings := settings room; status := status room;
     maxPlayers := maxPlayers room; gameState_scores := scores |}.

(** [generateRoomCode()]: [candidates] are the six-character strings that
    the successive rounds of the [do ... while] loop draw; [None] when all
    of them are taken. *)
Definition generateRoomCode (candidates : list string) (rooms : Store)
  : option string :=
  snd <$> list_find (fun c => rooms !! c = None) candidates.

(** [createRoom(hostId, customSettings = {})], for the code [roomCode]
    that [generateRoomCode] returned. *)
Definition createRoom (roomCode hostId : string) (customSettings : CustomSettings)
  : M Store Room :=
  fun rooms =>
    let settings := merge_settings defaultSettings customSettings in
    let roomData := {|
      code := roomCode; hostId := hostId; players := [];
      settings := settings; status := waiting;
      maxPlayers := settings_maxPlayers settings; gameState_scores := ∅ |} in
    (Ok roomData, <[roomCode := roomData]> rooms).

(** [getRoom]: only [lastActivity] is written, which is not modelled. *)
Definition getRoom (roomCode : string) (rooms : Store) : option Room :=
  rooms !! roomCode.

(** [addPlayerToRoom(roomCode, player)]. *)
Definition addPlayerToRoom (roomCode : string) (player : PlayerRef)
  : M Store bool :=
  fun rooms =>
    match getRoom roomCode rooms with
    | None => (Throw ERoomNotFound, rooms)
    | Some room =>
        if JS.length_ge (length (players room)) (maxPlayers room)
        then (Throw ERoomFull, rooms)
        else if bool_decide
                  (is_Some (list_find (fun p => ref_id p = ref_id player)
                                      (players room)))
        then (Throw EAlreadyInRoom, rooms)
        else
          (Ok true,
           <[roomCode := set_players room (players room ++ [player])
                           (<[ref_id player := 0]> (gameState_scores room))]>
             rooms)
    end.

(** [removePlayerFromRoom(roomCode, playerId)]. *)
Definition removePlayerFromRoom (roomCode playerId : string) (rooms : Store)
  : bool * Store :=
  match getRoom roomCode rooms with
  | None => (false, rooms)
  | Some room =>
      match list_find (fun p => ref_id p = playerId) (players room) with
      | None => (false, rooms)
      | Some (playerIndex, _) =>
          (true,
           <[roomCode := set_players room (delete playerIndex (players room))
                           (delete playerId (gameState_scores room))]> rooms)
      end
  end.

(** [findRoomByPlayerId(playerId)].  The source walks the rooms in
    insertion order; a connection identifies one player, who is put into
    one room, so that at most one room matches. *)
Definition findRoomByPlayerId (playerId : string) (rooms : Store) : option Room :=
  (fun found => found.2.2) <$> list_find
    (fun kr => is_Some (list_find (fun p => ref_id p = playerId) (players kr.2)))
    (map_to_list rooms).

(** [closeRoom(roomCode)]. *)
Definition closeRoom (roomCode : string) (rooms : Store) : bool * Store :=
  match rooms !! roomCode with
  | None => (false, rooms)
  | Some _ => (true, delete roomCode rooms)
  end.

(** [updateRoomStatus(roomCode, newStatus)]. *)
Definition updateRoomStatus (roomCode : string) (newStatus : Status)
    (rooms : Store) : bool * Store :=
  match getRoom roomCode rooms with
  | None => (false, rooms)
  | Some room =>
      (true,
       <[roomCode := {| code := code room; hostId := hostId room;
                        players := players room; settings := settings room;
                        status := newStatus; maxPlayers := maxPlayers room;
                        gameState_scores := gameState_scores room |}]> rooms)
  end.

(** The outcomes of [updateRoomSettings]: the two values it returns, and
    the exception 'No se puede cambiar la configuracion durante el juego'. *)
Inductive SettingsUpdate : Type :=
| returns (b : bool)
| throws_game_in_progress.

(** [updateRoomSettings(roomCode, newSettings)]: [room.settings] is replaced
    by the merge; [room.maxPlayers] is not assigned. *)
Definition updateRoomSettings (roomCode : string) (newSettings : CustomSettings)
    (rooms : Store) : SettingsUpdate * Store :=
  match getRoom roomCode rooms with
  | None => (returns false, rooms)
  | Some room =>
      match status room with
      | waiting =>
          (returns true,
           <[roomCode := {| code := code room; hostId := hostId room;
                            players := players room;
                            settings := merge_settings (settings room) newSettings;
                            status := status room; maxPlayers := maxPlayers room;
                            gameState_scores := gameState_scores room |}]> rooms)
      | _ => (throws_game_in_progress, rooms)
      end
  end.

(** [getRoomPublicInfo(roomCode)]. *)
Record PublicInfo : Type := {
  info_code : string;
  info_playersCount : nat;
  info_maxPlayers : JS.Number;
  info_status : Status;
  info_totalQuestions : nat;
  info_questionTime : Q;
  info_difficultyLevel : string
}.

Definition getRoomPublicInfo (roomCode : string) (rooms : Store)
  : option PublicInfo :=
  match getRoom roomCode rooms with
  | None => None
  | Some room =>
      Some {| info_code := code room;
              info_playersCount := length (players room);
              info_maxPlayers := maxPlayers room;
              info_status := status room;
              info_totalQuestions := totalQuestions (settings room);
              info_questionTime := questionTime (settings room);
              info_difficultyLevel := difficultyLevel (settings room) |}
  end.

(** The class [[A-Z0-9]] of [isValidRoomCode]. *)
Definition code_char (c : ascii) : bool :=
  let n := nat_of_ascii c in
  ((65 <=? n) && (n <=? 90) || (48 <=? n) && (n <=? 57))%nat.

(** [isValidRoomCode(roomCode)], for a string. *)
Definition isValidRoomCode (roomCode : string) : bool :=
  bool_decide (String.length roomCode = 6%nat)
  && PlayerManager.all_chars code_char roomCode.

(** What the check [players.length >= maxPlayers] leaves of a capacity:
    a roster of [n] players is empty, or it was not full before its last
    player came.  For a whole number of players this is [n <= maxPlayers];
    for 2.5 it allows 3; for [NaN] it allows any number. *)
Definition within_capacity (n : nat) (maxPlayers : JS.Number) : Prop :=
  match maxPlayers with
  | JS.finite q => n = 0%nat \/ (inject_Z (Z.of_nat n) < q + 1)%Q
  | JS.NegInfinity => n = 0%nat
  | JS.NaN | JS.Infinity => True
  end.

(** A room whose roster has no identity twice and is within the capacity,
    in that sense. *)
Definition room_ok (room : Room) : Prop :=
  NoDup (ref_id <$> players room) /\
  within_capacity (length (players room)) (maxPlayers room).

End RoomManager.

(* ===================================================================== *)
(** ** server.js: the Socket.IO event handlers *)
(* ===================================================================== *)

Module Server.

(** The payloads that the handlers emit (the [player] and [room] objects
    of [room-created] and [room-joined] are left out). *)
Inductive Message : Type :=
| room_created (roomCode : string)
| room_joined (roomCode : string)
| player_joined (playerName : string) (totalPlayers : nat)
| game_started (totalQuestions : nat)
| new_question (question : QuestionBank.Question) (questionNumber : nat)
    (timeLimit : Q)
| answer_result (correct : bool) (pointsEarned totalScore : Z)
| round_results (roundResults : GameLogic.RoundResult)
| game_finished (finalResults : GameLogic.FinalResults)
| player_disconnected (playerName : string) (totalPlayers : nat)
| host_changed (newHost : string)
| error (e : Error).

(** [socket.emit] and [io.to(roomCode).emit]. *)
Inductive Emit : Type :=
| to_socket (socketId : string) (m : Message)
| to_room (roomCode : string) (m : Message).

(** The two callbacks given to [setTimeout], with the values that their
    closures capture.  [first_question] captures the [room] object, whose
    [settings] no handler reassigns: it carries the time limit read at
    scheduling time. *)
Inductive Timer : Type :=
| first_question (roomCode : string) (firstQuestion : QuestionBank.Question)
    (timeLimit : Q)
| next_question (roomCode : string).

(** The module-level objects of [server.js], the pending timers and the
    messages emitted so far. *)
Record State : Type := {
  roomManager : RoomManager.Store;
  playerManager : PlayerManager.Store;
  gameLogic : GameLogic.Store;
  timers : list Timer;
  emitted : list Emit
}.

Definition initial : State :=
  {| roomManager := ∅; playerManager := ∅; gameLogic := ∅; timers := [];
     emitted := [] |}.

Definition set_roomManager (r : RoomManager.Store) (s : State) : State :=
  {| roomManager := r; playerManager := playerManager s;
     gameLogic := gameLogic s; timers := timers s; emitted := emitted s |}.
Definition set_playerManager (p : PlayerManager.Store) (s : State) : State :=
  {| roomManager := roomManager s; playerManager := p;
     gameLogic := gameLogic s; timers := timers s; emitted := emitted s |}.
Definition set_gameLogic (g : GameLogic.Store) (s : State) : State :=
  {| roomManager := roomManager s; playerManager := playerManager s;
     gameLogic := g; timers := timers s; emitted := emitted s |}.
Definition set_timers (t : list Timer) (s : State) : State :=
  {| roomManager := roomManager s; playerManager := playerManager s;
     gameLogic := gameLogic s; timers := t; emitted := emitted s |}.

Local Open Scope js_scope.

Definition rooms {A} (m : M RoomManager.Store A) : M State A :=
  zoom roomManager set_roomManager m.
Definition players {A} (m : M PlayerManager.Store A) : M State A :=
  zoom playerManager set_playerManager m.
Definition sessions {A} (m : M GameLogic.Store A) : M State A :=
  zoom gameLogic set_gameLogic m.

(** A method that cannot throw, run on its store. *)
Definition call {S A} (f : S -> A * S) : M S A :=
  fun s => let '(a, s') := f s in (Ok a, s').
(** A method that only reads its store. *)
Definition read {S A} (f : S -> A) : M S A := fun s => (Ok (f s), s).

Definition emit (e : Emit) : M State unit :=
  modify (fun s =>
    {| roomManager := roomManager s; playerManager := playerManager s;
       gameLogic := gameLogic s; timers := timers s;
       emitted := emitted s ++ [e] |}).

Definition setTimeout (t : Timer) : M State unit :=
  modify (fun s => set_timers (timers s ++ [t]) s).

(** [try { body } catch (error) { socket.emit('error', ...) }]. *)
Definition try_catch (socketId : string) (body : M State unit) : M State unit :=
  fun s => match body s with
           | (Ok _, s') => (Ok tt, s')
           | (Throw e, s') => emit (to_socket socketId (error e)) s'
           | (Diverge, s') => (Diverge, s')
           end.

(** [socket.on('create-room')]; [roomCode] is the code that
    [generateRoomCode] draws. *)
Definition on_create_room (socketId : string) (roomCode : string)
    (playerName : string) (gameSettings : option RoomManager.CustomSettings)
  : M State unit :=
  try_catch socketId (
    do room <- rooms (RoomManager.createRoom roomCode socketId
                        (default RoomManager.empty_settings gameSettings));
    do player <- players (PlayerManager.createPlayer socketId playerName true);
    exec rooms (RoomManager.addPlayerToRoom (RoomManager.code room) (ref_of player));
    emit (to_socket socketId (room_created (RoomManager.code room)))).

(** [socket.on('join-room')]. *)
Definition on_join_room (socketId : string) (playerName roomCode : string)
  : M State unit :=
  try_catch socketId (
    do room <- rooms (read (RoomManager.getRoom roomCode));
    match room with
    | None => throw ERoomNotFound
    | Some room =>
        if JS.length_ge (length (RoomManager.players room))
             (RoomManager.maxPlayers room)
        then throw ERoomFull
        else
          do player <- players (PlayerManager.createPlayer socketId playerName false);
          exec rooms (RoomManager.addPlayerToRoom roomCode (ref_of player));
          exec emit (to_socket socketId (room_joined roomCode));
          do room <- rooms (read (RoomManager.getRoom roomCode));
          emit (to_room roomCode
                  (player_joined (PlayerManager.name player)
                     (from_option (fun r => length (RoomManager.players r)) 0%nat room)))
    end).

(** [socket.on('start-game')] at the time [now]; [oracle] is the random
    input of the question set and [firstQuestion] is how
    [questionBank.getRandomQuestion()] ends. *)
Definition on_start_game (now : Z) (oracle : QuestionBank.Oracle)
    (firstQuestion : Res QuestionBank.Question) (socketId : string)
    (roomCode : string) : M State unit :=
  try_catch socketId (
    do room <- rooms (read (RoomManager.getRoom roomCode));
    match room with
    | None => throw ERoomNotFound
    | Some room =>
        do player <- players (read (PlayerManager.getPlayer socketId));
        if negb (from_option PlayerManager.isHost false player)
        then throw ENotHost
        else if bool_decide (length (RoomManager.players room) < 2)%nat
        then throw ENotEnoughPlayers
        else
          exec sessions (GameLogic.initializeGame oracle roomCode
                           (RoomManager.players room) GameLogic.empty_settings);
          do firstQuestion <- outcome firstQuestion;
          exec sessions (GameLogic.setCurrentQuestion now roomCode firstQuestion);
          exec emit (to_room roomCode
                       (game_started
                          (RoomManager.totalQuestions (RoomManager.settings room))));
          setTimeout (first_question roomCode firstQuestion
                        (RoomManager.questionTime (RoomManager.settings room)))
    end).

(** [socket.on('submit-answer')] at the time [now]. *)
Definition on_submit_answer (now : Z) (socketId : string) (roomCode : string)
    (answer : JS.Value) (timeRemaining : Q) : M State unit :=
  try_catch socketId (
    do player <- players (read (PlayerManager.getPlayer socketId));
    match player with
    | None => throw ESubmitPlayerNotFound
    | Some player =>
        let playerId := PlayerManager.id player in
        do result <- sessions (GameLogic.processAnswer now roomCode playerId
                                 answer timeRemaining);
        exec players (PlayerManager.updatePlayerScore playerId
                        (GameLogic.res_pointsEarned result) None None None None);
        do updated <- players (read (PlayerManager.getPlayer playerId));
        match updated with
        | None => throw ETypeError
        | Some updated =>
            exec emit (to_socket socketId
                         (answer_result (GameLogic.res_isCorrect result)
                            (GameLogic.res_pointsEarned result)
                            (PlayerManager.score updated)));
            do all <- sessions (read (GameLogic.allPlayersAnswered roomCode));
            if all : bool then
              do roundResults <- sessions (GameLogic.getRoundResults roomCode);
              exec emit (to_room roomCode (round_results roundResults));
              setTimeout (next_question roomCode)
            else ret tt
        end
    end).

(** The callback that [submit-answer] schedules, run at the time [now].
    It is not inside a [try]: a [Throw] is an uncaught exception. *)
Definition next_question_callback (now : Z) (roomCode : string) : M State unit :=
  do nextQuestion <- sessions (GameLogic.getNextQuestion now roomCode);
  match nextQuestion with
  | Some (question, questionNumber) =>
      do room <- rooms (read (RoomManager.getRoom roomCode));
      match room with
      | None => throw ETypeError
      | Some room =>
          emit (to_room roomCode
                  (new_question question questionNumber
                     (RoomManager.questionTime (RoomManager.settings room))))
      end
  | None =>
      do finalResults <- sessions (GameLogic.getFinalResults now roomCode);
      emit (to_room roomCode (game_finished finalResults))
  end.

(** The callback that [start-game] schedules. *)
Definition first_question_callback (roomCode : string)
    (firstQuestion : QuestionBank.Question) (timeLimit : Q) : M State unit :=
  emit (to_room roomCode (new_question firstQuestion 1 timeLimit)).

Definition run_timer (now : Z) (t : Timer) : M State unit :=
  match t with
  | first_question roomCode firstQuestion timeLimit =>
      first_question_callback roomCode firstQuestion timeLimit
  | next_question roomCode => next_question_callback now roomCode
  end.

(** The [n]-th pending timer fires at the time [now]. *)
Definition fire (now : Z) (n : nat) : M State unit :=
  do s <- get;
  match timers s !! n with
  | None => ret tt
  | Some t =>
      exec modify (fun s => set_timers (delete n (timers s)) s);
      run_timer now t
  end.

(** [socket.on('disconnect')]; nothing in its [try] block throws. *)
Definition on_disconnect (socketId : string) : M State unit :=
  do player <- players (read (PlayerManager.getPlayer socketId));
  match player with
  | None => ret tt
  | Some player =>
      do room <- rooms (read (RoomManager.findRoomByPlayerId socketId));
      exec match room with
           | None => ret tt
           | Some room =>
               let code := RoomManager.code room in
               exec rooms (call (RoomManager.removePlayerFromRoom code socketId));
               do room <- rooms (read (RoomManager.getRoom code));
               let remaining := from_option RoomManager.players [] room in
               exec emit (to_room code
                            (player_disconnected (PlayerManager.name player)
                               (length remaining)));
               if PlayerManager.isHost player then
                 match remaining with
                 | newHost :: _ =>
                     exec players (call (PlayerManager.setAsHost (ref_id newHost)));
                     emit (to_room code (host_changed (ref_name newHost)))
                 | [] =>
                     exec rooms (call (RoomManager.closeRoom code));
                     ret tt
                 end
               else ret tt
           end;
      exec players (call (PlayerManager.removePlayer socketId));
      ret tt
  end.

(** The inbound events, each with the inputs of its handler. *)
Inductive Event : Type :=
| create_room (socketId roomCode playerName : string)
    (gameSettings : option RoomManager.CustomSettings)
| join_room (socketId playerName roomCode : string)
| start_game (now : Z) (oracle : QuestionBank.Oracle)
    (firstQuestion : Res QuestionBank.Question) (socketId roomCode : string)
| submit_answer (now : Z) (socketId roomCode : string) (answer : JS.Value)
    (timeRemaining : Q)
| timer_fires (now : Z) (n : nat)
| disconnect (socketId : string).

Definition handle (e : Event) : M State unit :=
  match e with
  | create_room socketId roomCode playerName gameSettings =>
      on_create_room socketId roomCode playerName gameSettings
  | join_room socketId playerName roomCode =>
      on_join_room socketId playerName roomCode
  | start_game now oracle firstQuestion socketId roomCode =>
      on_start_game now oracle firstQuestion socketId roomCode
  | submit_answer now socketId roomCode answer timeRemaining =>
      on_submit_answer now socketId roomCode answer timeRemaining
  | timer_fires now n => fire now n
  | disconnect socketId => on_disconnect socketId
  end.

(** The event loop: the events are handled one at a time; an uncaught
    exception is logged by the process and the loop goes on; a handler that
    never returns blocks the loop, and no later event is handled. *)
Fixpoint run (es : list Event) (s : State) : State :=
  match es with
  | [] => s
  | e :: es' =>
      match handle e s with
      | (Diverge, s') => s'
      | (_, s') => run es' s'
      end
  end.

End Server.

(* ===================================================================== *)
(** ** The scoring function of the specification (section 4.3.1) *)
(* ===================================================================== *)

Module Spec.

Inductive Difficulty : Type := easy | medium | hard.


(** [difficultyMultiplier(difficulty)]: easy=0.8, medium=1.0, hard=1.3. *)
Definition difficultyMultiplier (d : Difficulty) : Q :=
  match d with
  | easy => 0.8
  | medium => 1.0
  | hard => 1.3
  end.

(** [clamp(x, lo, hi)]. *)
Definition clamp (x lo hi : Q) : Q :=
  if Qltb x lo then lo else if Qltb hi x then hi else x.

(** The canonical formula, line by line as the specification writes it. *)
Definition canonicalPoints (difficulty : Difficulty)
    (maxTime timeRemaining : Q) (streak : Z) : Z :=
  let base := (100 * difficultyMultiplier difficulty)%Q in
  let speedRatio := clamp (timeRemaining / maxTime) 0 1 in
  let speedBonus := JS.Math_round (base * 0.5 * speedRatio) in
  let subtotal := (base + inject_Z speedBonus)%Q in
  let subtotal :=
    if 3 <=? streak then
      let streakBonus := Qmin (inject_Z streak / 10) 0.5 in
      inject_Z (JS.Math_round (subtotal * (1 + streakBonus)))
    else subtotal in
  JS.Math_round subtotal.

End Spec.

(* ===================================================================== *)
(** ** Scenarios: concrete runs of the server *)
(* ===================================================================== *)

Module Scenario.

(** A question whose answer is ["4"], numbered [n], of difficulty [d]. *)
Definition mkQuestion (n : nat) (d : string) : QuestionBank.Question :=
  {| QuestionBank.question := "q" +:+ JS.Number_toString (Z.of_nat n);
     QuestionBank.options := ["4"; "3"; "5"; "6"];
     QuestionBank.correctAnswer := "4";
     QuestionBank.explanation := "";
     QuestionBank.category := "arithmetic";
     QuestionBank.difficulty := d;
     QuestionBank.type := "multiple_choice";
     QuestionBank.id := None;
     QuestionBank.timeLimit := None |}.

(** Random inputs: the difficulty draw is always [r], and every call
    returns: the question drawn for slot [i] is [mkQuestion i] at the
    requested difficulty. *)
Definition oracle (r : Q) : QuestionBank.Oracle :=
  {| QuestionBank.difficultyDraw := fun _ => r;
     QuestionBank.getRandomQuestion := fun i _ _ d => Ok (mkQuestion i d) |}.

(** The settings of the end-to-end scenario: 3 questions of 10 seconds. *)
Definition three_questions : RoomManager.CustomSettings :=
  {| RoomManager.arg_maxPlayers := None;
     RoomManager.arg_questionTime := Some 10%Q;
     RoomManager.arg_totalQuestions := Some 3%nat;
     RoomManager.arg_difficultyLevel := None;
     RoomManager.arg_categories := None |}.

Definition room : string := "ABC123".
Definition host : string := "socket-h".
Definition guest : string := "socket-g".

(** The host creates the room, the guest joins, the host starts the game
    and the first-question timer fires. *)
Definition lobby (gameSettings : option RoomManager.CustomSettings)
    (r : Q) (first : string) : list Server.Event :=
  [ Server.create_room host room "Host" gameSettings;
    Server.join_room guest "Guest" room;
    Server.start_game 0 (oracle r) (Ok (mkQuestion 100 first)) host room;
    Server.timer_fires 3000 0 ].

(** Both players answer at the time [t]: the host with [a_host], the guest
    with [a_guest]; the between-round timer fires five seconds later. *)
Definition round (t : Z) (a_host a_guest : JS.Value) (timeRemaining : Q)
  : list Server.Event :=
  [ Server.submit_answer t host room a_host timeRemaining;
    Server.submit_answer (t + 1) guest room a_guest timeRemaining;
    Server.timer_fires (t + 5000) 0 ].

(** [n] rounds in which the host is right and the guest is wrong. *)
Fixpoint rounds (n : nat) (t : Z) : list Server.Event :=
  match n with
  | O => []
  | S n' => round t (JS.VStr "4") (JS.VStr "7") 5 ++ rounds n' (t + 10000)
  end.

Definition session_of (s : Server.State) : option GameLogic.GameSession :=
  Server.gameLogic s !! room.

Definition player_of (socketId : string) (s : Server.State)
  : option PlayerManager.Player :=
  Server.playerManager s !! socketId.

Definition is_game_finished (e : Server.Emit) : bool :=
  match e with
  | Server.to_room _ (Server.game_finished _) => true
  | _ => false
  end.

(** A session in its first round, as [initializeGame] with the default
    settings and [setCurrentQuestion] leave it, for the current question
    [q]. *)
Definition playing_session (q : QuestionBank.Question) : GameLogic.GameSession :=
  {| GameLogic.roomCode := Scenario.room;
     GameLogic.players :=
       [ {| ref_id := Scenario.host; ref_name := "Host" |};
         {| ref_id := Scenario.guest; ref_name := "Guest" |} ];
     GameLogic.settings :=
       {| GameLogic.totalQuestions := 10; GameLogic.questionTime := 30;
          GameLogic.difficultyLevel := "medium";
          GameLogic.categories := ["arithmetic"; "logic"; "geometry"] |};
     GameLogic.status := GameLogic.playing;
     GameLogic.currentQuestionIndex := 0;
     GameLogic.currentQuestion := Some q;
     GameLogic.questions := [];
     GameLogic.currentRoundAnswers := [];
     GameLogic.allAnswersReceived := false;
     GameLogic.playerScores := [(Scenario.host, 0); (Scenario.guest, 0)];
     GameLogic.roundResults := [];
     GameLogic.gameStartedAt := None;
     GameLogic.questionStartedAt := Some 0;
     GameLogic.gameStats :=
       {| GameLogic.totalQuestionsAnswered := 0;
          GameLogic.fastestResponse := None;
          GameLogic.slowestResponse := None |} |}.

Definition playing_store (q : QuestionBank.Question) : gmap string GameLogic.GameSession :=
  {[ Scenario.room := playing_session q ]}.

(** The payloads of the [game-finished] messages emitted so far. *)
Definition finished_results (s : Server.State) : list GameLogic.FinalResults :=
  omap (fun e => match e with
                 | Server.to_room _ (Server.game_finished r) => Some r
                 | _ => None
                 end) (Server.emitted s).

(** The end-to-end scenario: a game created for 3 questions of 10 seconds,
    after the lobby, after 3 rounds and after 10 rounds. *)
Definition e2e_lobby : Server.State :=
  Server.run (lobby (Some three_questions) 0.5 "medium") Server.initial.
Definition e2e_after_3 : Server.State := Server.run (rounds 3 4000) e2e_lobby.
Definition e2e_after_10 : Server.State := Server.run (rounds 7 34000) e2e_after_3.

(** A round is complete and its timer is pending when both players leave:
    the guest first, then the host, which closes the room. *)
Definition abandoned : Server.State :=
  Server.run
    (lobby None 0.5 "medium" ++
     [ Server.submit_answer 4000 host room (JS.VStr "4") 20;
       Server.submit_answer 4001 guest room (JS.VStr "4") 20;
       Server.disconnect guest;
       Server.disconnect host ])
    Server.initial.

(** A room created with [maxPlayers: 2.5], which the host and three more
    players try to enter. *)
Definition capacity_2_5 : RoomManager.CustomSettings :=
  {| RoomManager.arg_maxPlayers := Some (JS.finite 2.5);
     RoomManager.arg_questionTime := None;
     RoomManager.arg_totalQuestions := None;
     RoomManager.arg_difficultyLevel := None;
     RoomManager.arg_categories := None |}.

Definition crowded : Server.State :=
  Server.run
    [ Server.create_room host room "Host" (Some capacity_2_5);
      Server.join_room guest "Guest" room;
      Server.join_room "socket-3" "Third" room;
      Server.join_room "socket-4" "Fourth" room ]
    Server.initial.

End Scenario.

(* ===================================================================== *)
(** ** Properties of the states that the server can reach *)
(* ===================================================================== *)

Module Reachable.

(** A stored player: it is stored under its own identity; it has no wrong
    answer counted, and its streak, its best streak, its correct answers and
    its questions are one and the same count. *)
Definition player_ok (key : string) (p : PlayerManager.Player) : Prop :=
  PlayerManager.id p = key /\
  PlayerManager.wrongAnswers p = 0 /\
  0 <= PlayerManager.streak p /\
  PlayerManager.bestStreak p = PlayerManager.streak p /\
  PlayerManager.correctAnswers p = PlayerManager.streak p /\
  PlayerManager.totalQuestions (PlayerManager.gameStats p) = PlayerManager.streak p.

Definition players_ok (players : PlayerManager.Store) : Prop :=
  forall key p, players !! key = Some p -> player_ok key p.

(** A stored room: it is stored under its own code; its roster has no
    identity twice and is within the capacity; the capacity is the one of
    its settings; its status is [waiting]. *)
Definition stored_room_ok (key : string) (r : RoomManager.Room) : Prop :=
  RoomManager.code r = key /\
  RoomManager.room_ok r /\
  RoomManager.maxPlayers r = RoomManager.settings_maxPlayers (RoomManager.settings r) /\
  RoomManager.status r = RoomManager.waiting.

Definition rooms_ok (rooms : RoomManager.Store) : Prop :=
  forall key r, rooms !! key = Some r -> stored_room_ok key r.

(** A stored session: it is stored under its own room code; its settings
    are the defaults and it has 10 questions; its start time is not set;
    while it is playing it has a current question. *)
Definition session_ok (key : string) (x : GameLogic.GameSession) : Prop :=
  GameLogic.roomCode x = key /\
  GameLogic.totalQuestions (GameLogic.settings x) = 10%nat /\
  GameLogic.questionTime (GameLogic.settings x) = 30%Q /\
  GameLogic.difficultyLevel (GameLogic.settings x) = "medium" /\
  length (GameLogic.questions x) = 10%nat /\
  GameLogic.gameStartedAt x = None /\
  (GameLogic.status x = GameLogic.playing -> is_Some (GameLogic.currentQuestion x)).

Definition sessions_ok (sessions : GameLogic.Store) : Prop :=
  forall key x, sessions !! key = Some x -> session_ok key x.

Definition state_ok (s : Server.State) : Prop :=
  players_ok (Server.playerManager s) /\
  rooms_ok (Server.roomManager s) /\
  sessions_ok (Server.gameLogic s).

End Reachable.

(* ===================================================================== *)
(** ** Facts about the primitives *)
(* ===================================================================== *)

Lemma Math_round_proper (x y : Q) : (x == y)%Q -> JS.Math_round x = JS.Math_round y.
Proof.
  intros H. unfold JS.Math_round. apply Qfloor_comp. now rewrite H.
Qed.

Lemma Qltb_false (x y : Q) : (y <= x)%Q -> Qltb x y = false.
Proof.
  intros H. unfold Qltb. apply Qle_bool_iff in H. now rewrite H.
Qed.

Lemma Qltb_true (x y : Q) : (x < y)%Q -> Qltb x y = true.
Proof.
  intros H. unfold Qltb. destruct (Qle_bool y x) eqn:E; [|reflexivity].
  apply Qle_bool_iff in E. exfalso. apply (Qlt_not_le _ _ H E).
Qed.

Lemma ratio_in_unit (t m : Q) :
  (0 < m)%Q -> (0 <= t)%Q -> (t <= m)%Q -> (0 <= t / m)%Q /\ (t / m <= 1)%Q.
Proof.
  intros Hm H0 H1. split.
  - apply Qle_shift_div_l; [exact Hm|]. now rewrite Qmult_0_l.
  - apply Qle_shift_div_r; [exact Hm|]. now rewrite Qmult_1_l.
Qed.


Lemma Math_round_Z (n : Z) : JS.Math_round (inject_Z n) = n.
Proof.
  unfold JS.Math_round, Qfloor, Qplus, inject_Z. simpl.
  rewrite Z.mul_1_r. change (Z.pos (1 * 2)) with 2.
  symmetry. apply Z.div_unique with (r := 1); lia.
Qed.

Lemma Math_round_mono (x y : Q) : (x <= y)%Q -> JS.Math_round x <= JS.Math_round y.
Proof.
  intros H. unfold JS.Math_round. apply Qfloor_resp_le.
  now apply Qplus_le_l.
Qed.

(** ** Rounding to the nearest double *)

Section DoubleFacts.
Local Open Scope Q_scope.

Lemma pow2_pos (e : Z) : 0 < 2 ^ e.
Proof. apply Qpower_0_lt. reflexivity. Qed.

Lemma pow2_le (a b : Z) : (a <= b)%Z -> 2 ^ a <= 2 ^ b.
Proof. intros H. apply Qpower_le_compat_l; [exact H|discriminate]. Qed.

Lemma pow2_lt_inv (a b : Z) : 2 ^ a < 2 ^ b -> (a < b)%Z.
Proof. intros H. apply (Qpower_lt_compat_l_inv 2); [exact H|reflexivity]. Qed.

Lemma pow2_add (a b : Z) : 2 ^ (a + b) == 2 ^ a * 2 ^ b.
Proof. apply Qpower_plus. discriminate. Qed.

Lemma pow2_Z (k : Z) : (0 <= k)%Z -> 2 ^ k == inject_Z (2 ^ k).
Proof. intros H. symmetry. apply (Zpower_Qpower 2 k H). Qed.


(** [Qlog2 x] is the integer part of the binary logarithm. *)
Lemma Qlog2_spec (x : Q) :
  0 < x -> 2 ^ JS.Qlog2 x <= x /\ x < 2 ^ (JS.Qlog2 x + 1).
Proof.
  intros Hx. unfold JS.Qlog2.
  destruct x as [n d]. cbn [Qnum Qden].
  assert (Hn : (0 < n)%Z) by (unfold Qlt in Hx; cbn in Hx; lia).
  destruct (Z.log2_spec n Hn) as [Hn1 Hn2].
  destruct (Z.log2_spec (Z.pos d) (Pos2Z.is_pos d)) as [Hd1 Hd2].
  set (ln := Z.log2 n) in *. set (ld := Z.log2 (Z.pos d)) in *.
  assert (Hln : (0 <= ln)%Z) by apply Z.log2_nonneg.
  assert (Hld : (0 <= ld)%Z) by apply Z.log2_nonneg.
  assert (Hq : n # d == inject_Z n / inject_Z (Z.pos d)) by apply Qmake_Qdiv.
  assert (Hdpos : 0 < inject_Z (Z.pos d)) by reflexivity.
  assert (Hup : n # d < 2 ^ (ln - ld + 1)).
  { rewrite Hq. apply Qlt_shift_div_r; [exact Hdpos|].
    apply Qlt_le_trans with (2 ^ (ln - ld + 1) * 2 ^ ld).
    - rewrite <- pow2_add. replace (ln - ld + 1 + ld)%Z with (ln + 1)%Z by lia.
      rewrite pow2_Z by lia. rewrite <- Zlt_Qlt. exact Hn2.
    - apply Qmult_le_l; [apply pow2_pos|].
      rewrite pow2_Z by lia. rewrite <- Zle_Qle. exact Hd1. }
  assert (Hlow : 2 ^ (ln - ld - 1) <= n # d).
  { rewrite Hq. apply Qle_shift_div_l; [exact Hdpos|].
    apply Qle_trans with (2 ^ (ln - ld - 1) * 2 ^ (ld + 1)).
    - apply Qmult_le_l; [apply pow2_pos|].
      rewrite pow2_Z by lia. rewrite <- Zle_Qle. lia.
    - rewrite <- pow2_add. replace (ln - ld - 1 + (ld + 1))%Z with ln by lia.
      rewrite pow2_Z by lia. rewrite <- Zle_Qle. exact Hn1. }
  destruct (Qle_bool (2 ^ (ln - ld)) (n # d)) eqn:E.
  - apply Qle_bool_iff in E. split; [exact E|exact Hup].
  - split; [exact Hlow|].
    replace (ln - ld - 1 + 1)%Z with (ln - ld)%Z by lia.
    apply Qnot_le_lt. intros H. apply Qle_bool_iff in H. congruence.
Qed.

Lemma Qlog2_le (x : Q) (k : Z) : 0 < x -> x < 2 ^ (k + 1) -> (JS.Qlog2 x <= k)%Z.
Proof.
  intros Hx Hk. destruct (Qlog2_spec x Hx) as [H1 _].
  assert (H : 2 ^ JS.Qlog2 x < 2 ^ (k + 1)) by (eapply Qle_lt_trans; eassumption).
  apply pow2_lt_inv in H. lia.
Qed.

Lemma Qlog2_ge (x : Q) (k : Z) : 0 < x -> 2 ^ k <= x -> (k <= JS.Qlog2 x)%Z.
Proof.
  intros Hx Hk. destruct (Qlog2_spec x Hx) as [_ H2].
  assert (H : 2 ^ k < 2 ^ (JS.Qlog2 x + 1)) by (eapply Qle_lt_trans; eassumption).
  apply pow2_lt_inv in H. lia.
Qed.

Lemma Qlog2_mono (x y : Q) : 0 < x -> x <= y -> (JS.Qlog2 x <= JS.Qlog2 y)%Z.
Proof.
  intros Hx Hxy. apply Qlog2_ge; [eapply Qlt_le_trans; eassumption|].
  eapply Qle_trans; [|exact Hxy]. now apply Qlog2_spec.
Qed.

Lemma Qlog2_eq (x y : Q) : x == y -> 0 < x -> JS.Qlog2 x = JS.Qlog2 y.
Proof.
  intros E Hx.
  assert (Hy : 0 < y) by now rewrite <- E.
  apply Z.le_antisymm; apply Qlog2_mono; try assumption; rewrite E; apply Qle_refl.
Qed.

(** Rounding to the nearest integer. *)
Lemma nearest_even_cases (x : Q) :
  let f := Qfloor x in
  (JS.nearest_even x = f /\ x - inject_Z f <= 1 # 2) \/
  (JS.nearest_even x = (f + 1)%Z /\ 1 # 2 <= x - inject_Z f).
Proof.
  cbv zeta. unfold JS.nearest_even.
  destruct (Qcompare_spec (x - inject_Z (Qfloor x)) (1 # 2)) as [E|E|E].
  - destruct (Z.even (Qfloor x)); [left|right]; (split; [reflexivity|]);
      rewrite E; apply Qle_refl.
  - left. split; [reflexivity|now apply Qlt_le_weak].
  - right. split; [reflexivity|now apply Qlt_le_weak].
Qed.


Global Instance nearest_even_proper : Proper (Qeq ==> eq) JS.nearest_even.
Proof.
  intros x y E. unfold JS.nearest_even.
  rewrite (Qfloor_comp _ _ E).
  assert (E' : x - inject_Z (Qfloor y) == y - inject_Z (Qfloor y)) by now rewrite E.
  now rewrite (Qcompare_comp _ _ E' _ _ (Qeq_refl (1 # 2))).
Qed.

Lemma nearest_even_Z (z : Z) : JS.nearest_even (inject_Z z) = z.
Proof.
  unfold JS.nearest_even. rewrite Qfloor_Z.
  assert (E : inject_Z z - inject_Z z == 0) by ring.
  now rewrite (Qcompare_comp _ _ E _ _ (Qeq_refl (1 # 2))).
Qed.

Lemma nearest_even_mono (x y : Q) :
  x <= y -> (JS.nearest_even x <= JS.nearest_even y)%Z.
Proof.
  intros Hxy.
  pose proof (Qfloor_resp_le _ _ Hxy) as Hf.
  destruct (Z.eq_dec (Qfloor x) (Qfloor y)) as [E|NE].
  - unfold JS.nearest_even. rewrite E.
    assert (Hd : x - inject_Z (Qfloor y) <= y - inject_Z (Qfloor y)) by lra.
    destruct (Qcompare_spec (x - inject_Z (Qfloor y)) (1 # 2)) as [E1|E1|E1];
      destruct (Qcompare_spec (y - inject_Z (Qfloor y)) (1 # 2)) as [E2|E2|E2];
      try lia; try (destruct (Z.even (Qfloor y)); lia); exfalso; lra.
  - destruct (nearest_even_cases x) as [[-> _]|[-> _]];
      destruct (nearest_even_cases y) as [[-> _]|[-> _]]; lia.
Qed.

Global Instance round_at_proper (e : Z) : Proper (Qeq ==> Qeq) (JS.round_at e).
Proof. intros x y E. unfold JS.round_at. now rewrite E. Qed.

Lemma round_at_mono (e : Z) (x y : Q) : x <= y -> JS.round_at e x <= JS.round_at e y.
Proof.
  intros H. unfold JS.round_at. pose proof (pow2_pos e) as P.
  apply Qmult_le_compat_r; [|now apply Qlt_le_weak].
  rewrite <- Zle_Qle. apply nearest_even_mono.
  apply Qmult_le_compat_r; [exact H|].
  apply Qlt_le_weak, Qinv_lt_0_compat, P.
Qed.

Lemma round_at_exact (e m : Z) : JS.round_at e (inject_Z m * 2 ^ e) == inject_Z m * 2 ^ e.
Proof.
  unfold JS.round_at. pose proof (pow2_pos e) as P.
  assert (E : inject_Z m * 2 ^ e / 2 ^ e == inject_Z m) by (field; lra).
  now rewrite E, nearest_even_Z.
Qed.


Lemma double_unfold (x : Q) : ~ x == 0 -> JS.double x = JS.round_at (JS.exponent x) x.
Proof.
  intros H. unfold JS.double.
  destruct (Qeq_bool x 0) eqn:E; [apply Qeq_bool_iff in E; contradiction|reflexivity].
Qed.

Lemma double_0 (x : Q) : x == 0 -> JS.double x = 0.
Proof. intros H. unfold JS.double. now rewrite (proj2 (Qeq_bool_iff x 0) H). Qed.

Lemma exponent_pos (x : Q) :
  0 < x -> JS.exponent x = Z.max (-1074) (JS.Qlog2 x - 52).
Proof.
  intros Hx. unfold JS.exponent.
  assert (E : Qabs x == x) by (apply Qabs_pos; lra).
  rewrite (Qlog2_eq (Qabs x) x E); [reflexivity|]. rewrite E. exact Hx.
Qed.

Lemma exponent_mono (x y : Q) : 0 < x -> x <= y -> (JS.exponent x <= JS.exponent y)%Z.
Proof.
  intros Hx Hxy.
  assert (Hy : 0 < y) by (eapply Qlt_le_trans; eassumption).
  rewrite (exponent_pos x Hx), (exponent_pos y Hy).
  pose proof (Qlog2_mono x y Hx Hxy). lia.
Qed.

Lemma double_nonneg (x : Q) : 0 <= x -> 0 <= JS.double x.
Proof.
  intros Hx. destruct (Qeq_dec x 0) as [E|NE]; [rewrite double_0 by exact E; lra|].
  rewrite double_unfold by exact NE.
  assert (H0 : JS.round_at (JS.exponent x) 0 == 0).
  { unfold JS.round_at.
    assert (E : 0 / 2 ^ JS.exponent x == inject_Z 0) by (unfold Qdiv; ring).
    rewrite E, nearest_even_Z. ring. }
  rewrite <- H0. now apply round_at_mono.
Qed.

(** Rounding to a double is monotone (on the numbers that are not
    negative, which is where the sources round). *)
Lemma double_mono (x y : Q) : 0 <= x -> x <= y -> JS.double x <= JS.double y.
Proof.
  intros Hx Hxy.
  destruct (Qeq_dec x 0) as [E|NE].
  { rewrite (double_0 x E). apply double_nonneg. lra. }
  assert (Hx' : 0 < x) by (destruct (Qle_lt_or_eq _ _ Hx) as [H|H]; [exact H|];
                           exfalso; apply NE; now symmetry).
  assert (Hy' : 0 < y) by lra.
  assert (NEy : ~ y == 0) by lra.
  rewrite (double_unfold x NE), (double_unfold y NEy).
  pose proof (exponent_mono x y Hx' Hxy) as He.
  destruct (Z.eq_dec (JS.exponent x) (JS.exponent y)) as [Ee|Ne].
  - rewrite Ee. now apply round_at_mono.
  - assert (Hlt : (JS.exponent x < JS.exponent y)%Z) by lia.
    set (ex := JS.exponent x) in *. set (ey := JS.exponent y) in *.
    set (L := JS.Qlog2 y).
    assert (HL : ey = (L - 52)%Z /\ (-1074 <= ex)%Z /\ (JS.Qlog2 x - 52 <= ex)%Z).
    { subst ex ey L. rewrite (exponent_pos x Hx'), (exponent_pos y Hy') in *. lia. }
    destruct HL as (Hey & Hex1 & Hex2).
    destruct (Qlog2_spec x Hx') as [_ Hxu]. destruct (Qlog2_spec y Hy') as [Hyl _].
    fold L in Hyl.
    assert (HxB : x <= 2 ^ L).
    { apply Qlt_le_weak. eapply Qlt_le_trans; [exact Hxu|]. apply pow2_le. lia. }
    assert (HBx : 2 ^ L == inject_Z (2 ^ (L - ex)) * 2 ^ ex).
    { rewrite <- pow2_Z by lia. rewrite <- pow2_add. now replace (L - ex + ex)%Z with L by lia. }
    assert (HBy : 2 ^ L == inject_Z (2 ^ 52) * 2 ^ ey).
    { rewrite <- pow2_Z by lia. rewrite <- pow2_add. now replace (52 + ey)%Z with L by lia. }
    apply Qle_trans with (2 ^ L).
    + apply Qle_trans with (JS.round_at ex (2 ^ L)); [now apply round_at_mono|].
      rewrite HBx, round_at_exact. apply Qle_refl.
    + apply Qle_trans with (JS.round_at ey (2 ^ L)); [|now apply round_at_mono].
      rewrite HBy, round_at_exact. apply Qle_refl.
Qed.

Global Instance double_proper : Proper (Qeq ==> Qeq) JS.double.
Proof.
  intros x y E.
  destruct (Qeq_dec x 0) as [E0|NE].
  - rewrite (double_0 x E0), (double_0 y) by (now rewrite <- E). reflexivity.
  - assert (NEy : ~ y == 0) by now rewrite <- E.
    rewrite (double_unfold x NE), (double_unfold y NEy).
    assert (Ee : JS.exponent x = JS.exponent y).
    { unfold JS.exponent.
      assert (Ea : Qabs x == Qabs y) by now rewrite E.
      assert (Hp : 0 < Qabs x).
      { destruct (Qle_lt_or_eq _ _ (Qabs_nonneg x)) as [H|H]; [exact H|].
        exfalso. apply NE. symmetry in H. revert H. apply Qabs_case; intros; lra. }
      now rewrite (Qlog2_eq _ _ Ea Hp). }
    rewrite Ee. unfold JS.round_at. now rewrite E.
Qed.

(** An integer below [2 ^ 53] is a double. *)
Lemma double_Z (n : Z) : (0 <= n < 2 ^ 53)%Z -> JS.double (inject_Z n) == inject_Z n.
Proof.
  intros [H0 H1].
  destruct (Z.eq_dec n 0%Z) as [->|NE]; [now rewrite double_0|].
  assert (Hpos : 0 < inject_Z n) by (change 0 with (inject_Z 0); rewrite <- Zlt_Qlt; lia).
  rewrite double_unfold by lra.
  assert (He : (-1074 <= JS.exponent (inject_Z n) <= 0)%Z).
  { rewrite (exponent_pos _ Hpos).
    assert (JS.Qlog2 (inject_Z n) <= 52)%Z; [|lia].
    apply Qlog2_le; [exact Hpos|]. rewrite pow2_Z by lia. now rewrite <- Zlt_Qlt. }
  set (e := JS.exponent (inject_Z n)) in *.
  assert (E : inject_Z n == inject_Z (n * 2 ^ (- e)) * 2 ^ e).
  { rewrite inject_Z_mult, <- pow2_Z by lia.
    rewrite <- Qmult_assoc, <- pow2_add. replace (- e + e)%Z with 0%Z by lia.
    change (2 ^ 0) with 1. ring. }
  rewrite E at 1. rewrite round_at_exact. now rewrite <- E.
Qed.


Global Instance mul_proper : Proper (Qeq ==> Qeq ==> Qeq) JS.mul.
Proof. intros x x' Ex y y' Ey. unfold JS.mul. now rewrite Ex, Ey. Qed.

Global Instance div_proper : Proper (Qeq ==> Qeq ==> Qeq) JS.div.
Proof. intros x x' Ex y y' Ey. unfold JS.div. now rewrite Ex, Ey. Qed.

Global Instance add_proper : Proper (Qeq ==> Qeq ==> Qeq) JS.add.
Proof. intros x x' Ex y y' Ey. unfold JS.add. now rewrite Ex, Ey. Qed.

Global Instance Math_round_Qeq : Proper (Qeq ==> eq) JS.Math_round.
Proof. intros x y E. now apply Math_round_proper. Qed.

(** A quotient inside the window [0 .. 1] stays inside it. *)
Lemma div_in_unit (t m : Q) :
  0 < m -> 0 <= t -> t <= m -> 0 <= JS.div t m /\ JS.div t m <= 1.
Proof.
  intros Hm H0 H1. destruct (ratio_in_unit t m Hm H0 H1) as [Ha Hb].
  unfold JS.div. split; [now apply double_nonneg|].
  rewrite <- (double_Z 1) by lia. now apply double_mono.
Qed.

End DoubleFacts.

Section MapFacts.
Context {V : Type}.
Implicit Types (m : JS.Map V) (k : string) (v : V).

Lemma Map_get_set_eq m k v : JS.Map_get k (JS.Map_set k v m) = Some v.
Proof.
  induction m as [|[k' v'] m IH]; simpl.
  - now rewrite bool_decide_eq_true_2.
  - destruct (bool_decide (k' = k)) eqn:E; simpl; rewrite E; [reflexivity|exact IH].
Qed.

Lemma Map_has_get m k : JS.Map_has k m = true <-> is_Some (JS.Map_get k m).
Proof.
  unfold JS.Map_has. destruct (JS.Map_get k m); split; intros H; try done.
Qed.

Lemma Map_size_set_fresh m k v :
  JS.Map_has k m = false -> JS.Map_size (JS.Map_set k v m) = S (JS.Map_size m).
Proof.
  unfold JS.Map_has, JS.Map_size.
  induction m as [|[k' v'] m IH]; simpl; [reflexivity|].
  destruct (bool_decide (k' = k)) eqn:E; simpl; [discriminate|].
  intros H. now rewrite IH.
Qed.
End MapFacts.

(** The base points of a difficulty and their half, as the scoring
    functions compute them, are whole numbers: 80 and 40 for easy, 100 and
    50 for medium and for a name outside the table, 130 and 65 for hard. *)
Lemma base_points_cases (difficulty : string) :
  let points :=
    JS.mul 100 (default (JS.lit 1.0) (PlayerManager.difficultyMultipliers difficulty)) in
  exists b h : Z,
    (points == inject_Z b)%Q /\ (JS.mul points (JS.lit 0.5) == inject_Z h)%Q /\
    (b = 80 /\ h = 40 \/ b = 100 /\ h = 50 \/ b = 130 /\ h = 65) /\
    JS.Math_round
      (100 * default 1.0%Q (PlayerManager.difficultyMultipliers difficulty)) = b.
Proof.
  cbv zeta. unfold PlayerManager.difficultyMultipliers.
  destruct (bool_decide (difficulty = "easy"));
    [exists 80, 40; repeat split; try (vm_compute; reflexivity); auto|].
  destruct (bool_decide (difficulty = "medium"));
    [exists 100, 50; repeat split; try (vm_compute; reflexivity); auto|].
  destruct (bool_decide (difficulty = "hard"));
    [exists 130, 65; repeat split; try (vm_compute; reflexivity); auto 6|].
  exists 100, 50; repeat split; try (vm_compute; reflexivity); auto.
Qed.


(** Inside the time window the live scoring function returns the base
    points plus a bonus between 0 and their half: the rounded product, in
    doubles, of the half and the quotient. *)
Lemma calculateQuestionPoints_in_window (timeRemaining maxTime : Q)
    (responseTime : Z) (difficulty : string) (b h : Z) :
  (0 < maxTime)%Q -> (0 <= timeRemaining)%Q -> (timeRemaining <= maxTime)%Q ->
  (JS.mul 100 (default (JS.lit 1.0) (PlayerManager.difficultyMultipliers difficulty))
   == inject_Z b)%Q ->
  (JS.mul (JS.mul 100 (default (JS.lit 1.0)
                         (PlayerManager.difficultyMultipliers difficulty)))
          (JS.lit 0.5) == inject_Z h)%Q ->
  0 <= h <= 65 -> 0 <= b <= 130 ->
  let bonus :=
    JS.Math_round (JS.mul (inject_Z h) (JS.div timeRemaining maxTime)) in
  GameLogic.calculateQuestionPoints timeRemaining maxTime responseTime difficulty
  = b + bonus /\ 0 <= bonus <= h.
Proof.
  intros Hm H0 H1 Hb Hh Hhr Hbr bonus.
  destruct (div_in_unit _ _ Hm H0 H1) as [Ha Hc].
  assert (HQ : (0 <= inject_Z h)%Q)
    by (change 0%Q with (inject_Z 0); rewrite <- Zle_Qle; lia).
  assert (Hbonus : 0 <= bonus <= h).
  { subst bonus. unfold JS.mul. split.
    - rewrite <- (Math_round_Z 0). apply Math_round_mono.
      apply double_nonneg. now apply Qmult_le_0_compat.
    - rewrite <- (Math_round_Z h) at 2. apply Math_round_mono.
      apply Qle_trans with (JS.double (inject_Z h));
        [|rewrite double_Z by lia; apply Qle_refl].
      apply double_mono; [now apply Qmult_le_0_compat|nra]. }
  split; [|exact Hbonus].
  unfold GameLogic.calculateQuestionPoints. cbv zeta.
  rewrite Hh. fold bonus. rewrite Hb.
  unfold JS.add. rewrite <- inject_Z_plus, double_Z by lia.
  apply Math_round_Z.
Qed.





(** The double arithmetic shows: with 29 of 100 seconds left on a medium
    question the product [50 * 0.29] is 14.499999999999998 in doubles, and
    the function returns 114 where the exact formula gives 115. *)
Lemma calculateQuestionPoints_below_the_exact_formula :
  GameLogic.calculateQuestionPoints 29 100 0 "medium" = 114 /\
  Spec.canonicalPoints Spec.medium 100 29 0 = 115.
Proof. split; vm_compute; reflexivity. Qed.

(** What an accepted answer records. *)
Lemma processAnswer_Ok now roomCode playerId answer timeRemaining
    (gs gs' : GameLogic.Store) r :
  GameLogic.processAnswer now roomCode playerId answer timeRemaining gs = (Ok r, gs') ->
  exists session q session' a,
    gs !! roomCode = Some session /\
    GameLogic.status session = GameLogic.playing /\
    JS.Map_has playerId (GameLogic.currentRoundAnswers session) = false /\
    GameLogic.currentQuestion session = Some q /\
    gs' = <[roomCode := session']> gs /\
    GameLogic.players session' = GameLogic.players session /\
    GameLogic.currentRoundAnswers session'
      = JS.Map_set playerId a (GameLogic.currentRoundAnswers session) /\
    GameLogic.playerScores session'
      = JS.Map_set playerId
          (default 0 (JS.Map_get playerId (GameLogic.playerScores session))
           + GameLogic.res_pointsEarned r)
          (GameLogic.playerScores session) /\
    GameLogic.allAnswersReceived session' = GameLogic.res_allAnswersReceived r /\
    GameLogic.res_allAnswersReceived r
      = bool_decide (length (GameLogic.players session)
                     <= JS.Map_size (GameLogic.currentRoundAnswers session'))%nat /\
    GameLogic.pointsEarned a = GameLogic.res_pointsEarned r /\
    GameLogic.isCorrect a = GameLogic.res_isCorrect r /\
    GameLogic.answer a = answer /\
    GameLogic.res_isCorrect r = GameLogic.checkAnswer q answer /\
    GameLogic.res_pointsEarned r
      = (if GameLogic.checkAnswer q answer
         then GameLogic.calculateQuestionPoints timeRemaining
                (GameLogic.questionTime (GameLogic.settings session))
                (GameLogic.calculateResponseTime now
                   (GameLogic.questionStartedAt session))
                (QuestionBank.difficulty q)
         else 0).
Proof.
  unfold GameLogic.processAnswer, GameLogic.getGameSession.
  destruct (gs !! roomCode) as [session|] eqn:Hs; [|discriminate].
  destruct (bool_decide (GameLogic.status session = GameLogic.playing)) eqn:Hst;
    simpl; [|discriminate].
  destruct (JS.Map_has playerId (GameLogic.currentRoundAnswers session)) eqn:Hh;
    [discriminate|].
  destruct (GameLogic.currentQuestion session) as [q|] eqn:Hq; [|discriminate].
  intros H. injection H as <- <-.
  apply bool_decide_eq_true_1 in Hst.
  eexists session, q, _, _. simpl.
  repeat (split; [try reflexivity; try assumption|]); reflexivity.
Qed.

(* ===================================================================== *)
(** ** C1: the points recorded by [processAnswer] *)
(* ===================================================================== *)




(* ===================================================================== *)
(** ** C4: the two scoring functions *)
(* ===================================================================== *)

(** C4, as stated, fails: on a hard question answered with all of the 30
    seconds left and no streak, [PlayerManager.calculatePoints] gives
    130 + 50 = 180 and [GameLogic.calculateQuestionPoints] gives
    130 + 65 = 195. *)
Lemma C4_counterexample :
  ~ (forall (difficulty : string) (maxTime timeRemaining : Q)
            (streak responseTime : Z),
        (0 < maxTime)%Q -> (0 <= timeRemaining)%Q -> (timeRemaining <= maxTime)%Q ->
        PlayerManager.calculatePoints timeRemaining maxTime streak difficulty
        = GameLogic.calculateQuestionPoints timeRemaining maxTime responseTime
            difficulty).
Proof.
  intros H.
  assert (E : PlayerManager.calculatePoints 30 30 0 "hard"
              = GameLogic.calculateQuestionPoints 30 30 0 "hard").
  { apply H; vm_compute; (reflexivity || discriminate). }
  vm_compute in E. discriminate.
Qed.

(** C4, amended: the two functions return the same number of points for
    every [maxTime > 0], every [timeRemaining >= 0] (so in particular for
    [0 <= timeRemaining <= maxTime]) and every response time, when the
    difficulty has the multiplier 1.0 (medium, or a name outside the table)
    and the streak is below 3. *)
Theorem C4_scoring_functions_agree_at_multiplier_one
    (difficulty : string) (maxTime timeRemaining : Q) (streak responseTime : Z) :
  difficulty <> "easy" -> difficulty <> "hard" -> streak < 3 ->
  (0 < maxTime)%Q -> (0 <= timeRemaining)%Q ->
  PlayerManager.calculatePoints timeRemaining maxTime streak difficulty
  = GameLogic.calculateQuestionPoints timeRemaining maxTime responseTime difficulty.
Proof.
  intros He Hh Hs Hm Ht.
  assert (Hmul : default (JS.lit 1.0) (PlayerManager.difficultyMultipliers difficulty)
                 = JS.lit 1.0).
  { unfold PlayerManager.difficultyMultipliers.
    rewrite (bool_decide_eq_false_2 _ He), (bool_decide_eq_false_2 _ Hh).
    destruct (bool_decide (difficulty = "medium")); reflexivity. }
  unfold PlayerManager.calculatePoints, GameLogic.calculateQuestionPoints.
  rewrite Hmul.
  destruct (3 <=? streak) eqn:E; [apply Z.leb_le in E; lia|].
  rewrite (Qltb_true 0 maxTime Hm), andb_true_r.
  unfold PlayerManager.scoringConfig_correctAnswer, PlayerManager.scoringConfig_timeBonus.
  assert (E100 : (JS.mul 100 (JS.lit 1.0) == 100)%Q) by (vm_compute; reflexivity).
  assert (E50 : (JS.mul (JS.mul 100 (JS.lit 1.0)) (JS.lit 0.5) == 50)%Q)
    by (vm_compute; reflexivity).
  rewrite E50.
  destruct (Qle_lt_or_eq _ _ Ht) as [Hpos|Hzero].
  - rewrite (Qltb_true 0 timeRemaining Hpos). reflexivity.
  - rewrite (Qltb_false 0 timeRemaining) by (rewrite <- Hzero; apply Qle_refl).
    assert (Ediv : (JS.div timeRemaining maxTime == 0)%Q).
    { unfold JS.div. rewrite double_0; [reflexivity|].
      rewrite <- Hzero. unfold Qdiv. ring. }
    rewrite Ediv.
    assert (E0 : JS.Math_round (JS.mul 50 0) = 0) by (vm_compute; reflexivity).
    rewrite E0, E100. vm_compute; reflexivity.
Qed.

(** The theorem at a medium question, 30 seconds allowed, 15 left, streak 2:
    both functions give 125. *)
Lemma C4_scoring_functions_agree_witness :
  PlayerManager.calculatePoints 15 30 2 "medium"
  = GameLogic.calculateQuestionPoints 15 30 7000 "medium".
Proof.
  apply (C4_scoring_functions_agree_at_multiplier_one "medium" 30 15 2 7000).
  - discriminate.
  - discriminate.
  - lia.
  - reflexivity.
  - vm_compute; discriminate.
Defined.

(* ===================================================================== *)
(** ** C7: the correctness check of the live path *)
(* ===================================================================== *)

(** A string answer is compared after lower-casing and trimming. *)
Lemma checkAnswer_string (q : QuestionBank.Question) (s : string) :
  GameLogic.checkAnswer q (JS.VStr s)
  = bool_decide (JS.trim (JS.toLowerCase s)
                 = JS.trim (JS.toLowerCase (QuestionBank.correctAnswer q))).
Proof.
  unfold GameLogic.checkAnswer, JS.strict_eq. simpl.
  apply bool_decide_ext. split; [intros [= ->]; reflexivity | intros ->; reflexivity].
Qed.

(** A numeric answer is never equal to the stored answer string. *)
Lemma checkAnswer_number (q : QuestionBank.Question) (n : Z) :
  GameLogic.checkAnswer q (JS.VNum n) = false.
Proof. reflexivity. Qed.

(** C7: [checkAnswer] judges the number 38 wrong on the question whose
    stored answer is ["38"], although the decimal form of 38 is that string
    and [QuestionBank.validateAnswer] accepts it; the string ["38"], also
    with surrounding blanks, is accepted. *)
Theorem C7_numeric_answer_rejected :
  let q := {| QuestionBank.question := "¿Cuánto es 15 + 23?";
              QuestionBank.options := ["38"; "37"; "39"; "36"];
              QuestionBank.correctAnswer := "38";
              QuestionBank.explanation := "15 + 23 = 38.";
              QuestionBank.category := "arithmetic";
              QuestionBank.difficulty := "easy";
              QuestionBank.type := "multiple_choice";
              QuestionBank.id := None;
              QuestionBank.timeLimit := None |} in
  JS.Number_toString 38 = QuestionBank.correctAnswer q /\
  GameLogic.checkAnswer q (JS.VNum 38) = false /\
  QuestionBank.validateAnswer q (JS.VNum 38) = true /\
  GameLogic.checkAnswer q (JS.VStr " 38 ") = true.
Proof. cbv zeta. repeat split; vm_compute; reflexivity. Qed.

(* ===================================================================== *)
(** ** C9: one answer per player and round *)
(* ===================================================================== *)

(** C9: when the player already has an answer recorded in the current round
    of the session, [processAnswer] throws, and the store it leaves is the
    store it was given: the recorded answer, the answers of the round and
    the scores are those of before. *)
Theorem C9_second_answer_rejected_state_unchanged
    (now : Z) (roomCode playerId : string) (answer : JS.Value)
    (timeRemaining : Q) (gs : GameLogic.Store)
    (session : GameLogic.GameSession) (recorded : GameLogic.AnswerData) :
  gs !! roomCode = Some session ->
  JS.Map_get playerId (GameLogic.currentRoundAnswers session) = Some recorded ->
  exists e,
    GameLogic.processAnswer now roomCode playerId answer timeRemaining gs
    = (Throw e, gs) /\
    (e = EAlreadyAnswered \/ e = ENotPlaying).
Proof.
  intros Hs Hr. unfold GameLogic.processAnswer, GameLogic.getGameSession.
  rewrite Hs.
  destruct (bool_decide (GameLogic.status session = GameLogic.playing)); simpl.
  - assert (Hh : JS.Map_has playerId (GameLogic.currentRoundAnswers session) = true).
    { apply Map_has_get. rewrite Hr. by eexists. }
    rewrite Hh. eauto.
  - eauto.
Qed.

(** After an accepted answer, the same player cannot answer again: the
    second call throws and changes nothing. *)
Lemma processAnswer_twice
    (now now' : Z) (roomCode playerId : string) (answer answer' : JS.Value)
    (timeRemaining timeRemaining' : Q) (gs gs' : GameLogic.Store)
    (r : GameLogic.AnswerResult) :
  GameLogic.processAnswer now roomCode playerId answer timeRemaining gs = (Ok r, gs') ->
  GameLogic.processAnswer now' roomCode playerId answer' timeRemaining' gs'
  = (Throw EAlreadyAnswered, gs').
Proof.
  intros Hp.
  destruct (processAnswer_Ok _ _ _ _ _ _ _ _ Hp)
    as (session & q & session' & a & Hs & Hst & _ & Hq & -> & _ & Ha & _).
  unfold GameLogic.processAnswer, GameLogic.getGameSession.
  rewrite lookup_insert_eq.
  assert (Hst' : GameLogic.status session' = GameLogic.playing).
  { revert Hp. unfold GameLogic.processAnswer, GameLogic.getGameSession.
    rewrite Hs, Hq, (bool_decide_eq_true_2 _ Hst). simpl.
    destruct (JS.Map_has _ _); [discriminate|].
    intros [= _ Hi]. apply (f_equal (fun m => m !! roomCode)) in Hi.
    rewrite !lookup_insert_eq in Hi. injection Hi as <-. exact Hst. }
  rewrite (bool_decide_eq_true_2 _ Hst'). simpl.
  assert (Hh : JS.Map_has playerId (GameLogic.currentRoundAnswers session') = true).
  { apply Map_has_get. rewrite Ha, Map_get_set_eq. by eexists. }
  now rewrite Hh.
Qed.

(** The theorem in the first round of a session, after the host answered. *)
Lemma C9_second_answer_rejected_witness :
  let gs :=
    (GameLogic.processAnswer 4000 Scenario.room Scenario.host (JS.VStr "4") 12
       (Scenario.playing_store (Scenario.mkQuestion 100 "hard"))).2 in
  exists e,
    GameLogic.processAnswer 4500 Scenario.room Scenario.host (JS.VStr "5") 11 gs
    = (Throw e, gs) /\
    (e = EAlreadyAnswered \/ e = ENotPlaying).
Proof.
  cbv zeta.
  eapply (C9_second_answer_rejected_state_unchanged 4500 Scenario.room
            Scenario.host (JS.VStr "5") 11).
  - vm_compute; reflexivity.
  - vm_compute; reflexivity.
Defined.

(* ===================================================================== *)
(** ** C2: an incorrect answer in the [submit-answer] handler *)
(* ===================================================================== *)

(** [updatePlayerScore] with only its two first arguments: the defaults make
    the call count as a correct answer. *)
Lemma updatePlayerScore_defaults (playerId : string) (points : Z)
    (players : PlayerManager.Store) (player : PlayerManager.Player) :
  players !! playerId = Some player ->
  exists player',
    PlayerManager.updatePlayerScore playerId points None None None None players
    = (Ok player', <[playerId := player']> players) /\
    PlayerManager.score player' = PlayerManager.score player + points /\
    PlayerManager.streak player' = PlayerManager.streak player + 1 /\
    PlayerManager.correctAnswers player' = PlayerManager.correctAnswers player + 1 /\
    PlayerManager.wrongAnswers player' = PlayerManager.wrongAnswers player.
Proof.
  intros Hp. unfold PlayerManager.updatePlayerScore, PlayerManager.getPlayer.
  rewrite Hp. simpl. eexists. split; [reflexivity|]. simpl. auto.
Qed.

(** What the handler does to the player store when [processAnswer] accepts
    the answer. *)
Lemma on_submit_answer_player (now : Z) (socketId roomCode : string)
    (answer : JS.Value) (timeRemaining : Q) (s : Server.State)
    (player : PlayerManager.Player) (r : GameLogic.AnswerResult)
    (gs' : GameLogic.Store) :
  Server.playerManager s !! socketId = Some player ->
  PlayerManager.id player = socketId ->
  GameLogic.processAnswer now roomCode socketId answer timeRemaining
    (Server.gameLogic s) = (Ok r, gs') ->
  exists player',
    Server.playerManager
      (Server.on_submit_answer now socketId roomCode answer timeRemaining s).2
      !! socketId = Some player' /\
    PlayerManager.score player'
      = PlayerManager.score player + GameLogic.res_pointsEarned r /\
    PlayerManager.streak player' = PlayerManager.streak player + 1.
Proof.
  intros Hp Hid Hproc.
  destruct (updatePlayerScore_defaults socketId (GameLogic.res_pointsEarned r)
              _ _ Hp) as (player' & Hup & Hsc & Hst & _).
  exists player'. split; [|auto].
  unfold Server.on_submit_answer, Server.try_catch, bind, Server.players,
    Server.sessions, Server.rooms, zoom, Server.read, Server.emit, modify,
    Server.setTimeout, ret, throw, PlayerManager.getPlayer.
  rewrite Hp, Hid. simpl. rewrite Hproc. simpl. rewrite Hup. simpl.
  rewrite lookup_insert_eq. simpl.
  destruct (GameLogic.allPlayersAnswered roomCode gs'); simpl.
  - destruct (GameLogic.getRoundResults roomCode gs') as [[rr|e|] gs'']; simpl;
      apply lookup_insert_eq.
  - apply lookup_insert_eq.
Qed.

(** C2: when the submitted answer is incorrect, the handler adds 0 points,
    but the streak of the player is incremented, not reset.  [processAnswer]
    returns [isCorrect = false]; the handler calls
    [updatePlayerScore(player.id, result.pointsEarned)] without passing it
    on, and the parameter defaults to [true]. *)
Theorem C2_incorrect_answer_increments_streak
    (now : Z) (socketId roomCode : string) (answer : JS.Value)
    (timeRemaining : Q) (s : Server.State) (player : PlayerManager.Player)
    (r : GameLogic.AnswerResult) (gs' : GameLogic.Store) :
  Server.playerManager s !! socketId = Some player ->
  PlayerManager.id player = socketId ->
  GameLogic.processAnswer now roomCode socketId answer timeRemaining
    (Server.gameLogic s) = (Ok r, gs') ->
  GameLogic.res_isCorrect r = false ->
  GameLogic.res_pointsEarned r = 0 /\
  exists player',
    Server.playerManager
      (Server.on_submit_answer now socketId roomCode answer timeRemaining s).2
      !! socketId = Some player' /\
    PlayerManager.score player' = PlayerManager.score player /\
    PlayerManager.streak player' = PlayerManager.streak player + 1.
Proof.
  intros Hp Hid Hproc Hwrong.
  assert (H0 : GameLogic.res_pointsEarned r = 0).
  { destruct (processAnswer_Ok _ _ _ _ _ _ _ _ Hproc)
      as (session & q & session' & a & _ & _ & _ & _ & _ & _ & _ & _ & _ & _ & _
          & _ & _ & Hck & Hpts).
    rewrite Hpts, <- Hck, Hwrong. reflexivity. }
  split; [exact H0|].
  destruct (on_submit_answer_player _ _ _ _ _ _ _ _ _ Hp Hid Hproc)
    as (player' & Hl & Hsc & Hst).
  exists player'. rewrite H0, Z.add_0_r in Hsc. auto.
Qed.

(** The theorem in a started game: the guest, whose streak is 0, answers the
    first question wrongly with 5 seconds left; the streak becomes 1. *)
Lemma C2_incorrect_answer_witness :
  let s := Server.run (Scenario.lobby None 0.5 "hard") Server.initial in
  (PlayerManager.streak <$> Scenario.player_of Scenario.guest s) = Some 0 /\
  (PlayerManager.streak <$> Scenario.player_of Scenario.guest
     (Server.on_submit_answer 4000 Scenario.guest Scenario.room (JS.VStr "7") 5 s).2)
  = Some 1.
Proof.
  cbv zeta. split; [vm_compute; reflexivity|].
  destruct (Scenario.player_of Scenario.guest
              (Server.run (Scenario.lobby None 0.5 "hard") Server.initial))
    as [player|] eqn:Hp; [|vm_compute in Hp; discriminate].
  destruct (GameLogic.processAnswer 4000 Scenario.room Scenario.guest (JS.VStr "7") 5
              (Server.gameLogic
                 (Server.run (Scenario.lobby None 0.5 "hard") Server.initial)))
    as [[r|e|] gs'] eqn:Hproc; [|vm_compute in Hproc; discriminate..].
  destruct (C2_incorrect_answer_increments_streak 4000 Scenario.guest Scenario.room
              (JS.VStr "7") 5 _ player r gs' Hp) as (_ & player' & Hl & _ & Hst).
  - vm_compute in Hp. injection Hp as <-. reflexivity.
  - exact Hproc.
  - vm_compute in Hproc. injection Hproc as <- _. reflexivity.
  - unfold Scenario.player_of. rewrite Hl. simpl. rewrite Hst.
    vm_compute in Hp. injection Hp as <-. reflexivity.
Defined.

(* ===================================================================== *)
(** ** C3: the answer barrier *)
(* ===================================================================== *)

(** The [disconnect] handler never touches the game sessions. *)
Lemma on_disconnect_gameLogic (socketId : string) (s : Server.State) :
  Server.gameLogic (Server.on_disconnect socketId s).2 = Server.gameLogic s.
Proof.
  unfold Server.on_disconnect, bind, Server.players, Server.rooms, zoom,
    Server.read, Server.call, Server.emit, modify, ret.
  simpl.
  destruct (PlayerManager.getPlayer socketId (Server.playerManager s)) as [player|];
    [|reflexivity].
  simpl.
  destruct (RoomManager.findRoomByPlayerId socketId (Server.roomManager s))
    as [room|]; simpl.
  - destruct (RoomManager.removePlayerFromRoom _ _ _) as [b rooms'] eqn:Hrm. simpl.
    destruct (PlayerManager.isHost player); simpl.
    + destruct (from_option RoomManager.players [] (RoomManager.getRoom _ rooms'))
        as [|newHost rest]; simpl.
      * destruct (RoomManager.closeRoom _ _). simpl.
        destruct (PlayerManager.removePlayer _ _). reflexivity.
      * destruct (PlayerManager.setAsHost _ _). simpl.
        destruct (PlayerManager.removePlayer _ _). reflexivity.
    + destruct (PlayerManager.removePlayer _ _). reflexivity.
  - destruct (PlayerManager.removePlayer _ _). reflexivity.
Qed.

(** C3, as stated, fails.  In a game of two players the host answers the
    first question and the guest disconnects: the roster of the room has one
    player, one answer is recorded, and yet the round is not complete; the
    session still counts two players, and no timer is pending that would
    ever complete it. *)
Lemma C3_counterexample :
  let s := Server.run
             (Scenario.lobby None 0.5 "hard" ++
              [ Server.submit_answer 4000 Scenario.host Scenario.room (JS.VStr "4") 20;
                Server.disconnect Scenario.guest ])
             Server.initial in
  ((fun r => length (RoomManager.players r)) <$> Server.roomManager s !! Scenario.room)
    = Some 1%nat /\
  ((fun x => JS.Map_size (GameLogic.currentRoundAnswers x)) <$> Scenario.session_of s)
    = Some 1%nat /\
  (GameLogic.allAnswersReceived <$> Scenario.session_of s) = Some false /\
  (GameLogic.status <$> Scenario.session_of s) = Some GameLogic.playing /\
  ((fun x => length (GameLogic.players x)) <$> Scenario.session_of s) = Some 2%nat /\
  Server.timers s = [].
Proof. cbv zeta. repeat split; vm_compute; reflexivity. Qed.

(** C3, amended: an accepted answer adds one answer to the round and sets
    [allAnswersReceived] to true exactly when the number of recorded answers
    is at least the size of the roster that the session copied when the game
    was initialized; that roster is not changed by [processAnswer], and a
    [disconnect] leaves the whole session store as it is: it neither shrinks
    that roster nor re-evaluates the barrier. *)
Theorem C3_barrier_counts_the_roster_copied_at_start
    (now : Z) (roomCode playerId socketId : string) (answer : JS.Value)
    (timeRemaining : Q) (s : Server.State) (r : GameLogic.AnswerResult)
    (gs' : GameLogic.Store) :
  GameLogic.processAnswer now roomCode playerId answer timeRemaining
    (Server.gameLogic s) = (Ok r, gs') ->
  (exists session session',
     Server.gameLogic s !! roomCode = Some session /\
     gs' !! roomCode = Some session' /\
     GameLogic.players session' = GameLogic.players session /\
     JS.Map_size (GameLogic.currentRoundAnswers session')
       = S (JS.Map_size (GameLogic.currentRoundAnswers session)) /\
     (GameLogic.allAnswersReceived session' = true <->
      (length (GameLogic.players session)
       <= JS.Map_size (GameLogic.currentRoundAnswers session'))%nat)) /\
  Server.gameLogic (Server.on_disconnect socketId (Server.set_gameLogic gs' s)).2 = gs'.
Proof.
  intros Hp. split; [|apply on_disconnect_gameLogic].
  destruct (processAnswer_Ok _ _ _ _ _ _ _ _ Hp)
    as (session & q & session' & a & Hs & _ & Hfresh & _ & -> & Hpl & Ha & _ & Hall
        & Hres & _).
  exists session, session'. split; [exact Hs|]. split; [apply lookup_insert_eq|].
  split; [exact Hpl|]. split.
  - rewrite Ha. now apply Map_size_set_fresh.
  - rewrite Hall, Hres. apply bool_decide_eq_true.
Qed.

(** The theorem in the first round of a session of two players: the host
    answers, then the guest disconnects. *)
Lemma C3_barrier_witness :
  let s := Server.set_gameLogic
             (Scenario.playing_store (Scenario.mkQuestion 100 "hard")) Server.initial in
  let gs' := (GameLogic.processAnswer 4000 Scenario.room Scenario.host
                (JS.VStr "4") 20 (Server.gameLogic s)).2 in
  Server.gameLogic (Server.on_disconnect Scenario.guest (Server.set_gameLogic gs' s)).2
  = gs'.
Proof.
  cbv zeta.
  refine (proj2 (C3_barrier_counts_the_roster_copied_at_start 4000 Scenario.room
                   Scenario.host Scenario.guest (JS.VStr "4") 20
                   (Server.set_gameLogic
                      (Scenario.playing_store (Scenario.mkQuestion 100 "hard"))
                      Server.initial)
                   {| GameLogic.res_isCorrect := true;
                      GameLogic.res_pointsEarned := 173;
                      GameLogic.res_responseTime := 4000;
                      GameLogic.res_allAnswersReceived := false |} _ _)).
  vm_compute; reflexivity.
Defined.

(* ===================================================================== *)
(** ** C5: the end-to-end scenario *)
(* ===================================================================== *)

(** The attempt loop of [getQuestionSet], when it returns, has a question:
    after ten collisions the last draw is kept. *)
Lemma pickQuestion_Some (oracle : QuestionBank.Oracle) (i : nat)
    (category : option string) (difficulty : string) (left : nat)
    (question picked : option QuestionBank.Question) (used used' : gset string) :
  is_Some question \/ (0 < left)%nat ->
  QuestionBank.pickQuestion oracle i category difficulty left question used
  = Ok (picked, used') ->
  is_Some picked.
Proof.
  revert question. induction left as [|left IH]; intros question H Hrun;
    cbn [QuestionBank.pickQuestion] in Hrun.
  - injection Hrun as <- _. destruct H as [H|H]; [exact H|lia].
  - destruct (QuestionBank.getRandomQuestion _ _ _ _ _) as [q|e|]; try discriminate.
    destruct (bool_decide _).
    + apply (IH (Some q)); [left; by eexists|exact Hrun].
    + injection Hrun as <- _. by eexists.
Qed.

(** What the attempt loop picks is one of its at most ten draws for the
    slot, or the question it was given when no attempt is left. *)
Lemma pickQuestion_draw (oracle : QuestionBank.Oracle) (i : nat)
    (category : option string) (difficulty : string) (left : nat)
    (question : option QuestionBank.Question) (used used' : gset string)
    (q : QuestionBank.Question) :
  (left <= 10)%nat ->
  QuestionBank.pickQuestion oracle i category difficulty left question used
  = Ok (Some q, used') ->
  question = Some q \/
  exists k, (10 - left <= k < 10)%nat /\
            QuestionBank.getRandomQuestion oracle i k category difficulty = Ok q.
Proof.
  revert question. induction left as [|left IH]; intros question Hle Hrun;
    cbn [QuestionBank.pickQuestion] in Hrun.
  - injection Hrun as -> _. now left.
  - destruct (QuestionBank.getRandomQuestion _ _ _ _ _) as [q'|e|] eqn:Hcall;
      try discriminate.
    destruct (bool_decide _).
    + assert (Hle' : (left <= 10)%nat) by lia.
      destruct (IH _ Hle' Hrun) as [[= <-]|(k & Hk & Hq)].
      * right. exists (10 - S left)%nat. split; [lia|exact Hcall].
      * right. exists k. split; [lia|exact Hq].
    + injection Hrun as <- _. right. exists (10 - S left)%nat. split; [lia|exact Hcall].
Qed.

(** The attempt loop ends without a result as one of its calls does. *)
Lemma pickQuestion_fails (oracle : QuestionBank.Oracle) (i : nat)
    (category : option string) (difficulty : string) (left : nat)
    (question : option QuestionBank.Question) (used : gset string) :
  (left <= 10)%nat ->
  match QuestionBank.pickQuestion oracle i category difficulty left question used with
  | Ok _ => True
  | Throw e =>
      exists k, (10 - left <= k < 10)%nat /\
        QuestionBank.getRandomQuestion oracle i k category difficulty = Throw e
  | Diverge =>
      exists k, (10 - left <= k < 10)%nat /\
        QuestionBank.getRandomQuestion oracle i k category difficulty = Diverge
  end.
Proof.
  revert question. induction left as [|left IH]; intros question Hle;
    cbn [QuestionBank.pickQuestion]; [exact I|].
  destruct (QuestionBank.getRandomQuestion oracle i (10 - S left) category difficulty)
    as [q|e|] eqn:Hcall.
  - destruct (bool_decide _); [|exact I].
    assert (Hle' : (left <= 10)%nat) by lia.
    specialize (IH (Some q) Hle').
    destruct (QuestionBank.pickQuestion _ _ _ _ left _ _) as [?|e|]; [exact I|..];
      destruct IH as (k & Hk & Hq); exists k; (split; [lia|exact Hq]).
  - exists (10 - S left)%nat. split; [lia|exact Hcall].
  - exists (10 - S left)%nat. split; [lia|exact Hcall].
Qed.

(** The attempt loop returns when its calls do. *)
Lemma pickQuestion_returns (oracle : QuestionBank.Oracle) (i : nat)
    (category : option string) (difficulty : string) (left : nat)
    (question : option QuestionBank.Question) (used : gset string) :
  (forall k, (k < 10)%nat ->
     exists q, QuestionBank.getRandomQuestion oracle i k category difficulty = Ok q) ->
  (left <= 10)%nat ->
  exists picked,
    QuestionBank.pickQuestion oracle i category difficulty left question used
    = Ok picked.
Proof.
  intros Hret Hle. pose proof (pickQuestion_fails oracle i category difficulty left
                                 question used Hle) as H.
  destruct (QuestionBank.pickQuestion _ _ _ _ _ _ _) as [picked|e|].
  - by eexists.
  - destruct H as (k & Hk & Hq). destruct (Hret k) as [q Hq']; [lia|congruence].
  - destruct H as (k & Hk & Hq). destruct (Hret k) as [q Hq']; [lia|congruence].
Qed.

(** The call of [getRandomQuestion] number [k] for the slot [j] of a
    question set. *)
Lemma getQuestionSet_loop_stamped (oracle : QuestionBank.Oracle) (todo i : nat)
    (difficulty : string) (categories : list string)
    (questions result : list QuestionBank.Question) (used : gset string) :
  QuestionBank.getQuestionSet_loop oracle todo i difficulty categories questions used
  = Ok result ->
  exists added,
    result = questions ++ added /\
    length added = todo /\
    forall j q, added !! j = Some q ->
      exists k draw, (k < 10)%nat /\
        QuestionBank.getRandomQuestion oracle (i + j) k
          (categories !! ((i + j) mod length categories)%nat)
          (QuestionBank.selectDifficultyFromDistribution
             (QuestionBank.getDifficultyDistribution difficulty)
             (QuestionBank.difficultyDraw oracle (i + j))) = Ok draw /\
        q = QuestionBank.stamped (i + j) draw.
Proof.
  revert i questions used.
  induction todo as [|todo IH]; intros i questions used Hrun;
    cbn [QuestionBank.getQuestionSet_loop] in Hrun.
  - injection Hrun as <-. exists []. split; [now rewrite app_nil_r|].
    split; [reflexivity|]. discriminate.
  - set (category := categories !! (i mod length categories)%nat) in *.
    set (questionDifficulty := QuestionBank.selectDifficultyFromDistribution _ _) in *.
    destruct (QuestionBank.pickQuestion oracle i category questionDifficulty 10 None used)
      as [[picked used']|e|] eqn:Hpick; try discriminate.
    assert (Hleft : is_Some (@None QuestionBank.Question) \/ (0 < 10)%nat)
      by (right; lia).
    destruct (pickQuestion_Some _ _ _ _ _ _ _ _ _ Hleft Hpick) as [q ->].
    destruct (pickQuestion_draw _ _ _ _ _ _ _ _ _ (Nat.le_refl 10) Hpick)
      as [|(k & Hk & Hcall)]; [discriminate|].
    destruct (IH (S i) _ used' Hrun) as (added & -> & Hlen & Hall).
    eexists (_ :: added). split; [|split].
    + rewrite <- app_assoc. reflexivity.
    + cbn. now rewrite Hlen.
    + intros [|j] q' Hq.
      * injection Hq as <-. exists k, q. rewrite Nat.add_0_r.
        split; [lia|]. split; [exact Hcall|reflexivity].
      * destruct (Hall j q' Hq) as (k' & draw & Hk' & Hcall' & ->).
        exists k', draw. replace (i + S j)%nat with (S i + j)%nat by lia. auto.
Qed.

(** The loop ends without a result as one of its calls does. *)
Lemma getQuestionSet_loop_fails (oracle : QuestionBank.Oracle) (todo i : nat)
    (difficulty : string) (categories : list string)
    (questions : list QuestionBank.Question) (used : gset string) :
  let call j k :=
    QuestionBank.getRandomQuestion oracle (i + j) k
      (categories !! ((i + j) mod length categories)%nat)
      (QuestionBank.selectDifficultyFromDistribution
         (QuestionBank.getDifficultyDistribution difficulty)
         (QuestionBank.difficultyDraw oracle (i + j))) in
  match QuestionBank.getQuestionSet_loop oracle todo i difficulty categories
          questions used with
  | Ok _ => True
  | Throw e => exists j k, (j < todo)%nat /\ (k < 10)%nat /\ call j k = Throw e
  | Diverge => exists j k, (j < todo)%nat /\ (k < 10)%nat /\ call j k = Diverge
  end.
Proof.
  cbv zeta. revert i questions used.
  induction todo as [|todo IH]; intros i questions used;
    cbn [QuestionBank.getQuestionSet_loop]; [exact I|].
  set (category := categories !! (i mod length categories)%nat) in *.
  set (questionDifficulty := QuestionBank.selectDifficultyFromDistribution _ _) in *.
  pose proof (pickQuestion_fails oracle i category questionDifficulty 10 None used
                (Nat.le_refl 10)) as Hf.
  destruct (QuestionBank.pickQuestion oracle i category questionDifficulty 10 None used)
    as [[picked used']|e|] eqn:Hpick.
  - match goal with
    | |- context [QuestionBank.getQuestionSet_loop oracle todo (S i) _ _ ?qs used'] =>
        specialize (IH (S i) qs used')
    end.
    destruct (QuestionBank.getQuestionSet_loop _ _ _ _ _ _ _) as [?|e|]; [exact I|..];
      destruct IH as (j & k & Hj & Hk & Hcall); exists (S j), k;
      replace (i + S j)%nat with (S i + j)%nat by lia;
      (split; [lia|]; split; [exact Hk|exact Hcall]).
  - destruct Hf as (k & Hk & Hcall). exists 0%nat, k. rewrite Nat.add_0_r.
    split; [lia|]. split; [lia|exact Hcall].
  - destruct Hf as (k & Hk & Hcall). exists 0%nat, k. rewrite Nat.add_0_r.
    split; [lia|]. split; [lia|exact Hcall].
Qed.

(** [getQuestionSet], when it returns, returns as many questions as it is
    asked for. *)
Lemma getQuestionSet_length (oracle : QuestionBank.Oracle) (count : nat)
    (difficulty : string) (categories : list string)
    (questions : list QuestionBank.Question) :
  QuestionBank.getQuestionSet oracle count difficulty categories = Ok questions ->
  length questions = count.
Proof.
  intros Hrun. apply getQuestionSet_loop_stamped in Hrun as (added & -> & Hlen & _).
  exact Hlen.
Qed.

(** C5: the host creates the room for 3 questions of 10 seconds and
    [game-started] announces 3 questions, but [start-game] calls
    [initializeGame(roomCode, room.players)] without the settings of the
    room: the session takes the defaults, 10 questions of 30 seconds.  With
    both players answering every question, the game is still playing after
    the 3rd round (no [game-finished] is emitted); it finishes after the
    10th, with a round history of length 10. *)
Theorem C5_three_question_game_plays_ten_rounds :
  ((fun r => (RoomManager.totalQuestions (RoomManager.settings r),
              RoomManager.questionTime (RoomManager.settings r)))
     <$> Server.roomManager Scenario.e2e_lobby !! Scenario.room)
    = Some (3%nat, 10%Q) /\
  Server.to_room Scenario.room (Server.game_started 3)
    ∈ Server.emitted Scenario.e2e_lobby /\
  ((fun x => (GameLogic.totalQuestions (GameLogic.settings x),
              GameLogic.questionTime (GameLogic.settings x),
              length (GameLogic.questions x)))
     <$> Scenario.session_of Scenario.e2e_lobby)
    = Some (10%nat, 30%Q, 10%nat) /\
  ((fun x => (GameLogic.status x, length (GameLogic.roundResults x),
              GameLogic.currentQuestionIndex x))
     <$> Scenario.session_of Scenario.e2e_after_3)
    = Some (GameLogic.playing, 3%nat, 3%nat) /\
  Scenario.finished_results Scenario.e2e_after_3 = [] /\
  (GameLogic.status <$> Scenario.session_of Scenario.e2e_after_10)
    = Some GameLogic.finished /\
  ((fun r => (length (GameLogic.roundHistory r),
              GameLogic.or_playerId <$> GameLogic.winner r))
     <$> Scenario.finished_results Scenario.e2e_after_10)
    = [(10%nat, Some Scenario.host)].
Proof.
  split; [vm_compute; reflexivity|].
  split; [vm_compute; set_solver|].
  repeat split; vm_compute; reflexivity.
Qed.

(** Whatever the settings of the room and the draws, the session that
    [start-game] creates, when the generation of its questions returns, has
    10 questions of 30 seconds; otherwise no session is stored. *)
Lemma initializeGame_default_settings (oracle : QuestionBank.Oracle)
    (roomCode : string) (players : list PlayerRef) (gs : GameLogic.Store) :
  match GameLogic.initializeGame oracle roomCode players GameLogic.empty_settings gs with
  | (Ok session, gs') =>
      gs' = <[roomCode := session]> gs /\
      GameLogic.totalQuestions (GameLogic.settings session) = 10%nat /\
      GameLogic.questionTime (GameLogic.settings session) = 30%Q /\
      length (GameLogic.questions session) = 10%nat
  | (_, gs') => gs' = gs
  end.
Proof.
  unfold GameLogic.initializeGame, GameLogic.generateQuestionSet.
  destruct (QuestionBank.getQuestionSet _ _ _ _) as [questions|e|] eqn:Hq;
    [|reflexivity..].
  split; [reflexivity|]. split; [reflexivity|]. split; [reflexivity|].
  cbn. apply (getQuestionSet_length _ _ _ _ _ Hq).
Qed.

(* ===================================================================== *)
(** ** C8: the points added to the score *)
(* ===================================================================== *)

(** C8: in a started game (30 seconds per question, a medium question) the
    host answers correctly and reports [timeRemaining = -120]:
    [calculateQuestionPoints] gives 100 + round(50 * -4) = -100, the handler
    answers [pointsEarned = -100], and both the session score and the score
    of the player go from 0 to -100. *)
Theorem C8_negative_time_remaining_lowers_the_score :
  let s := Server.run (Scenario.lobby None 0.5 "medium") Server.initial in
  let s' := Server.run
              [Server.submit_answer 4000 Scenario.host Scenario.room (JS.VStr "4")
                 (-120)] s in
  GameLogic.calculateQuestionPoints (-120) 30 4000 "medium" = -100 /\
  (PlayerManager.score <$> Scenario.player_of Scenario.host s) = Some 0 /\
  (PlayerManager.score <$> Scenario.player_of Scenario.host s') = Some (-100) /\
  (Scenario.session_of s' ≫= fun x => JS.Map_get Scenario.host (GameLogic.playerScores x))
    = Some (-100) /\
  last (Server.emitted s')
    = Some (Server.to_socket Scenario.host (Server.answer_result true (-100) (-100))).
Proof. cbv zeta. repeat split; vm_compute; reflexivity. Qed.

(* ===================================================================== *)
(** ** C10: the between-round callback *)
(* ===================================================================== *)

(** C10: both players answer, the between-round timer is scheduled, and both
    players disconnect, which closes the room.  When the timer fires, the
    callback does not check anything: [getNextQuestion] advances the session
    of the closed room to its next question, and reading
    [roomManager.getRoom(roomCode).settings] throws.  If the session has been
    closed too, [getNextQuestion] returns [null] and the callback calls
    [getFinalResults], which throws for the missing session. *)
Theorem C10_stale_callback_throws :
  Server.roomManager Scenario.abandoned = ∅ /\
  Server.playerManager Scenario.abandoned = ∅ /\
  Server.timers Scenario.abandoned = [Server.next_question Scenario.room] /\
  ((fun x => (GameLogic.currentQuestionIndex x, GameLogic.status x,
              JS.Map_size (GameLogic.currentRoundAnswers x)))
     <$> Scenario.session_of Scenario.abandoned)
    = Some (0%nat, GameLogic.showing_results, 2%nat) /\
  (Server.fire 9001 0 Scenario.abandoned).1 = Throw ETypeError /\
  ((fun x => (GameLogic.currentQuestionIndex x, GameLogic.status x,
              JS.Map_size (GameLogic.currentRoundAnswers x)))
     <$> Scenario.session_of (Server.fire 9001 0 Scenario.abandoned).2)
    = Some (1%nat, GameLogic.playing, 0%nat) /\
  (Server.fire 9001 0
     (Server.set_gameLogic
        (GameLogic.closeGameSession Scenario.room
           (Server.gameLogic Scenario.abandoned)).2
        Scenario.abandoned)).1
    = Throw (ESessionNotFound Scenario.room).
Proof. repeat split; vm_compute; reflexivity. Qed.

(** For every store without the session, the callback throws. *)
Lemma next_question_callback_without_session (now : Z) (roomCode : string)
    (s : Server.State) :
  Server.gameLogic s !! roomCode = None ->
  Server.next_question_callback now roomCode s = (Throw (ESessionNotFound roomCode), s).
Proof.
  intros H. unfold Server.next_question_callback, bind, Server.sessions, zoom,
    GameLogic.getNextQuestion, GameLogic.getFinalResults, GameLogic.getGameSession.
  rewrite H. simpl. rewrite H. destruct s; reflexivity.
Qed.

(* ===================================================================== *)
(** ** C6: the distractors of a generated question *)
(* ===================================================================== *)

(** [Math.floor(r * n)] is one of [0 .. n-1] for a draw [r] of [0,1). *)
Lemma floor_draw_range (r : Q) (n : Z) :
  QuestionBank.unit_interval r -> 0 < n ->
  0 <= JS.Math_floor (r * inject_Z n) < n.
Proof.
  intros [H0 H1] Hn. unfold JS.Math_floor. split.
  - change 0 with (Qfloor 0). apply Qfloor_resp_le.
    apply Qmult_le_0_compat; [exact H0|].
    change 0%Q with (inject_Z 0). rewrite <- Zle_Qle. lia.
  - rewrite Zlt_Qlt. eapply Qle_lt_trans; [apply Qfloor_le|].
    apply Qlt_le_trans with (1 * inject_Z n)%Q.
    + apply Qmult_lt_compat_r; [|exact H1].
      change 0%Q with (inject_Z 0). rewrite <- Zlt_Qlt. exact Hn.
    + rewrite Qmult_1_l. apply Qle_refl.
Qed.

(** [randomInt(min, max)] stays between its bounds. *)
Lemma randomInt_at_range (r : Q) (min max : Z) :
  QuestionBank.unit_interval r -> min <= max ->
  min <= QuestionBank.randomInt_at r min max <= max.
Proof.
  intros Hr Hm. unfold QuestionBank.randomInt_at.
  pose proof (floor_draw_range r (max - min + 1) Hr ltac:(lia)). lia.
Qed.

(** For a correct value from 0 to 6 the offset is drawn in [-1 .. 1]. *)
Lemma offset_bound_small (correct : Z) :
  0 <= correct <= 6 -> QuestionBank.offset_bound correct = 1.
Proof.
  intros H.
  assert (correct = 0 \/ correct = 1 \/ correct = 2 \/ correct = 3 \/
          correct = 4 \/ correct = 5 \/ correct = 6) as Hc by lia.
  destruct Hc as [->|[->|[->|[->|[->|[->| ->]]]]]]; reflexivity.
Qed.

(** The loop invariant for a small correct value: the values used so far are
    among [correct - 1], [correct] and [correct + 1], and there is one more
    of them than there are distractors; the loop cannot reach 3 distractors. *)
Lemma generateWrongAnswers_loop_small (correct : Z) (rs : list Q)
    (wrongAnswers : list string) (used : gset Z) :
  0 <= correct <= 6 ->
  Forall QuestionBank.unit_interval rs ->
  used ⊆ {[ correct - 1; correct; correct + 1 ]} ->
  size used = S (length wrongAnswers) ->
  QuestionBank.generateWrongAnswers_loop correct 3 wrongAnswers used rs = None.
Proof.
  intros Hc Hrs. revert wrongAnswers used.
  induction Hrs as [|r rs Hr Hrs IH]; intros wrongAnswers used Hsub Hsize.
  - assert (Hle : (size used <= 3)%nat).
    { etrans; [apply subseteq_size, Hsub|].
      rewrite !size_union_alt, !size_singleton.
      pose proof (subseteq_size ({[correct]} ∖ {[correct - 1]} : gset Z) {[correct]}
                    ltac:(set_solver)) as H1.
      pose proof (subseteq_size
                    ({[correct + 1]} ∖ ({[correct - 1]} ∪ {[correct]}) : gset Z)
                    {[correct + 1]} ltac:(set_solver)) as H2.
      rewrite size_singleton in H1, H2. lia. }
    simpl. rewrite bool_decide_eq_true_2 by lia. reflexivity.
  - assert (Hle : (size used <= 3)%nat).
    { etrans; [apply subseteq_size, Hsub|].
      rewrite !size_union_alt, !size_singleton.
      pose proof (subseteq_size ({[correct]} ∖ {[correct - 1]} : gset Z) {[correct]}
                    ltac:(set_solver)) as H1.
      pose proof (subseteq_size
                    ({[correct + 1]} ∖ ({[correct - 1]} ∪ {[correct]}) : gset Z)
                    {[correct + 1]} ltac:(set_solver)) as H2.
      rewrite size_singleton in H1, H2. lia. }
    cbn [QuestionBank.generateWrongAnswers_loop].
    rewrite bool_decide_eq_true_2 by lia.
    rewrite (offset_bound_small correct Hc). change (- (1)) with (-1).
    pose proof (randomInt_at_range r (-1) 1 Hr ltac:(lia)) as Hoff.
    set (offset := QuestionBank.randomInt_at r (-1) 1) in *.
    set (wrong := Z.max 0 (correct + offset)).
    assert (Hw : wrong ∈ ({[ correct - 1; correct; correct + 1 ]} : gset Z)).
    { assert (wrong = correct - 1 \/ wrong = correct \/ wrong = correct + 1)
        as [->|[->| ->]] by (unfold wrong; lia); set_solver. }
    destruct (bool_decide (wrong ∈ used)) eqn:Hin.
    + apply IH; assumption.
    + apply bool_decide_eq_false_1 in Hin. apply IH.
      * set_solver.
      * rewrite size_union by set_solver.
        rewrite size_singleton, Hsize, length_app. simpl. lia.
Qed.

Lemma generateWrongAnswers_small (correct : Z) (rs : list Q) :
  0 <= correct <= 6 ->
  Forall QuestionBank.unit_interval rs ->
  QuestionBank.generateWrongAnswers correct 3 rs = None.
Proof.
  intros Hc Hrs. unfold QuestionBank.generateWrongAnswers.
  apply generateWrongAnswers_loop_small; [exact Hc|exact Hrs|set_solver|].
  now rewrite size_singleton.
Qed.

(** C6: for a correct value from 0 to 6 (0 is what [a - b] gives when the
    two operands of a subtraction are equal) [generateWrongAnswers(correct, 3)]
    does not return, whatever [Math.random()] draws and however many draws it
    is given: at most two values near [correct] are both different from it
    and not negative, so that the third distractor is never found. *)
Theorem C6_generateWrongAnswers_loops_forever_on_small_values
    (correct : Z) (rs : list Q) :
  0 <= correct <= 6 ->
  Forall QuestionBank.unit_interval rs ->
  QuestionBank.generateWrongAnswers correct 3 rs = None.
Proof.
  intros Hc Hrs. now apply generateWrongAnswers_small.
Qed.

(** The theorem at [correct = 0] and eight draws spread over [0,1). *)
Lemma C6_generateWrongAnswers_witness :
  QuestionBank.generateWrongAnswers 0 3
    [0.05%Q; 0.4%Q; 0.7%Q; 0.99%Q; 0.5%Q; 0.8%Q; 0.2%Q; 0.9%Q] = None.
Proof.
  apply C6_generateWrongAnswers_loops_forever_on_small_values.
  - lia.
  - repeat constructor; vm_compute; congruence.
Defined.

(** An easy subtraction whose two first draws are 0 has the operands
    [a = b = 1] and the answer [0]: the generator does not return. *)
Lemma generateSubtraction_equal_operands (rs : list Q) :
  Forall QuestionBank.unit_interval rs ->
  QuestionBank.generateSubtraction "easy" (0%Q :: 0%Q :: rs) = None.
Proof.
  intros Hrs.
  assert (Hops : QuestionBank.generateSubtraction_operands 1 50 (0%Q :: 0%Q :: rs)
                 = Some ((1, 1), rs)) by reflexivity.
  unfold QuestionBank.generateSubtraction.
  change (QuestionBank.subtraction_ranges "easy") with (Some (1, 50)).
  cbv beta iota. unfold QuestionBank.rand_bind at 1. rewrite Hops.
  unfold QuestionBank.rand_bind at 1.
  change (1 - 1) with 0.
  rewrite (generateWrongAnswers_small 0 rs); [reflexivity|lia|exact Hrs].
Qed.

(* ===================================================================== *)
(** ** Further properties of the game sessions *)
(* ===================================================================== *)

Section MapFrame.
Context {V : Type}.
Implicit Types (m : JS.Map V) (k : string) (v : V).

Lemma Map_get_set_ne m k k' v :
  k <> k' -> JS.Map_get k' (JS.Map_set k v m) = JS.Map_get k' m.
Proof.
  intros Hne. induction m as [|[k0 v0] m IH]; simpl.
  - now rewrite bool_decide_eq_false_2.
  - destruct (bool_decide (k0 = k)) eqn:E; simpl.
    + apply bool_decide_eq_true_1 in E. subst k0.
      now rewrite !bool_decide_eq_false_2.
    + destruct (bool_decide (k0 = k')); [reflexivity|exact IH].
Qed.

Lemma Map_set_keys_present m k v :
  JS.Map_has k m = true -> (JS.Map_set k v m).*1 = m.*1.
Proof.
  unfold JS.Map_has. induction m as [|[k0 v0] m IH];
    cbn [JS.Map_set JS.Map_get]; [discriminate|].
  destruct (bool_decide (k0 = k)) eqn:E; [reflexivity|].
  intros H. rewrite !fmap_cons. f_equal. exact (IH H).
Qed.

Lemma Map_set_keys_fresh m k v :
  JS.Map_has k m = false -> (JS.Map_set k v m).*1 = m.*1 ++ [k].
Proof.
  unfold JS.Map_has. induction m as [|[k0 v0] m IH];
    cbn [JS.Map_set JS.Map_get]; [reflexivity|].
  destruct (bool_decide (k0 = k)) eqn:E; [discriminate|].
  intros H. rewrite !fmap_cons. cbn [app]. f_equal. exact (IH H).
Qed.
End MapFrame.

(** X1: whenever [processAnswer] throws, for whatever reason, the store of
    sessions is the one it was given. *)
Theorem processAnswer_throw_leaves_store
    (now : Z) (roomCode playerId : string) (answer : JS.Value)
    (timeRemaining : Q) (gs gs' : GameLogic.Store) (e : Error) :
  GameLogic.processAnswer now roomCode playerId answer timeRemaining gs
  = (Throw e, gs') ->
  gs' = gs /\
  (e = ESessionNotFound roomCode \/ e = ENotPlaying \/ e = EAlreadyAnswered \/
   e = ENoActiveQuestion).
Proof.
  unfold GameLogic.processAnswer, GameLogic.getGameSession.
  destruct (gs !! roomCode) as [session|]; [|intros [= <- <-]; auto].
  destruct (negb _); [intros [= <- <-]; auto|].
  destruct (JS.Map_has _ _); [intros [= <- <-]; auto|].
  destruct (GameLogic.currentQuestion session); [discriminate|].
  intros [= <- <-]; auto.
Qed.

Lemma processAnswer_throw_witness :
  (GameLogic.processAnswer 1 "NOROOM" Scenario.host (JS.VStr "4") 5
     (Scenario.playing_store (Scenario.mkQuestion 1 "easy"))).2
  = Scenario.playing_store (Scenario.mkQuestion 1 "easy").
Proof.
  refine (proj1 (processAnswer_throw_leaves_store 1 "NOROOM" Scenario.host
                   (JS.VStr "4") 5 _ _ (ESessionNotFound "NOROOM") _)).
  vm_compute; reflexivity.
Defined.

(** X2: an accepted answer touches one player of one session: the scores
    and the recorded answers of the other players of the session, and all
    the other sessions, are what they were. *)
Theorem processAnswer_frame
    (now : Z) (roomCode playerId : string) (answer : JS.Value)
    (timeRemaining : Q) (gs gs' : GameLogic.Store) (r : GameLogic.AnswerResult) :
  GameLogic.processAnswer now roomCode playerId answer timeRemaining gs = (Ok r, gs') ->
  (forall other, other <> roomCode -> gs' !! other = gs !! other) /\
  exists session session',
    gs !! roomCode = Some session /\ gs' !! roomCode = Some session' /\
    (forall p, p <> playerId ->
       JS.Map_get p (GameLogic.playerScores session')
         = JS.Map_get p (GameLogic.playerScores session) /\
       JS.Map_get p (GameLogic.currentRoundAnswers session')
         = JS.Map_get p (GameLogic.currentRoundAnswers session)).
Proof.
  intros Hp.
  destruct (processAnswer_Ok _ _ _ _ _ _ _ _ Hp)
    as (session & q & session' & a & Hs & _ & _ & _ & -> & _ & Ha & Hsc & _).
  split.
  - intros other Hne. now rewrite lookup_insert_ne.
  - exists session, session'. split; [exact Hs|]. split; [apply lookup_insert_eq|].
    intros p Hne. rewrite Hsc, Ha. split; now apply Map_get_set_ne.
Qed.

Lemma processAnswer_frame_witness :
  exists session',
    (GameLogic.processAnswer 4000 Scenario.room Scenario.host (JS.VStr "4") 12
       (Scenario.playing_store (Scenario.mkQuestion 100 "hard"))).2
      !! Scenario.room = Some session' /\
    JS.Map_get Scenario.guest (GameLogic.playerScores session') = Some 0.
Proof.
  destruct (GameLogic.processAnswer 4000 Scenario.room Scenario.host (JS.VStr "4") 12
              (Scenario.playing_store (Scenario.mkQuestion 100 "hard")))
    as [[r|e|] gs'] eqn:Hp; [|vm_compute in Hp; discriminate..].
  destruct (processAnswer_frame _ _ _ _ _ _ _ _ Hp)
    as (_ & session & session' & Hs & Hs' & Hframe).
  exists session'. split; [exact Hs'|].
  destruct (Hframe Scenario.guest ltac:(discriminate)) as [-> _].
  vm_compute in Hs. injection Hs as <-. reflexivity.
Defined.

(** X3: [setCurrentQuestion] opens a round in which every player can answer:
    after it, [processAnswer] accepts the first answer of any player, and
    what it records is judged against the question that was set. *)
Theorem setCurrentQuestion_then_processAnswer
    (now now' : Z) (roomCode playerId : string) (question : QuestionBank.Question)
    (answer : JS.Value) (timeRemaining : Q) (gs : GameLogic.Store)
    (session : GameLogic.GameSession) :
  gs !! roomCode = Some session ->
  exists gs1 r gs2,
    GameLogic.setCurrentQuestion now roomCode question gs = (Ok true, gs1) /\
    GameLogic.processAnswer now' roomCode playerId answer timeRemaining gs1
    = (Ok r, gs2) /\
    GameLogic.res_isCorrect r = GameLogic.checkAnswer question answer /\
    GameLogic.res_responseTime r = now' - now /\
    GameLogic.res_allAnswersReceived r
    = bool_decide (length (GameLogic.players session) <= 1)%nat.
Proof.
  intros Hs. unfold GameLogic.setCurrentQuestion, GameLogic.getGameSession.
  rewrite Hs. eexists _, _, _. split; [reflexivity|].
  unfold GameLogic.processAnswer, GameLogic.getGameSession.
  rewrite lookup_insert_eq. simpl. split; [reflexivity|]. simpl. auto.
Qed.

Lemma setCurrentQuestion_then_processAnswer_witness :
  exists gs1 r gs2,
    GameLogic.setCurrentQuestion 10 Scenario.room (Scenario.mkQuestion 7 "easy")
      (Scenario.playing_store (Scenario.mkQuestion 100 "hard")) = (Ok true, gs1) /\
    GameLogic.processAnswer 15 Scenario.room Scenario.guest (JS.VStr "4") 3 gs1
    = (Ok r, gs2) /\
    GameLogic.res_responseTime r = 5.
Proof.
  destruct (setCurrentQuestion_then_processAnswer 10 15 Scenario.room Scenario.guest
              (Scenario.mkQuestion 7 "easy") (JS.VStr "4") 3
              (Scenario.playing_store (Scenario.mkQuestion 100 "hard"))
              (Scenario.playing_session (Scenario.mkQuestion 100 "hard"))
              ltac:(vm_compute; reflexivity))
    as (gs1 & r & gs2 & H1 & H2 & _ & H3 & _).
  exists gs1, r, gs2. auto.
Defined.

(** X4: [getRoundResults] closes the round: it appends exactly one result to
    the history, numbered after the current index, and from then on
    [processAnswer] rejects every answer for this session without touching
    it. *)
Theorem getRoundResults_closes_the_round
    (now : Z) (roomCode playerId : string) (answer : JS.Value) (timeRemaining : Q)
    (gs gs' : GameLogic.Store) (result : GameLogic.RoundResult) :
  GameLogic.getRoundResults roomCode gs = (Ok result, gs') ->
  (exists session session',
     gs !! roomCode = Some session /\ gs' !! roomCode = Some session' /\
     GameLogic.roundResults session' = GameLogic.roundResults session ++ [result] /\
     GameLogic.questionNumber result = S (GameLogic.currentQuestionIndex session) /\
     GameLogic.status session' = GameLogic.showing_results /\
     GameLogic.playerScores session' = GameLogic.playerScores session) /\
  GameLogic.processAnswer now roomCode playerId answer timeRemaining gs'
  = (Throw ENotPlaying, gs').
Proof.
  unfold GameLogic.getRoundResults, GameLogic.getGameSession.
  destruct (gs !! roomCode) as [session|] eqn:Hs; [|discriminate].
  destruct (GameLogic.currentQuestion session) as [q|]; [|discriminate].
  intros [= <- <-]. split.
  - eexists session, _. split; [reflexivity|]. split; [apply lookup_insert_eq|].
    simpl. repeat split. lia.
  - unfold GameLogic.processAnswer, GameLogic.getGameSession.
    rewrite lookup_insert_eq. reflexivity.
Qed.

Lemma getRoundResults_closes_the_round_witness :
  let gs := (GameLogic.processAnswer 4000 Scenario.room Scenario.host (JS.VStr "4") 12
               (Scenario.playing_store (Scenario.mkQuestion 100 "hard"))).2 in
  let gs' := (GameLogic.getRoundResults Scenario.room gs).2 in
  GameLogic.processAnswer 4100 Scenario.room Scenario.guest (JS.VStr "4") 11 gs'
  = (Throw ENotPlaying, gs').
Proof.
  cbv zeta.
  destruct (GameLogic.getRoundResults Scenario.room _) as [[result|e|] gs'] eqn:Hr;
    [|vm_compute in Hr; discriminate..].
  exact (proj2 (getRoundResults_closes_the_round 4100 Scenario.room Scenario.guest
                  (JS.VStr "4") 11 _ _ _ Hr)).
Defined.

(** X5: [getNextQuestion] on an existing session moves to the question that
    follows the current index: it returns that question with the number
    [index + 2] and the session is playing it with no answer recorded, or,
    when no question is left, it returns [null] and the session is finished.
    The question at index 0 of the set is never returned. *)
Theorem getNextQuestion_advances
    (now : Z) (roomCode : string) (gs : GameLogic.Store)
    (session : GameLogic.GameSession) :
  gs !! roomCode = Some session ->
  let index := S (GameLogic.currentQuestionIndex session) in
  exists session',
    (GameLogic.getNextQuestion now roomCode gs).2 !! roomCode = Some session' /\
    GameLogic.currentQuestionIndex session' = index /\
    GameLogic.roundResults session' = GameLogic.roundResults session /\
    GameLogic.playerScores session' = GameLogic.playerScores session /\
    match GameLogic.questions session !! index with
    | Some q =>
        (GameLogic.getNextQuestion now roomCode gs).1 = Ok (Some (q, S index)) /\
        GameLogic.status session' = GameLogic.playing /\
        GameLogic.currentQuestion session' = Some q /\
        GameLogic.currentRoundAnswers session' = [] /\
        GameLogic.allAnswersReceived session' = false /\
        GameLogic.questionStartedAt session' = Some now
    | None =>
        (GameLogic.getNextQuestion now roomCode gs).1 = Ok None /\
        GameLogic.status session' = GameLogic.finished /\
        GameLogic.currentQuestion session' = GameLogic.currentQuestion session
    end.
Proof.
  intros Hs index. unfold GameLogic.getNextQuestion, GameLogic.getGameSession.
  rewrite Hs. cbn [GameLogic.set_currentQuestionIndex GameLogic.questions].
  fold index.
  destruct (GameLogic.questions session !! index) as [q|] eqn:Hq.
  - rewrite bool_decide_eq_false_2
      by (apply Nat.lt_nge; eapply lookup_lt_Some; exact Hq).
    unfold bind, GameLogic.setCurrentQuestion, GameLogic.getGameSession, ret.
    rewrite lookup_insert_eq. cbn [fst snd]. rewrite lookup_insert_eq.
    eexists. split; [reflexivity|]. cbn. repeat split.
  - rewrite bool_decide_eq_true_2 by (now apply lookup_ge_None).
    cbn [fst snd]. rewrite lookup_insert_eq.
    eexists. split; [reflexivity|]. cbn. repeat split.
Qed.

Lemma getNextQuestion_advances_witness :
  exists session',
    (GameLogic.getNextQuestion 9000 Scenario.room
       (Scenario.playing_store (Scenario.mkQuestion 100 "hard"))).2
      !! Scenario.room = Some session' /\
    GameLogic.status session' = GameLogic.finished.
Proof.
  destruct (getNextQuestion_advances 9000 Scenario.room
              (Scenario.playing_store (Scenario.mkQuestion 100 "hard"))
              (Scenario.playing_session (Scenario.mkQuestion 100 "hard"))
              ltac:(vm_compute; reflexivity))
    as (session' & H1 & _ & _ & _ & H2).
  exists session'. split; [exact H1|]. cbn in H2. tauto.
Defined.

(** X6: closing a session removes it and only it; closing it again returns
    [false] and changes nothing; an answer for the closed session is
    rejected with the session-not-found error. *)
Theorem closeGameSession_idempotent
    (now : Z) (roomCode playerId : string) (answer : JS.Value) (timeRemaining : Q)
    (gs : GameLogic.Store) :
  let gs' := (GameLogic.closeGameSession roomCode gs).2 in
  (GameLogic.closeGameSession roomCode gs).1 = bool_decide (is_Some (gs !! roomCode)) /\
  gs' !! roomCode = None /\
  (forall other, other <> roomCode -> gs' !! other = gs !! other) /\
  GameLogic.closeGameSession roomCode gs' = (false, gs') /\
  GameLogic.processAnswer now roomCode playerId answer timeRemaining gs'
  = (Throw (ESessionNotFound roomCode), gs').
Proof.
  cbv zeta. unfold GameLogic.closeGameSession.
  destruct (gs !! roomCode) as [session|] eqn:Hs; cbn [fst snd].
  - rewrite bool_decide_eq_true_2 by (by eexists).
    split; [reflexivity|]. split; [apply lookup_delete_eq|].
    split; [intros other Hne; now apply lookup_delete_ne|].
    unfold GameLogic.processAnswer, GameLogic.getGameSession.
    rewrite !lookup_delete_eq. auto.
  - rewrite bool_decide_eq_false_2 by (intros [x Hx]; discriminate).
    split; [reflexivity|]. split; [exact Hs|]. split; [reflexivity|].
    unfold GameLogic.processAnswer, GameLogic.getGameSession. rewrite Hs. auto.
Qed.

(** The score map that [initializeGame] builds. *)
Lemma initial_scores_get (players : list PlayerRef) (acc : JS.Map Z) (p : string) :
  JS.Map_get p
    (foldl (fun scores player => JS.Map_set (ref_id player) 0 scores) acc players)
  = if bool_decide (p ∈ ref_id <$> players) then Some 0 else JS.Map_get p acc.
Proof.
  revert acc. induction players as [|q players IH]; intros acc; cbn [foldl].
  - rewrite bool_decide_eq_false_2 by set_solver. reflexivity.
  - rewrite IH, fmap_cons.
    destruct (decide (p ∈ ref_id <$> players)) as [Hin|Hin].
    + rewrite !bool_decide_eq_true_2 by set_solver. reflexivity.
    + rewrite (bool_decide_eq_false_2 _ Hin).
      destruct (decide (ref_id q = p)) as [<-|Hne].
      * rewrite bool_decide_eq_true_2 by set_solver. apply Map_get_set_eq.
      * rewrite bool_decide_eq_false_2 by set_solver. now apply Map_get_set_ne.
Qed.

(** X7: [initializeGame] ends as the generation of the question set does.
    When that returns, the session is stored under the room code, where it
    replaces any session that was there; it is in the state [starting] with
    an empty history and no current question, it has the questions
    generated, as many as its settings ask for, and it gives the score 0 to
    exactly the players of the roster it was given.  When the generation
    throws, [initializeGame] throws the same error, and when it does not
    return, neither does [initializeGame]: in both cases the store of
    sessions is what it was. *)
Theorem initializeGame_fresh_session
    (oracle : QuestionBank.Oracle) (roomCode : string) (players : list PlayerRef)
    (gameSettings : GameLogic.GameSettings) (gs : GameLogic.Store) :
  let settings := GameLogic.session_settings gameSettings in
  match GameLogic.generateQuestionSet oracle settings with
  | Ok questions =>
      exists session,
        GameLogic.initializeGame oracle roomCode players gameSettings gs
        = (Ok session, <[roomCode := session]> gs) /\
        GameLogic.settings session = settings /\
        GameLogic.questions session = questions /\
        length questions = GameLogic.totalQuestions settings /\
        (0 < GameLogic.totalQuestions settings)%nat /\
        GameLogic.status session = GameLogic.starting /\
        GameLogic.players session = players /\
        GameLogic.roundResults session = [] /\
        GameLogic.currentQuestion session = None /\
        forall p,
          JS.Map_get p (GameLogic.playerScores session)
          = if bool_decide (p ∈ ref_id <$> players) then Some 0 else None
  | Throw e =>
      GameLogic.initializeGame oracle roomCode players gameSettings gs = (Throw e, gs)
  | Diverge =>
      GameLogic.initializeGame oracle roomCode players gameSettings gs = (Diverge, gs)
  end.
Proof.
  cbv zeta. unfold GameLogic.initializeGame.
  destruct (GameLogic.generateQuestionSet oracle (GameLogic.session_settings gameSettings))
    as [questions|e|] eqn:Hq; [|reflexivity..].
  eexists. split; [reflexivity|]. cbn.
  split; [reflexivity|]. split; [reflexivity|].
  split; [exact (getQuestionSet_length _ _ _ _ _ Hq)|].
  split; [destruct (GameLogic.arg_totalQuestions gameSettings) as [[|n]|]; cbn; lia|].
  repeat (split; [reflexivity|]).
  intros p. apply initial_scores_get.
Qed.

(* ===================================================================== *)
(** ** Rankings *)
(* ===================================================================== *)

Section SortFacts.
Context {A : Type} (cmp : A -> A -> Z).

Local Abbreviation precedes := (JS.precedes cmp).

Lemma sort_insert_perm (x : A) (l : list A) : JS.sort_insert cmp x l ≡ₚ x :: l.
Proof.
  induction l as [|y l IH]; simpl; [reflexivity|].
  destruct (0 <? cmp x y); [|reflexivity].
  rewrite IH. apply Permutation_swap.
Qed.

Lemma sort_perm (l : list A) : JS.sort cmp l ≡ₚ l.
Proof.
  induction l as [|x l IH]; simpl; [reflexivity|].
  rewrite sort_insert_perm. now rewrite IH.
Qed.

Hypothesis cmp_total : forall a b, 0 < cmp a b -> cmp b a <= 0.

Lemma sort_insert_sorted (x : A) (l : list A) :
  Sorted precedes l -> Sorted precedes (JS.sort_insert cmp x l).
Proof.
  induction l as [|y l IH]; simpl; intros Hs.
  - repeat constructor.
  - destruct (0 <? cmp x y) eqn:E.
    + apply Z.ltb_lt in E. inversion Hs as [|? ? Hs' Hhd]; subst.
      constructor; [now apply IH|].
      destruct l as [|z l]; simpl.
      * constructor. now apply cmp_total.
      * destruct (0 <? cmp x z); constructor.
        -- now inversion Hhd.
        -- now apply cmp_total.
    + apply Z.ltb_ge in E. constructor; [exact Hs|]. now constructor.
Qed.

Lemma sort_sorted (l : list A) : Sorted precedes (JS.sort cmp l).
Proof.
  induction l as [|x l IH]; simpl; [constructor|]. now apply sort_insert_sorted.
Qed.
End SortFacts.

Lemma StronglySorted_lookup {A} (R : relation A) (l : list A) (i j : nat) (a b : A) :
  StronglySorted R l -> l !! i = Some a -> l !! j = Some b -> (i < j)%nat -> R a b.
Proof.
  intros Hs. revert i j. induction Hs as [|x l Hs IH Hall]; intros i j Hi Hj Hij.
  - discriminate.
  - destruct j as [|j]; [lia|]. destruct i as [|i]; simpl in *.
    + injection Hi as <-. rewrite Forall_forall in Hall. apply Hall.
      eapply list_elem_of_lookup_2. exact Hj.
    + apply (IH i j Hi Hj). lia.
Qed.

Lemma getOverallRanking_unfold (session : GameLogic.GameSession) :
  GameLogic.getOverallRanking session
  = imap (fun index '(playerId, playerName, totalScore) =>
            {| GameLogic.or_playerId := playerId;
               GameLogic.or_playerName := playerName;
               GameLogic.or_totalScore := totalScore;
               GameLogic.or_rank := Z.of_nat index + 1 |})
         (JS.sort (fun a b => b.2 - a.2) (GameLogic.ranking_entries session)).
Proof. reflexivity. Qed.

Lemma Sorted_weaken {A} (R1 R2 : relation A) (l : list A) :
  (forall a b, R1 a b -> R2 a b) -> Sorted R1 l -> Sorted R2 l.
Proof.
  intros Himp Hs. induction Hs as [|x l Hs IH Hhd]; constructor; [exact IH|].
  destruct Hhd; constructor. now apply Himp.
Qed.

Lemma overall_sorted (session : GameLogic.GameSession) :
  StronglySorted (fun a b : string * string * Z => b.2 <= a.2)
    (JS.sort (fun a b => b.2 - a.2) (GameLogic.ranking_entries session)).
Proof.
  assert (Htrans : Transitive (fun a b : string * string * Z => b.2 <= a.2))
    by (intros a b c H1 H2; lia).
  apply (@Sorted_StronglySorted _ _ Htrans).
  apply (Sorted_weaken (JS.precedes (fun a b : string * string * Z => b.2 - a.2))).
  - intros a b. unfold JS.precedes. lia.
  - apply sort_sorted. intros a b. lia.
Qed.

Lemma overallRanking_perm (session : GameLogic.GameSession) :
  (fun r => (GameLogic.or_playerId r, GameLogic.or_totalScore r))
    <$> GameLogic.getOverallRanking session
  ≡ₚ JS.Map_entries (GameLogic.playerScores session).
Proof.
  rewrite getOverallRanking_unfold, fmap_imap.
  rewrite (imap_ext _ (fun _ (e : string * string * Z) => (e.1.1, e.2)))
    by (intros i [[??]?] _; reflexivity).
  rewrite (imap_const (fun e : string * string * Z => (e.1.1, e.2))).
  rewrite sort_perm. unfold GameLogic.ranking_entries.
  rewrite <- list_fmap_compose.
  induction (JS.Map_entries (GameLogic.playerScores session)) as [|[??] l IH];
    [reflexivity|].
  rewrite fmap_cons. cbn. now rewrite IH.
Qed.

Lemma overallRanking_rank (session : GameLogic.GameSession) (i : nat)
    (r : GameLogic.OverallRank) :
  GameLogic.getOverallRanking session !! i = Some r ->
  GameLogic.or_rank r = Z.of_nat i + 1.
Proof.
  rewrite getOverallRanking_unfold, list_lookup_imap.
  destruct (_ !! i) as [[[??]?]|]; [|discriminate].
  intros [= <-]. reflexivity.
Qed.

Lemma overallRanking_order (session : GameLogic.GameSession) (i j : nat)
    (a b : GameLogic.OverallRank) :
  (i < j)%nat ->
  GameLogic.getOverallRanking session !! i = Some a ->
  GameLogic.getOverallRanking session !! j = Some b ->
  GameLogic.or_totalScore b <= GameLogic.or_totalScore a.
Proof.
  intros Hij. rewrite getOverallRanking_unfold, !list_lookup_imap.
  destruct (_ !! i) as [[[ia na] sa]|] eqn:Hi; [|discriminate].
  destruct (_ !! j) as [[[ib nb] sb]|] eqn:Hj; [|discriminate].
  intros [= <-] [= <-]. cbn.
  apply (StronglySorted_lookup _ _ i j _ _ (overall_sorted session) Hi Hj Hij).
Qed.

Lemma Map_get_elem_of {V} (m : JS.Map V) (k : string) (v : V) :
  JS.Map_get k m = Some v -> (k, v) ∈ m.
Proof.
  induction m as [|[k0 v0] m IH]; simpl; [discriminate|].
  destruct (bool_decide (k0 = k)) eqn:E.
  - apply bool_decide_eq_true_1 in E. intros [= ->]. subst. left.
  - intros H. right. now apply IH.
Qed.

(** X8: the overall ranking lists every entry of the score map exactly once,
    gives the ranks 1, 2, ... in order, and never puts a player above a
    player with a higher score. *)
Theorem getOverallRanking_sorted (session : GameLogic.GameSession) :
  let ranking := GameLogic.getOverallRanking session in
  (fun r => (GameLogic.or_playerId r, GameLogic.or_totalScore r)) <$> ranking
    ≡ₚ JS.Map_entries (GameLogic.playerScores session) /\
  (forall i r, ranking !! i = Some r -> GameLogic.or_rank r = Z.of_nat i + 1) /\
  (forall i j a b, (i < j)%nat -> ranking !! i = Some a -> ranking !! j = Some b ->
     GameLogic.or_totalScore b <= GameLogic.or_totalScore a).
Proof.
  cbv zeta. split; [apply overallRanking_perm|]. split.
  - apply overallRanking_rank.
  - apply overallRanking_order.
Qed.

(** X9: [getFinalResults] on an existing session marks it finished and
    returns the round history as it is; the winner is the first line of the
    overall ranking, and no player of the score map has more points than the
    winner; there is no winner only when the score map is empty. *)
Theorem getFinalResults_winner_has_top_score
    (now : Z) (roomCode : string) (gs : GameLogic.Store)
    (session : GameLogic.GameSession) :
  gs !! roomCode = Some session ->
  exists results session',
    GameLogic.getFinalResults now roomCode gs
    = (Ok results, <[roomCode := session']> gs) /\
    GameLogic.status session' = GameLogic.finished /\
    GameLogic.roundHistory results = GameLogic.roundResults session /\
    GameLogic.fr_totalQuestions results = length (GameLogic.questions session) /\
    (forall p score,
       JS.Map_get p (GameLogic.playerScores session) = Some score ->
       exists w, GameLogic.winner results = Some w /\
                 GameLogic.or_rank w = 1 /\
                 score <= GameLogic.or_totalScore w) /\
    (GameLogic.winner results = None <-> GameLogic.playerScores session = []).
Proof.
  intros Hs. unfold GameLogic.getFinalResults, GameLogic.getGameSession.
  rewrite Hs.
  assert (Hrank : GameLogic.getOverallRanking
                    (GameLogic.set_status session GameLogic.finished)
                  = GameLogic.getOverallRanking session) by reflexivity.
  eexists _, _. split; [reflexivity|].
  cbn [GameLogic.winner GameLogic.roundHistory GameLogic.fr_totalQuestions
       GameLogic.status GameLogic.set_status GameLogic.set_round
       GameLogic.roundResults GameLogic.questions].
  rewrite Hrank.
  split; [reflexivity|]. split; [reflexivity|]. split; [reflexivity|].
  split.
  - intros p score Hget. apply Map_get_elem_of in Hget.
    rewrite <- (overallRanking_perm session) in Hget.
    apply list_elem_of_fmap in Hget as (r & Hr & Hin).
    apply list_elem_of_lookup in Hin as [j Hj].
    injection Hr as -> ->.
    destruct (GameLogic.getOverallRanking session !! 0%nat) as [w|] eqn:Hw.
    + exists w. rewrite head_lookup. split; [exact Hw|].
      split; [apply (overallRanking_rank _ _ _ Hw)|].
      destruct j as [|j]; [rewrite Hw in Hj; injection Hj as ->; lia|].
      apply (overallRanking_order session 0 (S j) w r ltac:(lia) Hw Hj).
    + apply lookup_ge_None in Hw. apply lookup_lt_Some in Hj. lia.
  - rewrite head_None. split.
    + intros Hnil. pose proof (overallRanking_perm session) as Hp.
      rewrite Hnil in Hp. symmetry in Hp. now apply Permutation_nil_r in Hp.
    + intros Hnil. rewrite getOverallRanking_unfold.
      unfold GameLogic.ranking_entries. rewrite Hnil. reflexivity.
Qed.

Lemma getFinalResults_winner_witness :
  exists results session',
    GameLogic.getFinalResults 9000 Scenario.room
      (Scenario.playing_store (Scenario.mkQuestion 100 "hard"))
    = (Ok results, <[Scenario.room := session']>
                     (Scenario.playing_store (Scenario.mkQuestion 100 "hard"))) /\
    GameLogic.status session' = GameLogic.finished.
Proof.
  destruct (getFinalResults_winner_has_top_score 9000 Scenario.room
              (Scenario.playing_store (Scenario.mkQuestion 100 "hard"))
              (Scenario.playing_session (Scenario.mkQuestion 100 "hard"))
              ltac:(vm_compute; reflexivity))
    as (results & session' & H1 & H2 & _).
  exists results, session'. auto.
Defined.

(* ===================================================================== *)
(** ** Bounds of the two scoring functions *)
(* ===================================================================== *)

(** X10: inside the time window the live scoring function gives at least
    the base points of the difficulty and at most one and a half times
    them: 80..120 for easy, 100..150 for medium, 130..195 for hard. *)
Theorem calculateQuestionPoints_bounds_in_window
    (timeRemaining maxTime : Q) (responseTime : Z) (difficulty : string) :
  (0 < maxTime)%Q -> (0 <= timeRemaining)%Q -> (timeRemaining <= maxTime)%Q ->
  let base :=
    JS.Math_round (100 * default 1.0%Q (PlayerManager.difficultyMultipliers difficulty)) in
  let points :=
    GameLogic.calculateQuestionPoints timeRemaining maxTime responseTime difficulty in
  (base = 80 \/ base = 100 \/ base = 130) /\
  base <= points /\ 2 * points <= 3 * base.
Proof.
  intros Hm H0 H1. cbv zeta.
  destruct (base_points_cases difficulty) as (b & h & Hb & Hh & Hcases & Hround).
  cbv zeta in Hb, Hh. rewrite Hround.
  split; [lia|].
  destruct (calculateQuestionPoints_in_window timeRemaining maxTime responseTime
              difficulty b h Hm H0 H1 Hb Hh ltac:(lia) ltac:(lia)) as [-> Hbonus].
  lia.
Qed.

Lemma calculateQuestionPoints_bounds_witness :
  80 <= GameLogic.calculateQuestionPoints 7 20 3000 "easy"
  /\ 2 * GameLogic.calculateQuestionPoints 7 20 3000 "easy" <= 3 * 80.
Proof.
  refine (proj2 (calculateQuestionPoints_bounds_in_window 7 20 3000 "easy" _ _ _));
    vm_compute; (reflexivity || discriminate).
Defined.

(** X11: the roster-level scoring function never returns less than the base
    points of the difficulty, whatever the time remaining (also negative),
    the time limit and the streak. *)
Theorem calculatePoints_at_least_base
    (timeRemaining maxTime : Q) (streak : Z) (difficulty : string) :
  let base :=
    JS.Math_round (100 * default 1.0%Q (PlayerManager.difficultyMultipliers difficulty)) in
  80 <= base /\
  base <= PlayerManager.calculatePoints timeRemaining maxTime streak difficulty.
Proof.
  cbv zeta.
  destruct (base_points_cases difficulty) as (b & h & Hb & _ & Hcases & Hround).
  cbv zeta in Hb. rewrite Hround. split; [lia|].
  unfold PlayerManager.calculatePoints, PlayerManager.scoringConfig_correctAnswer,
    PlayerManager.scoringConfig_timeBonus.
  cbv zeta.
  set (base := JS.mul 100 _) in *.
  assert (HbQ : (0 < inject_Z b)%Q)
    by (change 0%Q with (inject_Z 0); rewrite <- Zlt_Qlt; lia).
  (* the points after the speed bonus are at least the base points *)
  set (points := if Qltb 0 timeRemaining && Qltb 0 maxTime then _ else _).
  assert (Hpoints : (inject_Z b <= points)%Q).
  { subst points.
    destruct (Qltb 0 timeRemaining) eqn:Ht; destruct (Qltb 0 maxTime) eqn:Hm;
      cbn [andb]; try (rewrite Hb; apply Qle_refl).
    unfold Qltb in Ht, Hm. apply negb_true_iff in Ht, Hm.
    assert (0 < timeRemaining)%Q as Ht'.
    { apply Qnot_le_lt. intros H. apply Qle_bool_iff in H. congruence. }
    assert (0 < maxTime)%Q as Hm'.
    { apply Qnot_le_lt. intros H. apply Qle_bool_iff in H. congruence. }
    assert (Hbonus : 0 <= JS.Math_round (JS.mul 50 (JS.div timeRemaining maxTime))).
    { rewrite <- (Math_round_Z 0). apply Math_round_mono.
      unfold JS.mul, JS.div. apply double_nonneg.
      apply Qmult_le_0_compat; [discriminate|]. apply double_nonneg.
      apply Qle_shift_div_l; [exact Hm'|]. rewrite Qmult_0_l. now apply Qlt_le_weak. }
    assert (HbonusQ : (0 <= inject_Z (JS.Math_round (JS.mul 50 (JS.div timeRemaining maxTime))))%Q)
      by (change 0%Q with (inject_Z 0); rewrite <- Zle_Qle; exact Hbonus).
    unfold JS.add.
    apply Qle_trans with (JS.double (inject_Z b));
      [rewrite double_Z by lia; apply Qle_refl|].
    apply double_mono; lra. }
  destruct (3 <=? streak) eqn:Hs.
  - rewrite Math_round_Z. apply Z.leb_le in Hs.
    rewrite <- (Math_round_Z b) at 1. apply Math_round_mono.
    unfold JS.mul.
    apply Qle_trans with (JS.double (inject_Z b));
      [rewrite double_Z by lia; apply Qle_refl|].
    assert (Hone : (1 <= JS.add 1 (Qmin (JS.div (inject_Z streak) 10) (JS.lit 0.5)))%Q).
    { unfold JS.add.
      apply Qle_trans with (JS.double 1); [vm_compute; discriminate|].
      apply double_mono; [discriminate|].
      assert (0 <= Qmin (JS.div (inject_Z streak) 10) (JS.lit 0.5))%Q; [|lra].
      unfold Qmin. destruct (Qle_bool _ _); [|vm_compute; discriminate].
      unfold JS.div. apply double_nonneg.
      apply Qle_shift_div_l; [reflexivity|]. rewrite Qmult_0_l.
      change 0%Q with (inject_Z 0). rewrite <- Zle_Qle. lia. }
    apply double_mono; [lra|nra].
  - rewrite <- (Math_round_Z b) at 1. now apply Math_round_mono.
Qed.

(* ===================================================================== *)
(** ** The two answer checks *)
(* ===================================================================== *)

(** X12: [GameLogic.checkAnswer] and [QuestionBank.validateAnswer] judge
    every answer that is not a number alike; on a number the first always
    says wrong, and the second compares its decimal form. *)
Theorem checkAnswer_validateAnswer_agree_off_numbers
    (q : QuestionBank.Question) (answer : JS.Value) :
  match answer with
  | JS.VNum n =>
      GameLogic.checkAnswer q answer = false /\
      QuestionBank.validateAnswer q answer
      = bool_decide (JS.Number_toString n
                     = JS.trim (JS.toLowerCase (QuestionBank.correctAnswer q)))
  | _ => GameLogic.checkAnswer q answer = QuestionBank.validateAnswer q answer
  end.
Proof.
  destruct answer as [n|s|b| |]; [split; reflexivity|..];
    unfold GameLogic.checkAnswer, QuestionBank.validateAnswer, JS.strict_eq;
    cbn [GameLogic.checkAnswer_normalizeAnswer
         QuestionBank.validateAnswer_normalizeAnswer JS.String_of];
    apply bool_decide_ext; (split; [intros [= H]; exact H|intros H; congruence]).
Qed.

(* ===================================================================== *)
(** ** The player store *)
(* ===================================================================== *)


(** X14: [createPlayer] and [removePlayer] are inverse on a free connection:
    creating a player with a valid name and removing it gives back the
    store, and the player that [getPlayer] finds in between is the one
    returned, with every counter at 0 and the trimmed name. *)
Theorem createPlayer_removePlayer_round_trip
    (socketId playerName : string) (isHost : bool) (players : PlayerManager.Store) :
  PlayerManager.isValidPlayerName playerName = true ->
  players !! socketId = None ->
  exists player players',
    PlayerManager.createPlayer socketId playerName isHost players
    = (Ok player, players') /\
    PlayerManager.getPlayer socketId players' = Some player /\
    PlayerManager.id player = socketId /\
    PlayerManager.name player = JS.trim playerName /\
    PlayerManager.isHost player = isHost /\
    (PlayerManager.score player, PlayerManager.streak player,
     PlayerManager.bestStreak player, PlayerManager.correctAnswers player,
     PlayerManager.wrongAnswers player) = (0, 0, 0, 0, 0) /\
    (forall other, other <> socketId -> players' !! other = players !! other) /\
    PlayerManager.removePlayer socketId players' = (Some player, players).
Proof.
  intros Hvalid Hfree. unfold PlayerManager.createPlayer.
  rewrite Hvalid. cbn [negb].
  rewrite bool_decide_eq_false_2 by (rewrite Hfree; intros [x Hx]; discriminate).
  eexists _, _. split; [reflexivity|].
  unfold PlayerManager.getPlayer, PlayerManager.removePlayer.
  rewrite lookup_insert_eq. cbn.
  repeat split.
  - intros other Hne. now apply lookup_insert_ne.
  - f_equal. now apply delete_insert_id.
Qed.

Lemma createPlayer_removePlayer_witness :
  exists player players',
    PlayerManager.createPlayer "s1" "  Ana_01 " false ∅ = (Ok player, players') /\
    PlayerManager.name player = "Ana_01" /\
    PlayerManager.removePlayer "s1" players' = (Some player, ∅).
Proof.
  destruct (createPlayer_removePlayer_round_trip "s1" "  Ana_01 " false ∅)
    as (player & players' & H1 & _ & _ & H2 & _ & _ & _ & H3).
  - vm_compute; reflexivity.
  - apply lookup_empty.
  - exists player, players'. split; [exact H1|]. split; [|exact H3].
    rewrite H2. vm_compute; reflexivity.
Defined.

(** X15: [removePlayer] is idempotent: the second removal of the same
    identity returns [null] and leaves the store of the first; the other
    players are never touched. *)
Theorem removePlayer_idempotent (playerId : string) (players : PlayerManager.Store) :
  let once := (PlayerManager.removePlayer playerId players).2 in
  (PlayerManager.removePlayer playerId players).1 = players !! playerId /\
  once !! playerId = None /\
  (forall other, other <> playerId -> once !! other = players !! other) /\
  PlayerManager.removePlayer playerId once = (None, once).
Proof.
  cbv zeta. unfold PlayerManager.removePlayer.
  destruct (players !! playerId) as [player|] eqn:Hp; cbn [fst snd].
  - split; [reflexivity|]. split; [apply lookup_delete_eq|].
    split; [intros other Hne; now apply lookup_delete_ne|].
    now rewrite lookup_delete_eq.
  - split; [reflexivity|]. split; [exact Hp|]. split; [reflexivity|].
    now rewrite Hp.
Qed.

(** X16: the accuracy that [calculateAccuracy] returns for a player whose
    answer counters are not negative is a whole percentage, between 0 and
    100.  It is 0 for a player without answers and for a player without a
    correct answer, and 100 for a player whose answers are all correct. *)
Theorem calculateAccuracy_is_a_percentage (player : PlayerManager.Player) :
  0 <= PlayerManager.correctAnswers player ->
  0 <= PlayerManager.wrongAnswers player ->
  0 <= PlayerManager.calculateAccuracy player <= 100 /\
  (PlayerManager.correctAnswers player + PlayerManager.wrongAnswers player = 0 ->
   PlayerManager.calculateAccuracy player = 0) /\
  (PlayerManager.correctAnswers player = 0 ->
   PlayerManager.calculateAccuracy player = 0) /\
  (PlayerManager.wrongAnswers player = 0 -> 0 < PlayerManager.correctAnswers player ->
   PlayerManager.calculateAccuracy player = 100).
Proof.
  intros Hc Hw. unfold PlayerManager.calculateAccuracy.
  set (c := PlayerManager.correctAnswers player) in *.
  set (w := PlayerManager.wrongAnswers player) in *.
  destruct (c + w =? 0) eqn:E.
  { apply Z.eqb_eq in E. repeat split; intros; lia. }
  apply Z.eqb_neq in E.
  assert (Hpos : (0 < inject_Z (c + w))%Q)
    by (change 0%Q with (inject_Z 0); rewrite <- Zlt_Qlt; lia).
  assert (Hc0 : (0 <= inject_Z c)%Q)
    by (change 0%Q with (inject_Z 0); rewrite <- Zle_Qle; lia).
  assert (Hcw : (inject_Z c <= inject_Z (c + w))%Q) by (rewrite <- Zle_Qle; lia).
  destruct (div_in_unit _ _ Hpos Hc0 Hcw) as [Ha Hb].
  split; [|split; [|split]].
  - unfold JS.mul. split.
    + rewrite <- (Math_round_Z 0). apply Math_round_mono.
      apply double_nonneg. apply Qmult_le_0_compat; [exact Ha|discriminate].
    + apply Z.le_trans with (JS.Math_round (inject_Z 100));
        [|rewrite Math_round_Z; lia].
      apply Math_round_mono.
      apply Qle_trans with (JS.double (inject_Z 100));
        [|rewrite double_Z by lia; apply Qle_refl].
      apply double_mono; [apply Qmult_le_0_compat; [exact Ha|discriminate]|].
      change (inject_Z 100) with 100%Q. lra.
  - intros H. lia.
  - intros H. rewrite H.
    assert (E0 : (JS.div (inject_Z 0) (inject_Z (0 + w)) == 0)%Q).
    { unfold JS.div. rewrite double_0; [reflexivity|]. unfold Qdiv. ring. }
    rewrite E0. vm_compute; reflexivity.
  - intros H Hcp. rewrite H, Z.add_0_r.
    assert (E1 : (JS.div (inject_Z c) (inject_Z c) == 1)%Q).
    { unfold JS.div.
      assert (Eq1 : (inject_Z c / inject_Z c == inject_Z 1)%Q).
      { change (inject_Z 1) with 1%Q. field.
        change 0%Q with (inject_Z 0). rewrite inject_Z_injective. lia. }
      rewrite Eq1, double_Z by lia. reflexivity. }
    rewrite E1. vm_compute; reflexivity.
Qed.

(** At two correct answers out of three the accuracy is 67. *)
Lemma calculateAccuracy_is_a_percentage_witness :
  let player := {|
    PlayerManager.id := "s1"; PlayerManager.name := "Ana";
    PlayerManager.isHost := false; PlayerManager.score := 250;
    PlayerManager.correctAnswers := 2; PlayerManager.wrongAnswers := 1;
    PlayerManager.streak := 0; PlayerManager.bestStreak := 2;
    PlayerManager.averageResponseTime := 4000;
    PlayerManager.gameStats := {|
      PlayerManager.totalQuestions := 3;
      PlayerManager.correctByCategory := ∅;
      PlayerManager.responseTimes := [3000; 4000; 5000];
      PlayerManager.difficultyPerformance := ∅ |} |} in
  PlayerManager.calculateAccuracy player = 67 /\
  0 <= PlayerManager.calculateAccuracy player <= 100.
Proof.
  cbv zeta. split; [vm_compute; reflexivity|].
  apply calculateAccuracy_is_a_percentage; cbn; lia.
Defined.

Lemma ranking_sorted (l : list PlayerManager.Player) :
  StronglySorted
    (fun a b => PlayerManager.score b < PlayerManager.score a \/
                (PlayerManager.score b = PlayerManager.score a /\
                 PlayerManager.averageResponseTime a
                 <= PlayerManager.averageResponseTime b))
    (JS.sort PlayerManager.ranking_cmp l).
Proof.
  assert (Htrans : Transitive
            (fun a b => PlayerManager.score b < PlayerManager.score a \/
                        (PlayerManager.score b = PlayerManager.score a /\
                         PlayerManager.averageResponseTime a
                         <= PlayerManager.averageResponseTime b)))
    by (intros a b c H1 H2; lia).
  apply (@Sorted_StronglySorted _ _ Htrans).
  apply (Sorted_weaken (JS.precedes PlayerManager.ranking_cmp)).
  - intros a b. unfold JS.precedes, PlayerManager.ranking_cmp.
    destruct (PlayerManager.score b =? PlayerManager.score a) eqn:E; cbn [negb].
    + apply Z.eqb_eq in E. lia.
    + apply Z.eqb_neq in E. lia.
  - apply sort_sorted. intros a b. unfold PlayerManager.ranking_cmp.
    destruct (PlayerManager.score b =? PlayerManager.score a) eqn:E; cbn [negb].
    + apply Z.eqb_eq in E. rewrite (proj2 (Z.eqb_eq _ _) (eq_sym E)). cbn. lia.
    + apply Z.eqb_neq in E.
      rewrite (proj2 (Z.eqb_neq _ _) (fun H => E (eq_sym H))). cbn. lia.
Qed.

(** X17: [getPlayerRanking] has one line for every identity of the list
    it is given that has a player: an unknown identity is skipped, and an
    identity given twice is ranked twice.  The ranks are 1, 2, ... in
    order, a player with a higher score always comes first, and at equal
    scores the lower average response time comes first; the accuracy
    attached to a line is the one that [calculateAccuracy] gives for its
    player. *)
Theorem getPlayerRanking_sorted
    (playerIds : list string) (players : PlayerManager.Store) :
  let ranking := PlayerManager.getPlayerRanking playerIds players in
  PlayerManager.ranked <$> ranking
    ≡ₚ omap (fun id => PlayerManager.getPlayer id players) playerIds /\
  (forall i r, ranking !! i = Some r ->
     PlayerManager.rank r = Z.of_nat i + 1 /\
     PlayerManager.accuracy r = PlayerManager.calculateAccuracy (PlayerManager.ranked r)) /\
  (forall i j a b, (i < j)%nat -> ranking !! i = Some a -> ranking !! j = Some b ->
     let pa := PlayerManager.ranked a in
     let pb := PlayerManager.ranked b in
     PlayerManager.score pb < PlayerManager.score pa \/
     (PlayerManager.score pb = PlayerManager.score pa /\
      PlayerManager.averageResponseTime pa <= PlayerManager.averageResponseTime pb)).
Proof.
  cbv zeta. unfold PlayerManager.getPlayerRanking.
  set (found := omap _ playerIds).
  split; [|split].
  - rewrite fmap_imap.
    rewrite (imap_ext _ (fun _ (p : PlayerManager.Player) => p))
      by (intros; reflexivity).
    rewrite (imap_const (fun p : PlayerManager.Player => p)), list_fmap_id.
    apply sort_perm.
  - intros i r. rewrite list_lookup_imap.
    destruct (_ !! i) as [p|]; [|discriminate]. intros [= <-]. split; reflexivity.
  - intros i j a b Hij. rewrite !list_lookup_imap.
    destruct (JS.sort _ found !! i) as [pa|] eqn:Hi; [|discriminate].
    destruct (JS.sort _ found !! j) as [pb|] eqn:Hj; [|discriminate].
    intros [= <-] [= <-]. cbn [PlayerManager.ranked].
    apply (StronglySorted_lookup _ _ i j _ _ (ranking_sorted found) Hi Hj Hij).
Qed.

(* ===================================================================== *)
(** ** The room store *)
(* ===================================================================== *)

Lemma list_find_ref_None (playerId : string) (l : list PlayerRef) :
  list_find (fun p => ref_id p = playerId) l = None <-> playerId ∉ ref_id <$> l.
Proof.
  rewrite list_find_None, Forall_forall. split.
  - intros H Hin. apply list_elem_of_fmap in Hin as (p & -> & Hp). now apply (H p).
  - intros H p Hp Heq. apply H. apply list_elem_of_fmap. eauto.
Qed.

(** A roster that was not full is within the capacity with one player
    more, and a shorter roster is within every capacity of a longer one. *)
Lemma within_capacity_admitted (n : nat) (maxPlayers : JS.Number) :
  JS.length_ge n maxPlayers = false ->
  RoomManager.within_capacity (S n) maxPlayers.
Proof.
  destruct maxPlayers as [q| | |]; cbn [JS.length_ge RoomManager.within_capacity];
    intros H; [|exact I|exact I|discriminate].
  right. assert (Hlt : (inject_Z (Z.of_nat n) < q)%Q).
  { apply Qnot_le_lt. intros Hle. apply Qle_bool_iff in Hle. congruence. }
  rewrite Nat2Z.inj_succ. unfold Z.succ. rewrite inject_Z_plus.
  change (inject_Z 1) with 1%Q. lra.
Qed.

Lemma within_capacity_shorter (n n' : nat) (maxPlayers : JS.Number) :
  (n' <= n)%nat ->
  RoomManager.within_capacity n maxPlayers ->
  RoomManager.within_capacity n' maxPlayers.
Proof.
  intros Hle. destruct maxPlayers as [q| | |]; cbn [RoomManager.within_capacity];
    try tauto; try lia.
  intros [->|H]; [left; lia|]. right.
  eapply Qle_lt_trans; [|exact H]. rewrite <- Zle_Qle. lia.
Qed.

(** A capacity that is a whole number is never exceeded. *)
Lemma within_capacity_whole (n : nat) (m : Z) :
  RoomManager.within_capacity n (JS.finite (inject_Z m)) ->
  Z.of_nat n <= Z.max 0 m.
Proof.
  cbn [RoomManager.within_capacity]. intros [->|H]; [lia|].
  change 1%Q with (inject_Z 1) in H. rewrite <- inject_Z_plus, <- Zlt_Qlt in H. lia.
Qed.

Lemma set_players_append_ok (room : RoomManager.Room) (player : PlayerRef)
    (scores : gmap string Z) :
  NoDup (ref_id <$> RoomManager.players room) ->
  JS.length_ge (length (RoomManager.players room)) (RoomManager.maxPlayers room)
  = false ->
  ~ is_Some (list_find (fun p => ref_id p = ref_id player) (RoomManager.players room)) ->
  RoomManager.room_ok
    (RoomManager.set_players room (RoomManager.players room ++ [player]) scores).
Proof.
  intros Hnd Hfull Hdup. unfold RoomManager.room_ok.
  cbn [RoomManager.players RoomManager.set_players RoomManager.maxPlayers]. split.
  - rewrite fmap_app. cbn [fmap list_fmap]. apply NoDup_app. split; [exact Hnd|].
    split; [|apply NoDup_singleton].
    intros x Hx Hx'. apply list_elem_of_singleton in Hx'. subst x.
    apply Hdup. destruct (list_find _ _) eqn:E; [by eexists|].
    apply list_find_ref_None in E. contradiction.
  - rewrite length_app. cbn [length]. rewrite Nat.add_1_r.
    now apply within_capacity_admitted.
Qed.

Lemma set_players_delete_ok (room : RoomManager.Room) (i : nat)
    (scores : gmap string Z) :
  RoomManager.room_ok room ->
  RoomManager.room_ok
    (RoomManager.set_players room (delete i (RoomManager.players room)) scores).
Proof.
  intros [Hnd Hcap]. unfold RoomManager.room_ok.
  cbn [RoomManager.players RoomManager.set_players RoomManager.maxPlayers]. split.
  - assert (Hsub : (ref_id <$> delete i (RoomManager.players room))
                    `sublist_of` (ref_id <$> RoomManager.players room))
      by (apply fmap_sublist, sublist_delete).
    exact (sublist_NoDup _ _ Hnd Hsub).
  - pose proof (sublist_length _ _ (sublist_delete (RoomManager.players room) i)).
    eapply within_capacity_shorter; eassumption.
Qed.

(** The capacity is not validated: in a room created with [maxPlayers: 2.5]
    the check [2 >= 2.5] is false and a third player is admitted; the
    fourth is refused. *)
Lemma room_of_capacity_2_5_holds_three :
  (fun r => (RoomManager.maxPlayers r, length (RoomManager.players r)))
    <$> Server.roomManager Scenario.crowded !! Scenario.room
  = Some (JS.finite 2.5, 3%nat).
Proof. vm_compute. reflexivity. Qed.

(** X18: [addPlayerToRoom] admits a player exactly when the room exists,
    its roster is not full and the player is not in it, and then the player
    is the last of the roster, with the score 0, and the roster still has
    no identity twice.  Full means [players.length >= maxPlayers], where
    [maxPlayers] is the number that the client gave and nobody validated:
    after an admission the roster is within a capacity that is a whole
    number, and it is below [maxPlayers + 1] for any other (a third player
    enters a room of capacity 2.5); a capacity that is not a number never
    makes a room full.  When the method throws (no such room, room full,
    player already in the room) the store is unchanged. *)
Theorem addPlayerToRoom_keeps_capacity
    (roomCode : string) (player : PlayerRef) (rooms : RoomManager.Store) :
  match RoomManager.addPlayerToRoom roomCode player rooms with
  | (Throw e, rooms') =>
      rooms' = rooms /\
      match rooms !! roomCode with
      | None => e = ERoomNotFound
      | Some room =>
          (e = ERoomFull /\
           JS.length_ge (length (RoomManager.players room))
             (RoomManager.maxPlayers room) = true)
          \/ (e = EAlreadyInRoom /\ ref_id player ∈ ref_id <$> RoomManager.players room)
      end
  | (Ok _, rooms') =>
      exists room room',
        rooms !! roomCode = Some room /\ rooms' = <[roomCode := room']> rooms /\
        RoomManager.players room' = RoomManager.players room ++ [player] /\
        RoomManager.gameState_scores room' !! ref_id player = Some 0 /\
        RoomManager.maxPlayers room' = RoomManager.maxPlayers room /\
        JS.length_ge (length (RoomManager.players room))
          (RoomManager.maxPlayers room) = false /\
        (ref_id player ∉ ref_id <$> RoomManager.players room) /\
        (NoDup (ref_id <$> RoomManager.players room) ->
         NoDup (ref_id <$> RoomManager.players room')) /\
        RoomManager.within_capacity (length (RoomManager.players room'))
          (RoomManager.maxPlayers room') /\
        (forall m : Z,
           RoomManager.maxPlayers room = JS.finite (inject_Z m) ->
           Z.of_nat (length (RoomManager.players room')) <= m)
  | (Diverge, _) => False
  end.
Proof.
  unfold RoomManager.addPlayerToRoom, RoomManager.getRoom.
  destruct (rooms !! roomCode) as [room|]; [|auto].
  destruct (JS.length_ge _ _) eqn:Hfull; [auto|].
  destruct (bool_decide (is_Some _)) eqn:Hdup.
  { apply bool_decide_eq_true_1 in Hdup. split; [reflexivity|]. right.
    split; [reflexivity|].
    destruct (decide (ref_id player ∈ ref_id <$> RoomManager.players room)) as [|Hn];
      [assumption|].
    apply list_find_ref_None in Hn. rewrite Hn in Hdup. now destruct Hdup. }
  apply bool_decide_eq_false_1 in Hdup.
  assert (Hnew : ref_id player ∉ ref_id <$> RoomManager.players room).
  { apply list_find_ref_None. destruct (list_find _ _); [|reflexivity].
    exfalso. apply Hdup. by eexists. }
  eexists room, _. split; [reflexivity|]. split; [reflexivity|].
  split; [reflexivity|]. split; [apply lookup_insert_eq|]. split; [reflexivity|].
  split; [exact Hfull|]. split; [exact Hnew|].
  cbn [RoomManager.players RoomManager.set_players RoomManager.maxPlayers].
  assert (Hlen : length (RoomManager.players room ++ [player])
                 = S (length (RoomManager.players room)))
    by (rewrite length_app; cbn; lia).
  rewrite Hlen.
  split; [|split; [now apply within_capacity_admitted|]].
  - intros Hnd. rewrite fmap_app. cbn [fmap list_fmap]. apply NoDup_app.
    split; [exact Hnd|]. split; [|apply NoDup_singleton].
    intros x Hx Hx'. apply list_elem_of_singleton in Hx'. now subst x.
  - intros m Hm. rewrite Hm in Hfull. cbn [JS.length_ge] in Hfull.
    assert (Hlt : (inject_Z (Z.of_nat (length (RoomManager.players room)))
                   < inject_Z m)%Q).
    { apply Qnot_le_lt. intros Hle. apply Qle_bool_iff in Hle. congruence. }
    rewrite <- Zlt_Qlt in Hlt. lia.
Qed.

Lemma filter_all {A} (P : A -> Prop) `{forall x, Decision (P x)} (l : list A) :
  Forall P l -> filter P l = l.
Proof.
  induction 1 as [|x l Hx Hl IH]; [reflexivity|].
  rewrite filter_cons_True by exact Hx. now rewrite IH.
Qed.

Lemma not_in_ids_Forall (playerId : string) (l : list PlayerRef) :
  playerId ∉ ref_id <$> l -> Forall (fun q => ref_id q <> playerId) l.
Proof.
  intros Hn. apply Forall_forall. intros q Hq Heq. apply Hn.
  apply list_elem_of_fmap. eauto.
Qed.

Lemma filter_ids_not_in (playerId : string) (l : list PlayerRef) :
  playerId ∉ ref_id <$> filter (fun q => ref_id q <> playerId) l.
Proof.
  intros Hin. apply list_elem_of_fmap in Hin as (q & -> & Hq).
  apply list_elem_of_filter in Hq as [Hne _]. now apply Hne.
Qed.

Lemma delete_found (playerId : string) (l : list PlayerRef) (i : nat) (p : PlayerRef) :
  NoDup (ref_id <$> l) ->
  list_find (fun q => ref_id q = playerId) l = Some (i, p) ->
  delete i l = filter (fun q => ref_id q <> playerId) l.
Proof.
  revert i. induction l as [|q l IH]; intros i Hn Hf; [discriminate|].
  rewrite fmap_cons in Hn. apply NoDup_cons in Hn as [Hq Hn].
  cbn in Hf. destruct (decide (ref_id q = playerId)) as [Heq|Hne].
  - injection Hf as <- <-. change (delete 0%nat (q :: l)) with l.
    rewrite filter_cons_False by (intros H; now apply H).
    symmetry. apply filter_all. apply not_in_ids_Forall. now rewrite <- Heq.
  - destruct (list_find _ l) as [[i' p']|] eqn:E; [|discriminate].
    injection Hf as <- <-. change (delete (S i') (q :: l)) with (q :: delete i' l).
    rewrite filter_cons_True by exact Hne. f_equal. now apply IH.
Qed.

(** X19: [removePlayerFromRoom] on a roster without duplicates removes the
    player and nobody else, keeping the order of the others; it returns
    whether the player was there, and it is idempotent: a second call
    returns [false] and changes nothing. *)
Theorem removePlayerFromRoom_idempotent
    (roomCode playerId : string) (rooms : RoomManager.Store) (room : RoomManager.Room) :
  rooms !! roomCode = Some room ->
  NoDup (ref_id <$> RoomManager.players room) ->
  let once := (RoomManager.removePlayerFromRoom roomCode playerId rooms).2 in
  (RoomManager.removePlayerFromRoom roomCode playerId rooms).1
    = bool_decide (playerId ∈ ref_id <$> RoomManager.players room) /\
  (exists room',
     once !! roomCode = Some room' /\
     RoomManager.players room'
       = filter (fun p => ref_id p <> playerId) (RoomManager.players room) /\
     RoomManager.maxPlayers room' = RoomManager.maxPlayers room) /\
  (forall other, other <> roomCode -> once !! other = rooms !! other) /\
  RoomManager.removePlayerFromRoom roomCode playerId once = (false, once).
Proof.
  intros Hroom Hnd. cbv zeta.
  assert (Hfirst :
    RoomManager.removePlayerFromRoom roomCode playerId rooms
    = match list_find (fun p => ref_id p = playerId) (RoomManager.players room) with
      | Some (playerIndex, _) =>
          (true,
           <[roomCode := RoomManager.set_players room
                           (delete playerIndex (RoomManager.players room))
                           (delete playerId (RoomManager.gameState_scores room))]>
             rooms)
      | None => (false, rooms)
      end).
  { unfold RoomManager.removePlayerFromRoom, RoomManager.getRoom.
    now rewrite Hroom. }
  rewrite Hfirst. clear Hfirst.
  destruct (list_find _ (RoomManager.players room)) as [[i p]|] eqn:Hfind; cbn [fst snd].
  - rewrite bool_decide_eq_true_2.
    2:{ destruct (decide (playerId ∈ ref_id <$> RoomManager.players room)) as [|Hn];
          [assumption|].
        apply list_find_ref_None in Hn. congruence. }
    split; [reflexivity|].
    rewrite (delete_found _ _ _ _ Hnd Hfind).
    split; [eexists; split; [apply lookup_insert_eq|split; reflexivity]|].
    split; [intros other Hne; now apply lookup_insert_ne|].
    unfold RoomManager.removePlayerFromRoom, RoomManager.getRoom.
    rewrite lookup_insert_eq. cbn [RoomManager.players RoomManager.set_players].
    now rewrite (proj2 (list_find_ref_None playerId _) (filter_ids_not_in playerId _)).
  - pose proof (proj1 (list_find_ref_None _ _) Hfind) as Hn.
    rewrite bool_decide_eq_false_2 by exact Hn.
    split; [reflexivity|].
    split; [exists room; split; [exact Hroom|split; [|reflexivity]]|].
    { symmetry. apply filter_all. now apply not_in_ids_Forall. }
    split; [reflexivity|].
    unfold RoomManager.removePlayerFromRoom, RoomManager.getRoom.
    now rewrite Hroom, Hfind.
Qed.

Lemma removePlayerFromRoom_witness :
  let rooms := Server.roomManager
                 (Server.run (Scenario.lobby None 0.5 "hard") Server.initial) in
  let once := (RoomManager.removePlayerFromRoom Scenario.room Scenario.guest rooms).2 in
  RoomManager.removePlayerFromRoom Scenario.room Scenario.guest once = (false, once).
Proof.
  cbv zeta.
  destruct (Server.roomManager
              (Server.run (Scenario.lobby None 0.5 "hard") Server.initial)
              !! Scenario.room) as [room|] eqn:Hroom; [|vm_compute in Hroom; discriminate].
  refine (proj2 (proj2 (proj2 (removePlayerFromRoom_idempotent Scenario.room
                                 Scenario.guest _ room Hroom _)))).
  vm_compute in Hroom. injection Hroom as <-. cbn.
  repeat constructor; set_solver.
Defined.

(** X20: a code that [generateRoomCode] returns is one of the candidates
    drawn and is not the code of a live room, and it fails only when every
    candidate is taken; [createRoom] with such a code adds one room, in the
    state [waiting] with an empty roster, and keeps all the others. *)
Theorem generateRoomCode_fresh
    (candidates : list string) (rooms : RoomManager.Store) (hostId : string)
    (customSettings : RoomManager.CustomSettings) :
  match RoomManager.generateRoomCode candidates rooms with
  | None => forall c, c ∈ candidates -> is_Some (rooms !! c)
  | Some roomCode =>
      roomCode ∈ candidates /\ rooms !! roomCode = None /\
      exists room rooms',
        RoomManager.createRoom roomCode hostId customSettings rooms = (Ok room, rooms') /\
        rooms' !! roomCode = Some room /\
        size rooms' = S (size rooms) /\
        (forall other, other <> roomCode -> rooms' !! other = rooms !! other) /\
        RoomManager.code room = roomCode /\
        RoomManager.players room = [] /\
        RoomManager.status room = RoomManager.waiting /\
        RoomManager.maxPlayers room
          = default (JS.finite 30) (RoomManager.arg_maxPlayers customSettings)
  end.
Proof.
  unfold RoomManager.generateRoomCode.
  destruct (list_find _ candidates) as [[i c]|] eqn:Hfind; cbn.
  - apply list_find_Some in Hfind as (Hi & Hfree & _).
    split; [eapply list_elem_of_lookup_2; exact Hi|]. split; [exact Hfree|].
    eexists _, _. split; [reflexivity|]. split; [apply lookup_insert_eq|].
    split; [now apply map_size_insert_None|].
    split; [intros other Hne; now apply lookup_insert_ne|].
    cbn. repeat split.
  - apply list_find_None in Hfind. rewrite Forall_forall in Hfind.
    intros c Hc. specialize (Hfind c Hc).
    destruct (rooms !! c); [by eexists|contradiction].
Qed.

(** X21: [updateRoomSettings] merges the new settings only while the room is
    waiting, and throws without any change otherwise; in no case does it
    change the capacity [room.maxPlayers] that [addPlayerToRoom] enforces,
    nor the roster: a new [maxPlayers] lands in [room.settings] only. *)
Theorem updateRoomSettings_keeps_capacity
    (roomCode : string) (newSettings : RoomManager.CustomSettings)
    (rooms : RoomManager.Store) (room : RoomManager.Room) :
  rooms !! roomCode = Some room ->
  let '(outcome, rooms') := RoomManager.updateRoomSettings roomCode newSettings rooms in
  exists room',
    rooms' !! roomCode = Some room' /\
    RoomManager.maxPlayers room' = RoomManager.maxPlayers room /\
    RoomManager.players room' = RoomManager.players room /\
    RoomManager.status room' = RoomManager.status room /\
    match RoomManager.status room with
    | RoomManager.waiting =>
        outcome = RoomManager.returns true /\
        RoomManager.settings room'
          = RoomManager.merge_settings (RoomManager.settings room) newSettings
    | _ => outcome = RoomManager.throws_game_in_progress /\ rooms' = rooms
    end.
Proof.
  intros Hroom. unfold RoomManager.updateRoomSettings, RoomManager.getRoom.
  rewrite Hroom. destruct (RoomManager.status room) eqn:Hst.
  - eexists. split; [apply lookup_insert_eq|]. cbn. repeat split.
  - exists room. repeat split; auto.
  - exists room. repeat split; auto.
Qed.

Lemma updateRoomSettings_witness :
  let rooms := Server.roomManager
                 (Server.run (Scenario.lobby None 0.5 "hard") Server.initial) in
  exists room',
    (RoomManager.updateRoomSettings Scenario.room Scenario.three_questions rooms).2
      !! Scenario.room = Some room' /\
    RoomManager.maxPlayers room' = JS.finite 30.
Proof.
  cbv zeta.
  destruct (Server.roomManager
              (Server.run (Scenario.lobby None 0.5 "hard") Server.initial)
              !! Scenario.room) as [room|] eqn:Hroom; [|vm_compute in Hroom; discriminate].
  pose proof (updateRoomSettings_keeps_capacity Scenario.room Scenario.three_questions
                _ room Hroom) as H.
  destruct (RoomManager.updateRoomSettings _ _ _) as [outcome rooms'].
  destruct H as (room' & H1 & H2 & _). exists room'. split; [exact H1|].
  rewrite H2. vm_compute in Hroom. injection Hroom as <-. reflexivity.
Defined.
Lemma Number_toString_inj (a b : Z) :
  JS.Number_toString a = JS.Number_toString b -> a = b.
Proof.
  unfold JS.Number_toString. intros H.
  assert (Hn : forall z, Z.to_int z <> Decimal.Pos Decimal.Nil /\
                         Z.to_int z <> Decimal.Neg Decimal.Nil).
  { intros [|p|p]; cbn; split; try discriminate;
      intros [= E]; now apply (DecimalPos.Unsigned.to_uint_nonnil p). }
  apply (f_equal NilZero.int_of_string) in H.
  rewrite !NilZero.isi in H by apply Hn.
  injection H as H. apply (f_equal Z.of_int) in H.
  now rewrite !DecimalZ.of_to in H.
Qed.

(* ===================================================================== *)
(** ** The question generators *)
(* ===================================================================== *)

Lemma offset_bound_pos (correct : Z) : 1 <= QuestionBank.offset_bound correct.
Proof. unfold QuestionBank.offset_bound. lia. Qed.

(** The loop of [generateWrongAnswers] keeps [distractors_of]; when it
    returns, there are [count] distractors (or those it started with). *)
Lemma generateWrongAnswers_loop_sound (correct : Z) (count : nat) (rs : list Q) :
  0 <= correct ->
  Forall QuestionBank.unit_interval rs ->
  forall wrongAnswers used vs result rest,
    QuestionBank.distractors_of correct wrongAnswers used vs ->
    QuestionBank.generateWrongAnswers_loop correct count wrongAnswers used rs
    = Some (result, rest) ->
    exists vs', QuestionBank.distractors_of correct result
                  ({[correct]} ∪ list_to_set vs') vs' /\
                length vs' = Nat.max count (length vs) /\
                exists consumed, rs = consumed ++ rest.
Proof.
  intros Hc Hrs. induction Hrs as [|r rs Hr Hrs IH];
    intros wrongAnswers used vs result rest Hinv Hrun.
  - cbn in Hrun. destruct Hinv as (Hwa & Hused & Hnd & Hnc & Hrange).
    destruct (bool_decide _) eqn:E; [discriminate|].
    apply bool_decide_eq_false_1 in E. injection Hrun as <- <-.
    exists vs. split; [repeat split; assumption|].
    rewrite Hwa, length_fmap in E. split; [lia|]. now exists [].
  - cbn [QuestionBank.generateWrongAnswers_loop] in Hrun.
    pose proof Hinv as (Hwa & Hused & Hnd & Hnc & Hrange).
    destruct (bool_decide (length wrongAnswers < count)%nat) eqn:E.
    2:{ apply bool_decide_eq_false_1 in E. injection Hrun as <- <-.
        exists vs. split; [repeat split; assumption|].
        rewrite Hwa, length_fmap in E. split; [lia|]. now exists []. }
    apply bool_decide_eq_true_1 in E.
    pose proof (offset_bound_pos correct) as Hm.
    pose proof (randomInt_at_range r (- QuestionBank.offset_bound correct)
                  (QuestionBank.offset_bound correct) Hr ltac:(lia)) as Hoff.
    set (offset := QuestionBank.randomInt_at r _ _) in *.
    set (wrong := Z.max 0 (correct + offset)) in *.
    destruct (bool_decide (wrong ∈ used)) eqn:Hin.
    + destruct (IH _ _ _ _ _ Hinv Hrun) as (vs' & H1 & H2 & consumed & ->).
      exists vs'. split; [exact H1|]. split; [exact H2|]. now exists (r :: consumed).
    + apply bool_decide_eq_false_1 in Hin.
      assert (Hinv' : QuestionBank.distractors_of correct
                        (wrongAnswers ++ [JS.Number_toString wrong])
                        ({[wrong]} ∪ used) (vs ++ [wrong])).
      { subst used. split; [|split; [|split; [|split]]].
        - rewrite Hwa, fmap_app. reflexivity.
        - rewrite list_to_set_app_L. set_solver.
        - apply NoDup_app. split; [exact Hnd|]. split; [|apply NoDup_singleton].
          intros x Hx Hx'. apply list_elem_of_singleton in Hx'. subst x.
          apply Hin. set_solver.
        - intros Hx. apply elem_of_app in Hx as [Hx|Hx]; [contradiction|].
          apply list_elem_of_singleton in Hx. apply Hin. set_solver.
        - apply Forall_app. split; [exact Hrange|]. constructor; [|constructor].
          unfold wrong. lia. }
      destruct (IH _ _ _ _ _ Hinv' Hrun) as (vs' & H1 & H2 & consumed & ->).
      exists vs'. split; [exact H1|]. rewrite length_app in H2. cbn in H2.
      rewrite Hwa, length_fmap in E.
      split; [lia|]. now exists (r :: consumed).
Qed.

Lemma generateWrongAnswers_sound (correct : Z) (count : nat) (rs rest : list Q)
    (wrongAnswers : list string) :
  0 <= correct ->
  Forall QuestionBank.unit_interval rs ->
  QuestionBank.generateWrongAnswers correct count rs = Some (wrongAnswers, rest) ->
  exists vs,
    wrongAnswers = JS.Number_toString <$> vs /\ length vs = count /\
    NoDup vs /\ (correct ∉ vs) /\
    Forall (fun v => Z.max 0 (correct - QuestionBank.offset_bound correct) <= v
                     <= correct + QuestionBank.offset_bound correct) vs /\
    exists consumed, rs = consumed ++ rest.
Proof.
  intros Hc Hrs Hrun. unfold QuestionBank.generateWrongAnswers in Hrun.
  destruct (generateWrongAnswers_loop_sound correct count rs Hc Hrs [] {[correct]} []
              wrongAnswers rest) as (vs & (H1 & _ & H3 & H4 & H5) & Hlen & Hcons).
  - repeat split; try constructor. set_solver. set_solver.
  - exact Hrun.
  - exists vs. rewrite Nat.max_0_r in Hlen. auto 10.
Qed.

(** X22: when [generateWrongAnswers(correct, count)] returns, for a correct
    value that is not negative, it returns exactly [count] distractors: the
    decimal forms of values that are pairwise distinct, different from the
    correct value, not negative and at most [max(1, floor(0.3 * correct))]
    away from it; the strings are pairwise distinct too. *)
Theorem generateWrongAnswers_returns_distinct_values
    (correct : Z) (count : nat) (rs rest : list Q) (wrongAnswers : list string) :
  0 <= correct ->
  Forall QuestionBank.unit_interval rs ->
  QuestionBank.generateWrongAnswers correct count rs = Some (wrongAnswers, rest) ->
  length wrongAnswers = count /\ NoDup wrongAnswers /\
  (JS.Number_toString correct ∉ wrongAnswers) /\
  exists vs,
    wrongAnswers = JS.Number_toString <$> vs /\
    Forall (fun v => 0 <= v /\ v <> correct /\
                     correct - QuestionBank.offset_bound correct <= v
                     <= correct + QuestionBank.offset_bound correct) vs.
Proof.
  intros Hc Hrs Hrun.
  destruct (generateWrongAnswers_sound _ _ _ _ _ Hc Hrs Hrun)
    as (vs & -> & Hlen & Hnd & Hnc & Hrange & _).
  split; [now rewrite length_fmap|]. split.
  - apply (NoDup_fmap_2_strong JS.Number_toString); [|exact Hnd].
    intros a b _ _. apply Number_toString_inj.
  - split.
    + intros Hin. apply list_elem_of_fmap in Hin as (v & Hv & Hin).
      apply Number_toString_inj in Hv. subst v. contradiction.
    + exists vs. split; [reflexivity|].
      rewrite Forall_forall in Hrange. apply Forall_forall. intros v Hv.
      specialize (Hrange v Hv). split; [lia|]. split; [|lia].
      intros ->. contradiction.
Qed.

Lemma generateWrongAnswers_returns_witness :
  exists wrongAnswers rest,
    QuestionBank.generateWrongAnswers 20 3
      [0.05%Q; 0.5%Q; 0.05%Q; 0.9%Q; 0.3%Q; 0.7%Q] = Some (wrongAnswers, rest) /\
    NoDup wrongAnswers.
Proof.
  eexists _, _. split; [vm_compute; reflexivity|].
  refine (proj1 (proj2 (generateWrongAnswers_returns_distinct_values 20 3
                          [0.05%Q; 0.5%Q; 0.05%Q; 0.9%Q; 0.3%Q; 0.7%Q] _ _ _ _ _))).
  - lia.
  - repeat constructor; vm_compute; congruence.
  - vm_compute; reflexivity.
Defined.

(** Writing [x] over [y] at one position of a list is, up to the order, the
    exchange of one [y] for one [x]. *)
Lemma insert_perm {A} (l : list A) (i : nat) (x y : A) :
  l !! i = Some y -> y :: <[i := x]> l ≡ₚ x :: l.
Proof.
  revert i. induction l as [|z l IH]; intros i Hi; [discriminate|].
  destruct i as [|i]; cbn in *.
  - injection Hi as ->. apply Permutation_swap.
  - rewrite (Permutation_swap z y), (IH i Hi). apply Permutation_swap.
Qed.

(** The exchange of two positions is a permutation. *)
Lemma swap_perm {A} (l : list A) (i j : nat) (xi xj : A) :
  l !! i = Some xi -> l !! j = Some xj -> <[j := xi]> (<[i := xj]> l) ≡ₚ l.
Proof.
  intros Hi Hj. destruct (decide (i = j)) as [->|Hne].
  - rewrite Hi in Hj. injection Hj as ->.
    rewrite list_insert_insert_eq. now rewrite list_insert_id.
  - apply (Permutation_cons_inv (a := xj)).
    rewrite (insert_perm (<[i := xj]> l) j xi xj)
      by (rewrite list_lookup_insert_ne by exact Hne; exact Hj).
    rewrite (insert_perm l i xj xi Hi). reflexivity.
Qed.

Lemma shuffleArray_loop_perm {A} (i : nat) (l : list A) (rs rest : list Q)
    (shuffled : list A) :
  QuestionBank.shuffleArray_loop i l rs = Some (shuffled, rest) ->
  shuffled ≡ₚ l /\ (length rs = i + length rest)%nat.
Proof.
  revert l rs. induction i as [|i IH]; intros l rs Hrun.
  - injection Hrun as <- <-. split; reflexivity.
  - cbn [QuestionBank.shuffleArray_loop] in Hrun.
    unfold QuestionBank.rand_bind, QuestionBank.Math_random in Hrun.
    destruct rs as [|r rs]; [discriminate|].
    destruct (l !! S i) as [xi|] eqn:Hi.
    + destruct (l !! Z.to_nat _) as [xj|] eqn:Hj.
      * apply IH in Hrun as [Hp Hl]. split; [|cbn; lia].
        rewrite Hp. now apply swap_perm.
      * apply IH in Hrun as [Hp Hl]. split; [exact Hp|cbn; lia].
    + apply IH in Hrun as [Hp Hl]. split; [exact Hp|cbn; lia].
Qed.

(** X23: when [shuffleArray] returns, the array it returns is a permutation
    of its argument, and it has taken [length - 1] draws (none for an empty
    array). *)
Theorem shuffleArray_is_a_permutation {A} (array shuffled : list A)
    (rs rest : list Q) :
  QuestionBank.shuffleArray array rs = Some (shuffled, rest) ->
  shuffled ≡ₚ array /\ length shuffled = length array /\
  (length rs = (length array - 1) + length rest)%nat.
Proof.
  intros Hrun. apply shuffleArray_loop_perm in Hrun as [Hp Hl].
  split; [exact Hp|]. split; [now rewrite Hp|exact Hl].
Qed.

Lemma shuffleArray_witness :
  exists shuffled rest,
    QuestionBank.shuffleArray ["0"; "1"; "2"; "3"] [0.3%Q; 0.9%Q; 0.1%Q; 0.5%Q]
    = Some (shuffled, rest) /\ shuffled ≡ₚ ["0"; "1"; "2"; "3"].
Proof.
  eexists _, _. split; [vm_compute; reflexivity|].
  refine (proj1 (shuffleArray_is_a_permutation ["0"; "1"; "2"; "3"] _
                   [0.3%Q; 0.9%Q; 0.1%Q; 0.5%Q] _ _)).
  vm_compute; reflexivity.
Defined.

Lemma generateSubtraction_operands_range (min max : Z) (rs rest : list Q) (a b : Z) :
  min <= max ->
  Forall QuestionBank.unit_interval rs ->
  QuestionBank.generateSubtraction_operands min max rs = Some ((a, b), rest) ->
  min <= b /\ b <= a /\ a <= max /\ exists r1 r2, rs = r1 :: r2 :: rest.
Proof.
  intros Hm Hrs Hrun.
  unfold QuestionBank.generateSubtraction_operands, QuestionBank.randomInt,
    QuestionBank.rand_bind, QuestionBank.Math_random, QuestionBank.rand_ret in Hrun.
  destruct rs as [|r1 [|r2 rs]]; try discriminate.
  apply Forall_cons in Hrs as [Hr1 Hrs]. apply Forall_cons in Hrs as [Hr2 Hrs].
  pose proof (randomInt_at_range r1 min max Hr1 Hm) as Ha.
  set (a0 := QuestionBank.randomInt_at r1 min max) in *.
  pose proof (randomInt_at_range r2 min (Z.min a0 max) Hr2 ltac:(lia)) as Hb.
  set (b0 := QuestionBank.randomInt_at r2 min (Z.min a0 max)) in *.
  destruct (b0 >? a0) eqn:E.
  - apply Z.gtb_lt in E. lia.
  - injection Hrun as <- <- <-. repeat split; try lia. eauto.
Qed.

(** X24: every question that [generateSubtraction] returns, for one of the
    three difficulties, is well formed: its answer is the decimal form of
    [a - b] for two operands of the range with [b <= a], so it is never
    negative; it has four options, pairwise distinct, which are the correct
    answer and three distractors in some order. *)
Theorem generateSubtraction_well_formed
    (difficulty : string) (min max : Z) (rs rest : list Q)
    (q : QuestionBank.Question) :
  QuestionBank.subtraction_ranges difficulty = Some (min, max) ->
  Forall QuestionBank.unit_interval rs ->
  QuestionBank.generateSubtraction difficulty rs = Some (q, rest) ->
  exists a b,
    min <= b /\ b <= a /\ a <= max /\
    QuestionBank.correctAnswer q = JS.Number_toString (a - b) /\
    length (QuestionBank.options q) = 4%nat /\
    NoDup (QuestionBank.options q) /\
    QuestionBank.correctAnswer q ∈ QuestionBank.options q /\
    QuestionBank.difficulty q = difficulty /\
    QuestionBank.category q = "arithmetic".
Proof.
  intros Hrange Hrs Hrun.
  assert (Hm : min <= max).
  { unfold QuestionBank.subtraction_ranges in Hrange.
    repeat (destruct (bool_decide _); [injection Hrange as <- <-; lia|]).
    discriminate. }
  unfold QuestionBank.generateSubtraction in Hrun. rewrite Hrange in Hrun.
  unfold QuestionBank.rand_bind at 1 in Hrun.
  destruct (QuestionBank.generateSubtraction_operands min max rs)
    as [[[a b] rs1]|] eqn:Hops; [|discriminate].
  destruct (generateSubtraction_operands_range _ _ _ _ _ _ Hm Hrs Hops)
    as (Hb & Hab & Ha & r1 & r2 & ->).
  apply Forall_cons in Hrs as [_ Hrs]. apply Forall_cons in Hrs as [_ Hrs].
  unfold QuestionBank.rand_bind at 1 in Hrun.
  destruct (QuestionBank.generateWrongAnswers (a - b) 3 rs1)
    as [[wrongAnswers rs2]|] eqn:Hwrong; [|discriminate].
  assert (Hnonneg : 0 <= a - b) by lia.
  destruct (generateWrongAnswers_sound _ _ _ _ _ Hnonneg Hrs Hwrong)
    as (vs & -> & Hlen & Hnd & Hnc & _ & _).
  unfold QuestionBank.rand_bind at 1 in Hrun.
  destruct (QuestionBank.shuffleArray _ rs2) as [[options rs3]|] eqn:Hsh;
    [|discriminate].
  apply shuffleArray_loop_perm in Hsh as [Hperm _].
  injection Hrun as <- <-. cbn.
  exists a, b. repeat split; try assumption.
  - rewrite Hperm. cbn. rewrite length_fmap. lia.
  - rewrite Hperm.
    change (JS.Number_toString (a - b) :: (JS.Number_toString <$> vs))
      with (JS.Number_toString <$> (a - b) :: vs).
    apply (NoDup_fmap_2_strong JS.Number_toString).
    + intros x y _ _. apply Number_toString_inj.
    + now apply NoDup_cons.
  - rewrite Hperm. left.
Qed.

Lemma generateSubtraction_witness :
  exists q rest,
    QuestionBank.generateSubtraction "easy"
      [0.9%Q; 0.1%Q; 0.05%Q; 0.5%Q; 0.05%Q; 0.9%Q; 0.3%Q; 0.7%Q; 0.2%Q; 0.6%Q; 0.4%Q]
    = Some (q, rest) /\
    NoDup (QuestionBank.options q).
Proof.
  eexists _, _. split; [vm_compute; reflexivity|].
  edestruct (generateSubtraction_well_formed "easy" 1 50
               [0.9%Q; 0.1%Q; 0.05%Q; 0.5%Q; 0.05%Q; 0.9%Q; 0.3%Q; 0.7%Q; 0.2%Q; 0.6%Q;
                0.4%Q])
    as (a & b & _ & _ & _ & _ & _ & H & _);
    [reflexivity
    |repeat constructor; vm_compute; congruence
    |vm_compute; reflexivity
    |exact H].
Defined.

(** What [getQuestionSet] does with the calls of [getRandomQuestion]. *)
Lemma getQuestionSet_cases (oracle : QuestionBank.Oracle) (count : nat)
    (difficulty : string) (categories : list string) :
  let call j k :=
    QuestionBank.getRandomQuestion oracle j k
      (categories !! (j mod length categories)%nat)
      (QuestionBank.selectDifficultyFromDistribution
         (QuestionBank.getDifficultyDistribution difficulty)
         (QuestionBank.difficultyDraw oracle j)) in
  match QuestionBank.getQuestionSet oracle count difficulty categories with
  | Ok questions =>
      length questions = count /\
      forall j q, questions !! j = Some q ->
        exists k draw, (k < 10)%nat /\ call j k = Ok draw /\
                       q = QuestionBank.stamped j draw
  | Throw e => exists j k, (j < count)%nat /\ (k < 10)%nat /\ call j k = Throw e
  | Diverge => exists j k, (j < count)%nat /\ (k < 10)%nat /\ call j k = Diverge
  end.
Proof.
  cbv zeta. unfold QuestionBank.getQuestionSet.
  pose proof (getQuestionSet_loop_fails oracle count 0 difficulty categories [] ∅) as Hf.
  cbv zeta in Hf.
  destruct (QuestionBank.getQuestionSet_loop _ _ _ _ _ _ _) as [questions|e|] eqn:Hrun;
    [|exact Hf..].
  apply getQuestionSet_loop_stamped in Hrun as (added & -> & Hlen & Hall).
  cbn [app]. split; [exact Hlen|]. exact Hall.
Qed.

(** X25: [getQuestionSet(count, difficulty, categories)] ends as the calls
    of [getRandomQuestion] that it makes do, at most ten for each of the
    [count] slots, slot [j] asking for the category
    [categories[j mod categories.length]] (round robin) and the difficulty
    picked for the slot.  When all of them return, it returns, and what it
    returns is exactly [count] questions, the question of slot [j] being
    one of the draws of that slot stamped with the identifier [q_(j+1)] and
    the time limit 30.  When it throws, one of the calls has thrown that
    error, and when it does not return, one of the calls has not. *)
Theorem getQuestionSet_slots (oracle : QuestionBank.Oracle) (count : nat)
    (difficulty : string) (categories : list string) :
  let call j k :=
    QuestionBank.getRandomQuestion oracle j k
      (categories !! (j mod length categories)%nat)
      (QuestionBank.selectDifficultyFromDistribution
         (QuestionBank.getDifficultyDistribution difficulty)
         (QuestionBank.difficultyDraw oracle j)) in
  match QuestionBank.getQuestionSet oracle count difficulty categories with
  | Ok questions =>
      length questions = count /\
      forall j q, questions !! j = Some q ->
        QuestionBank.id q = Some ("q_" +:+ JS.Number_toString (Z.of_nat j + 1)) /\
        QuestionBank.timeLimit q = Some 30 /\
        exists k draw, (k < 10)%nat /\ call j k = Ok draw /\
          QuestionBank.question q = QuestionBank.question draw /\
          QuestionBank.correctAnswer q = QuestionBank.correctAnswer draw /\
          QuestionBank.options q = QuestionBank.options draw /\
          QuestionBank.difficulty q = QuestionBank.difficulty draw
  | Throw e => exists j k, (j < count)%nat /\ (k < 10)%nat /\ call j k = Throw e
  | Diverge => exists j k, (j < count)%nat /\ (k < 10)%nat /\ call j k = Diverge
  end /\
  ((forall j k, (j < count)%nat -> (k < 10)%nat -> exists q, call j k = Ok q) ->
   exists questions,
     QuestionBank.getQuestionSet oracle count difficulty categories = Ok questions).
Proof.
  cbv zeta. pose proof (getQuestionSet_cases oracle count difficulty categories) as H.
  cbv zeta in H.
  destruct (QuestionBank.getQuestionSet oracle count difficulty categories)
    as [questions|e|].
  - split; [|intros _; by eexists].
    destruct H as [Hlen Hall]. split; [exact Hlen|].
    intros j q Hq. destruct (Hall j q Hq) as (k & draw & Hk & Hcall & ->).
    split; [reflexivity|]. split; [reflexivity|]. exists k, draw.
    repeat split; assumption.
  - split; [exact H|]. intros Hret. destruct H as (j & k & Hj & Hk & Hcall).
    destruct (Hret j k Hj Hk) as [q Hq]. congruence.
  - split; [exact H|]. intros Hret. destruct H as (j & k & Hj & Hk & Hcall).
    destruct (Hret j k Hj Hk) as [q Hq]. congruence.
Qed.

(* ===================================================================== *)
(** ** What every reachable state satisfies *)
(* ===================================================================== *)

Section Keeps.
Context {S : Type} (P : S -> Prop).

Lemma keeps_ret {A} (a : A) : keeps P (ret a).
Proof. intros s Hs. exact Hs. Qed.

Lemma keeps_throw {A} (e : Error) : keeps P (@throw S A e).
Proof. intros s Hs. exact Hs. Qed.

Lemma keeps_outcome {A} (r : Res A) : keeps P (@outcome S A r).
Proof. intros s Hs. exact Hs. Qed.

Lemma keeps_bind {A B} (m : M S A) (k : A -> M S B) :
  keeps P m -> (forall a, keeps P (k a)) -> keeps P (bind m k).
Proof.
  intros Hm Hk s Hs. unfold bind. specialize (Hm s Hs).
  destruct (m s) as [[a|e|] s']; [apply Hk|..]; exact Hm.
Qed.

Lemma keeps_read {A} (f : S -> A) : keeps P (Server.read f).
Proof. intros s Hs. exact Hs. Qed.

Lemma keeps_call {A} (f : S -> A * S) :
  (forall s, P s -> P (f s).2) -> keeps P (Server.call f).
Proof.
  intros Hf s Hs. unfold Server.call. specialize (Hf s Hs).
  destruct (f s) as [a s']. exact Hf.
Qed.
End Keeps.

(** The three stores are independent: a computation on one store keeps the
    property of the state when it keeps the property of that store. *)
Lemma keeps_players {A} (m : M PlayerManager.Store A) :
  keeps Reachable.players_ok m -> keeps Reachable.state_ok (Server.players m).
Proof.
  intros Hm s (Hp & Hr & Hg). unfold Server.players, zoom.
  specialize (Hm _ Hp). destruct (m (Server.playerManager s)) as [r pm].
  cbn in *. split; [exact Hm|split; assumption].
Qed.

Lemma keeps_rooms {A} (m : M RoomManager.Store A) :
  keeps Reachable.rooms_ok m -> keeps Reachable.state_ok (Server.rooms m).
Proof.
  intros Hm s (Hp & Hr & Hg). unfold Server.rooms, zoom.
  specialize (Hm _ Hr). destruct (m (Server.roomManager s)) as [r rm].
  cbn in *. split; [exact Hp|split; assumption].
Qed.

Lemma keeps_sessions {A} (m : M GameLogic.Store A) :
  keeps Reachable.sessions_ok m -> keeps Reachable.state_ok (Server.sessions m).
Proof.
  intros Hm s (Hp & Hr & Hg). unfold Server.sessions, zoom.
  specialize (Hm _ Hg). destruct (m (Server.gameLogic s)) as [r gl].
  cbn in *. split; [exact Hp|split; assumption].
Qed.

Lemma keeps_emit (e : Server.Emit) : keeps Reachable.state_ok (Server.emit e).
Proof. intros s Hs. exact Hs. Qed.

Lemma keeps_setTimeout (t : Server.Timer) :
  keeps Reachable.state_ok (Server.setTimeout t).
Proof. intros s Hs. exact Hs. Qed.

Lemma keeps_try_catch (socketId : string) (body : M Server.State unit) :
  keeps Reachable.state_ok body ->
  keeps Reachable.state_ok (Server.try_catch socketId body).
Proof.
  intros Hb s Hs. unfold Server.try_catch. specialize (Hb s Hs).
  destruct (body s) as [[a|e|] s']; [exact Hb| |exact Hb]. now apply keeps_emit.
Qed.

(** A store with one entry written keeps its property when the entry has it. *)
Lemma insert_ok {V} (ok : string -> V -> Prop) (m : gmap string V) (k : string) (v : V) :
  (forall key x, m !! key = Some x -> ok key x) -> ok k v ->
  forall key x, <[k := v]> m !! key = Some x -> ok key x.
Proof.
  intros Hm Hv key x. destruct (decide (k = key)) as [->|Hne].
  - rewrite lookup_insert_eq. now intros [= <-].
  - rewrite lookup_insert_ne by exact Hne. apply Hm.
Qed.

Lemma delete_ok {V} (ok : string -> V -> Prop) (m : gmap string V) (k : string) :
  (forall key x, m !! key = Some x -> ok key x) ->
  forall key x, delete k m !! key = Some x -> ok key x.
Proof.
  intros Hm key x. destruct (decide (k = key)) as [->|Hne].
  - now rewrite lookup_delete_eq.
  - rewrite lookup_delete_ne by exact Hne. apply Hm.
Qed.

Ltac unfold_ok :=
  unfold Reachable.players_ok, Reachable.rooms_ok, Reachable.sessions_ok in *.

(** *** The player store *)

Lemma createPlayer_keeps (socketId playerName : string) (isHost : bool) :
  keeps Reachable.players_ok (PlayerManager.createPlayer socketId playerName isHost).
Proof.
  intros pm Hpm. unfold PlayerManager.createPlayer.
  destruct (negb _); [exact Hpm|]. destruct (bool_decide _); [exact Hpm|].
  cbn [snd]. unfold_ok; apply insert_ok; [exact Hpm|]. repeat split; reflexivity.
Qed.

Lemma updatePlayerScore_keeps (playerId : string) (points : Z) :
  keeps Reachable.players_ok
    (PlayerManager.updatePlayerScore playerId points None None None None).
Proof.
  intros pm Hpm. unfold PlayerManager.updatePlayerScore, PlayerManager.getPlayer.
  destruct (pm !! playerId) as [player|] eqn:Hp; [|exact Hpm].
  cbn [snd]. unfold_ok; apply insert_ok; [exact Hpm|].
  destruct (Hpm _ _ Hp) as (Hid & Hw & Hs & Hb & Hc & Ht).
  unfold Reachable.player_ok. cbn. repeat split; try lia. exact Hid.
Qed.

Lemma setAsHost_keeps (playerId : string) (pm : PlayerManager.Store) :
  Reachable.players_ok pm -> Reachable.players_ok (PlayerManager.setAsHost playerId pm).2.
Proof.
  intros Hpm. unfold PlayerManager.setAsHost, PlayerManager.getPlayer.
  destruct (pm !! playerId) as [player|] eqn:Hp; [|exact Hpm].
  cbn [snd]. unfold_ok; apply insert_ok; [exact Hpm|]. exact (Hpm _ _ Hp).
Qed.

Lemma removePlayer_keeps (playerId : string) (pm : PlayerManager.Store) :
  Reachable.players_ok pm -> Reachable.players_ok (PlayerManager.removePlayer playerId pm).2.
Proof.
  intros Hpm. unfold PlayerManager.removePlayer.
  destruct (pm !! playerId); [|exact Hpm]. cbn [snd]. unfold_ok; now apply delete_ok.
Qed.

(** *** The room store *)

Lemma createRoom_keeps (roomCode hostId : string)
    (customSettings : RoomManager.CustomSettings) :
  keeps Reachable.rooms_ok (RoomManager.createRoom roomCode hostId customSettings).
Proof.
  intros rm Hrm. unfold RoomManager.createRoom. cbn [snd].
  unfold_ok; apply insert_ok; [exact Hrm|].
  split; [reflexivity|]. split; [|split; reflexivity].
  split; cbn [RoomManager.players fmap list_fmap length]; [constructor|].
  apply (within_capacity_shorter 0 0); [lia|].
  destruct (RoomManager.maxPlayers _); cbn; auto.
Qed.

Lemma addPlayerToRoom_keeps (roomCode : string) (player : PlayerRef) :
  keeps Reachable.rooms_ok (RoomManager.addPlayerToRoom roomCode player).
Proof.
  intros rm Hrm. unfold RoomManager.addPlayerToRoom, RoomManager.getRoom.
  destruct (rm !! roomCode) as [room|] eqn:Hroom; [|exact Hrm].
  destruct (JS.length_ge _ _) eqn:Hfull; [exact Hrm|].
  destruct (bool_decide (is_Some _)) eqn:Hdup; [exact Hrm|].
  apply bool_decide_eq_false_1 in Hdup.
  cbn [snd]. unfold_ok; apply insert_ok; [exact Hrm|].
  destruct (Hrm _ _ Hroom) as (Hcode & [Hnd _] & Hcap & Hst).
  split; [exact Hcode|]. split; [now apply set_players_append_ok|].
  split; assumption.
Qed.

Lemma removePlayerFromRoom_keeps (roomCode playerId : string) (rm : RoomManager.Store) :
  Reachable.rooms_ok rm ->
  Reachable.rooms_ok (RoomManager.removePlayerFromRoom roomCode playerId rm).2.
Proof.
  intros Hrm. unfold RoomManager.removePlayerFromRoom, RoomManager.getRoom.
  destruct (rm !! roomCode) as [room|] eqn:Hroom; [|exact Hrm].
  destruct (list_find _ _) as [[i p]|]; [|exact Hrm].
  cbn [snd]. unfold_ok; apply insert_ok; [exact Hrm|].
  destruct (Hrm _ _ Hroom) as (Hcode & Hok & Hcap & Hst).
  split; [exact Hcode|]. split; [now apply set_players_delete_ok|].
  split; assumption.
Qed.

Lemma closeRoom_keeps (roomCode : string) (rm : RoomManager.Store) :
  Reachable.rooms_ok rm -> Reachable.rooms_ok (RoomManager.closeRoom roomCode rm).2.
Proof.
  intros Hrm. unfold RoomManager.closeRoom.
  destruct (rm !! roomCode); [|exact Hrm]. cbn [snd]. unfold_ok; now apply delete_ok.
Qed.

(** *** The session store *)

Lemma initializeGame_keeps (oracle : QuestionBank.Oracle) (roomCode : string)
    (players : list PlayerRef) :
  keeps Reachable.sessions_ok
    (GameLogic.initializeGame oracle roomCode players GameLogic.empty_settings).
Proof.
  intros gl Hgl. unfold GameLogic.initializeGame.
  destruct (GameLogic.generateQuestionSet _ _) as [questions|e|] eqn:Hq;
    [|exact Hgl..].
  cbn [snd]. unfold_ok; apply insert_ok; [exact Hgl|].
  unfold Reachable.session_ok. cbn.
  repeat split; try reflexivity; [|discriminate].
  exact (getQuestionSet_length _ _ _ _ _ Hq).
Qed.

Lemma setCurrentQuestion_keeps (now : Z) (roomCode : string)
    (question : QuestionBank.Question) :
  keeps Reachable.sessions_ok (GameLogic.setCurrentQuestion now roomCode question).
Proof.
  intros gl Hgl. unfold GameLogic.setCurrentQuestion, GameLogic.getGameSession.
  destruct (gl !! roomCode) as [session|] eqn:Hs; [|exact Hgl].
  cbn [snd]. unfold_ok; apply insert_ok; [exact Hgl|].
  destruct (Hgl _ _ Hs) as (H1 & H2 & H3 & H4 & H5 & H6 & H7).
  unfold Reachable.session_ok. cbn. repeat split; try assumption. by eexists.
Qed.

Lemma processAnswer_keeps (now : Z) (roomCode playerId : string)
    (answer : JS.Value) (timeRemaining : Q) :
  keeps Reachable.sessions_ok
    (GameLogic.processAnswer now roomCode playerId answer timeRemaining).
Proof.
  intros gl Hgl. unfold GameLogic.processAnswer, GameLogic.getGameSession.
  destruct (gl !! roomCode) as [session|] eqn:Hs; [|exact Hgl].
  destruct (negb _); [exact Hgl|]. destruct (JS.Map_has _ _); [exact Hgl|].
  destruct (GameLogic.currentQuestion session) as [q|] eqn:Hq; [|exact Hgl].
  cbn [snd]. unfold_ok; apply insert_ok; [exact Hgl|].
  destruct (Hgl _ _ Hs) as (H1 & H2 & H3 & H4 & H5 & H6 & H7).
  unfold Reachable.session_ok. cbn. repeat split; try assumption.
  by eexists.
Qed.

Lemma getRoundResults_keeps (roomCode : string) :
  keeps Reachable.sessions_ok (GameLogic.getRoundResults roomCode).
Proof.
  intros gl Hgl. unfold GameLogic.getRoundResults, GameLogic.getGameSession.
  destruct (gl !! roomCode) as [session|] eqn:Hs; [|exact Hgl].
  destruct (GameLogic.currentQuestion session) as [q|] eqn:Hq; [|exact Hgl].
  cbn [snd]. unfold_ok; apply insert_ok; [exact Hgl|].
  destruct (Hgl _ _ Hs) as (H1 & H2 & H3 & H4 & H5 & H6 & H7).
  unfold Reachable.session_ok. cbn. repeat split; try assumption. discriminate.
Qed.

Lemma getNextQuestion_keeps (now : Z) (roomCode : string) :
  keeps Reachable.sessions_ok (GameLogic.getNextQuestion now roomCode).
Proof.
  intros gl Hgl. unfold GameLogic.getNextQuestion, GameLogic.getGameSession.
  destruct (gl !! roomCode) as [session|] eqn:Hs; [|exact Hgl].
  destruct (Hgl _ _ Hs) as (H1 & H2 & H3 & H4 & H5 & H6 & H7).
  assert (Hindex : forall st,
            (st = GameLogic.playing -> is_Some (GameLogic.currentQuestion session)) ->
            Reachable.session_ok roomCode
              (GameLogic.set_status
                 (GameLogic.set_currentQuestionIndex session
                    (Datatypes.S (GameLogic.currentQuestionIndex session))) st)).
  { intros st Hst. unfold Reachable.session_ok. cbn. repeat split; assumption. }
  destruct (bool_decide _).
  - cbn [snd]. unfold_ok; apply insert_ok; [exact Hgl|]. apply Hindex. discriminate.
  - cbn [GameLogic.questions GameLogic.set_currentQuestionIndex].
    destruct (GameLogic.questions session !! _) as [q|].
    + apply keeps_bind; [apply setCurrentQuestion_keeps|intros; apply keeps_ret|].
      unfold_ok; apply insert_ok; [exact Hgl|].
      unfold Reachable.session_ok. cbn. repeat split; assumption.
    + cbn [snd]. unfold_ok; apply insert_ok; [exact Hgl|].
      unfold Reachable.session_ok. cbn. repeat split; assumption.
Qed.

Lemma getFinalResults_keeps (now : Z) (roomCode : string) :
  keeps Reachable.sessions_ok (GameLogic.getFinalResults now roomCode).
Proof.
  intros gl Hgl. unfold GameLogic.getFinalResults, GameLogic.getGameSession.
  destruct (gl !! roomCode) as [session|] eqn:Hs; [|exact Hgl].
  cbn [snd]. unfold_ok; apply insert_ok; [exact Hgl|].
  destruct (Hgl _ _ Hs) as (H1 & H2 & H3 & H4 & H5 & H6 & H7).
  unfold Reachable.session_ok. cbn. repeat split; try assumption. discriminate.
Qed.

(** *** The handlers *)

(** One step of the proof that a handler keeps [state_ok]: the rule of the
    construct at the head of the computation. *)
Ltac keeps_step :=
  lazymatch goal with
  | |- keeps _ (bind _ _) => apply keeps_bind; [|intros ?]
  | |- keeps _ (ret _) => apply keeps_ret
  | |- keeps _ (throw _) => apply keeps_throw
  | |- keeps _ (outcome _) => apply keeps_outcome
  | |- keeps _ (Server.emit _) => apply keeps_emit
  | |- keeps _ (Server.setTimeout _) => apply keeps_setTimeout
  | |- keeps _ (Server.try_catch _ _) => apply keeps_try_catch
  | |- keeps _ (Server.players (Server.read _)) => apply keeps_players, keeps_read
  | |- keeps _ (Server.rooms (Server.read _)) => apply keeps_rooms, keeps_read
  | |- keeps _ (Server.sessions (Server.read _)) => apply keeps_sessions, keeps_read
  | |- keeps _ (Server.players (Server.call _)) =>
      apply keeps_players, keeps_call;
      intros; first [now apply setAsHost_keeps | now apply removePlayer_keeps]
  | |- keeps _ (Server.rooms (Server.call _)) =>
      apply keeps_rooms, keeps_call;
      intros; first [now apply removePlayerFromRoom_keeps | now apply closeRoom_keeps]
  | |- keeps _ (Server.players _) =>
      apply keeps_players;
      first [apply createPlayer_keeps | apply updatePlayerScore_keeps]
  | |- keeps _ (Server.rooms _) =>
      apply keeps_rooms; first [apply createRoom_keeps | apply addPlayerToRoom_keeps]
  | |- keeps _ (Server.sessions _) =>
      apply keeps_sessions;
      first [apply initializeGame_keeps | apply setCurrentQuestion_keeps
            |apply processAnswer_keeps | apply getRoundResults_keeps
            |apply getNextQuestion_keeps | apply getFinalResults_keeps]
  | |- keeps _ (match ?x with _ => _ end) => destruct x
  | |- keeps _ (if ?b then _ else _) => destruct b
  end.

Lemma handle_keeps (e : Server.Event) : keeps Reachable.state_ok (Server.handle e).
Proof.
  destruct e; cbn [Server.handle];
    unfold Server.on_create_room, Server.on_join_room, Server.on_start_game,
      Server.on_submit_answer, Server.on_disconnect, Server.fire;
    repeat keeps_step.
  - (* [get] and the removal of the timer that fires *)
    intros s Hs. exact Hs.
  - intros s Hs. exact Hs.
  - unfold Server.run_timer, Server.first_question_callback,
      Server.next_question_callback.
    repeat keeps_step.
Qed.

Lemma run_keeps (es : list Server.Event) (s : Server.State) :
  Reachable.state_ok s -> Reachable.state_ok (Server.run es s).
Proof.
  revert s. induction es as [|e es IH]; intros s Hs; [exact Hs|].
  cbn [Server.run]. pose proof (handle_keeps e s Hs) as Hstep.
  destruct (Server.handle e s) as [[u|err|] s']; cbn [snd] in Hstep;
    [now apply IH|now apply IH|exact Hstep].
Qed.

Lemma initial_ok : Reachable.state_ok Server.initial.
Proof.
  split; [|split]; intros k x Hx; cbn in Hx; rewrite lookup_empty in Hx; discriminate.
Qed.

(** X26: in every state that the server reaches from its initial state, by
    whatever events, every stored player is stored under its own identity,
    has no wrong answer counted, and has one and the same number as streak,
    best streak, correct answers and questions answered: through the
    handlers a streak is never reset. *)
Theorem reachable_players_never_count_a_wrong_answer
    (es : list Server.Event) (socketId : string) (p : PlayerManager.Player) :
  Server.playerManager (Server.run es Server.initial) !! socketId = Some p ->
  PlayerManager.id p = socketId /\
  PlayerManager.wrongAnswers p = 0 /\
  0 <= PlayerManager.streak p /\
  PlayerManager.bestStreak p = PlayerManager.streak p /\
  PlayerManager.correctAnswers p = PlayerManager.streak p /\
  PlayerManager.totalQuestions (PlayerManager.gameStats p) = PlayerManager.streak p.
Proof.
  intros Hp. destruct (run_keeps es _ initial_ok) as (Hplayers & _ & _).
  exact (Hplayers _ _ Hp).
Qed.

Lemma reachable_players_witness :
  exists p,
    Server.playerManager
      (Server.run (Scenario.lobby None 0.5 "hard" ++ Scenario.rounds 2 4000)
         Server.initial) !! Scenario.guest = Some p /\
    PlayerManager.wrongAnswers p = 0.
Proof.
  destruct (Server.playerManager
              (Server.run (Scenario.lobby None 0.5 "hard" ++ Scenario.rounds 2 4000)
                 Server.initial) !! Scenario.guest) as [p|] eqn:Hp;
    [|vm_compute in Hp; discriminate].
  exists p. split; [reflexivity|].
  exact (proj1 (proj2 (reachable_players_never_count_a_wrong_answer _ _ _ Hp))).
Defined.

(** X27: in every reachable state, every stored room is stored under its
    own code and its roster has no identity twice.  The roster is empty, or
    it was not full, in the sense of the check
    [players.length >= maxPlayers], before its last player came: it is never
    longer than a capacity that is a whole number (never longer than 0 when
    that number is negative), it is shorter than [maxPlayers + 1] for any
    other number (a room of capacity 2.5 holds three players), and it has no
    bound when the [maxPlayers] that the client gave is not a number, which
    no handler validates.  The capacity is the
    [maxPlayers] of the settings of the room, and the status of the room is
    still [waiting]: no handler changes the status of a room. *)
Theorem reachable_rooms_within_capacity
    (es : list Server.Event) (roomCode : string) (r : RoomManager.Room) :
  Server.roomManager (Server.run es Server.initial) !! roomCode = Some r ->
  RoomManager.code r = roomCode /\
  NoDup (ref_id <$> RoomManager.players r) /\
  RoomManager.within_capacity (length (RoomManager.players r))
    (RoomManager.maxPlayers r) /\
  (forall m : Z,
     RoomManager.maxPlayers r = JS.finite (inject_Z m) ->
     Z.of_nat (length (RoomManager.players r)) <= Z.max 0 m) /\
  RoomManager.maxPlayers r = RoomManager.settings_maxPlayers (RoomManager.settings r) /\
  RoomManager.status r = RoomManager.waiting.
Proof.
  intros Hr. destruct (run_keeps es _ initial_ok) as (_ & Hrooms & _).
  destruct (Hrooms _ _ Hr) as (H1 & [H2 H3] & H4 & H5).
  split; [exact H1|]. split; [exact H2|]. split; [exact H3|].
  split; [|split; assumption].
  intros m Hm. rewrite Hm in H3. now apply within_capacity_whole.
Qed.

(** The theorem at the room created with [maxPlayers: 2.5] after four
    players have tried to enter: it holds three of them. *)
Lemma reachable_rooms_witness :
  exists r,
    Server.roomManager Scenario.crowded !! Scenario.room = Some r /\
    RoomManager.maxPlayers r = JS.finite 2.5 /\
    length (RoomManager.players r) = 3%nat /\
    RoomManager.within_capacity (length (RoomManager.players r))
      (RoomManager.maxPlayers r) /\
    RoomManager.status r = RoomManager.waiting.
Proof.
  destruct (Server.roomManager Scenario.crowded !! Scenario.room) as [r|] eqn:Hr;
    [|vm_compute in Hr; discriminate].
  exists r. split; [reflexivity|].
  destruct (reachable_rooms_within_capacity _ _ _ Hr) as (_ & _ & Hcap & _ & _ & Hst).
  vm_compute in Hr. injection Hr as <-.
  split; [reflexivity|]. split; [reflexivity|]. split; [exact Hcap|exact Hst].
Defined.

(** X28: in every reachable state, every game session is stored under its
    own room code and has the default settings, 10 questions of 30 seconds
    at the base difficulty medium, whatever the settings of its room; its
    start time is never set, so that the game duration reported at the end
    is 0; and while it is playing it has a current question, so that
    [processAnswer] never throws for a missing question. *)
Theorem reachable_sessions_have_default_settings
    (es : list Server.Event) (roomCode : string) (x : GameLogic.GameSession) :
  Server.gameLogic (Server.run es Server.initial) !! roomCode = Some x ->
  GameLogic.roomCode x = roomCode /\
  GameLogic.totalQuestions (GameLogic.settings x) = 10%nat /\
  GameLogic.questionTime (GameLogic.settings x) = 30%Q /\
  GameLogic.difficultyLevel (GameLogic.settings x) = "medium" /\
  length (GameLogic.questions x) = 10%nat /\
  (forall now, GameLogic.calculateGameDuration now x = 0) /\
  (forall now playerId answer timeRemaining,
     (GameLogic.processAnswer now roomCode playerId answer timeRemaining
        (Server.gameLogic (Server.run es Server.initial))).1
     <> Throw ENoActiveQuestion).
Proof.
  intros Hx. destruct (run_keeps es _ initial_ok) as (_ & _ & Hsessions).
  destruct (Hsessions _ _ Hx) as (H1 & H2 & H3 & H4 & H5 & H6 & H7).
  repeat (split; [assumption|]). split.
  - intros now. unfold GameLogic.calculateGameDuration. now rewrite H6.
  - intros now playerId answer timeRemaining.
    unfold GameLogic.processAnswer, GameLogic.getGameSession. rewrite Hx.
    destruct (bool_decide (GameLogic.status x = GameLogic.playing)) eqn:Hst;
      cbn [negb]; [|discriminate].
    apply bool_decide_eq_true_1 in Hst. destruct (H7 Hst) as [q Hq].
    rewrite Hq. destruct (JS.Map_has _ _); discriminate.
Qed.

Lemma reachable_sessions_witness :
  exists x,
    Server.gameLogic Scenario.e2e_lobby !! Scenario.room = Some x /\
    GameLogic.totalQuestions (GameLogic.settings x) = 10%nat.
Proof.
  destruct (Server.gameLogic Scenario.e2e_lobby !! Scenario.room) as [x|] eqn:Hx;
    [|vm_compute in Hx; discriminate].
  exists x. split; [reflexivity|].
  exact (proj1 (proj2 (reachable_sessions_have_default_settings
                         (Scenario.lobby (Some Scenario.three_questions) 0.5 "medium")
                         _ _ Hx))).
Defined.

(* ===================================================================== *)
(** ** The order-of-operations generator *)
(* ===================================================================== *)

Lemma fill_loop_done (fuel : nat) (c fill : Z) (wrongs : list string)
    (used : gset Z) :
  (3 <= length wrongs)%nat ->
  QuestionBank.fill_loop fuel c fill wrongs used = Some wrongs.
Proof.
  intros Hl. destruct fuel; cbn [QuestionBank.fill_loop];
    rewrite bool_decide_eq_false_2 by lia; reflexivity.
Qed.

Lemma fill_loop_step (fuel : nat) (c fill : Z) (wrongs : list string)
    (used : gset Z) :
  (length wrongs < 3)%nat ->
  QuestionBank.fill_loop (S fuel) c fill wrongs used
  = if bool_decide (c + fill ∈ used)
    then QuestionBank.fill_loop fuel c
           (if 0 <? fill then - fill else - fill + 1) wrongs used
    else QuestionBank.fill_loop fuel c
           (if 0 <? fill then - fill else - fill + 1)
           (wrongs ++ [QuestionBank.num (c + fill)]) ({[c + fill]} ∪ used).
Proof.
  intros Hl. cbn [QuestionBank.fill_loop].
  rewrite bool_decide_eq_true_2 by lia. reflexivity.
Qed.

Lemma fill_loop_step_to (fill' : Z) (fuel : nat) (c fill : Z)
    (wrongs : list string) (used : gset Z) :
  (length wrongs < 3)%nat ->
  fill' = (if 0 <? fill then - fill else - fill + 1) ->
  QuestionBank.fill_loop (S fuel) c fill wrongs used
  = if bool_decide (c + fill ∈ used)
    then QuestionBank.fill_loop fuel c fill' wrongs used
    else QuestionBank.fill_loop fuel c fill'
           (wrongs ++ [QuestionBank.num (c + fill)]) ({[c + fill]} ∪ used).
Proof. intros Hl ->. now apply fill_loop_step. Qed.

(** More fuel does not change what the fill loop returns. *)
Lemma fill_loop_mono (fuel : nat) (c fill : Z) (wrongs result : list string)
    (used : gset Z) :
  QuestionBank.fill_loop fuel c fill wrongs used = Some result ->
  QuestionBank.fill_loop (S fuel) c fill wrongs used = Some result.
Proof.
  revert fill wrongs used.
  induction fuel as [|fuel IH]; intros fill wrongs used Hrun.
  - cbn [QuestionBank.fill_loop] in *.
    case_bool_decide; [discriminate|exact Hrun].
  - destruct (decide (length wrongs < 3)%nat) as [Hl|Hl].
    + rewrite fill_loop_step in Hrun by exact Hl.
      rewrite fill_loop_step by exact Hl.
      case_bool_decide; apply IH; exact Hrun.
    + rewrite fill_loop_done in Hrun by lia.
      rewrite fill_loop_done by lia. exact Hrun.
Qed.

Lemma fill_loop_more (fuel extra : nat) (c fill : Z)
    (wrongs result : list string) (used : gset Z) :
  QuestionBank.fill_loop fuel c fill wrongs used = Some result ->
  QuestionBank.fill_loop (extra + fuel) c fill wrongs used = Some result.
Proof.
  intros Hrun. induction extra as [|extra IH]; [exact Hrun|].
  apply fill_loop_mono. exact IH.
Qed.

Ltac values_of l :=
  lazymatch l with
  | @nil _ => constr:(@nil Z)
  | QuestionBank.num ?a :: ?r => let r' := values_of r in constr:(a :: r')
  end.

(** Three iterations are enough to the fill loop: its candidates
    [c + 1], [c - 1] and [c + 2] differ from each other and from [c], and
    at most as many of them are taken as there are values kept. *)
Lemma fill_loop_three (c : Z) (kept : list Z) :
  NoDup kept -> c ∉ kept -> (length kept <= 3)%nat ->
  exists vs,
    QuestionBank.fill_loop 3 c 1 (QuestionBank.num <$> kept)
      ({[c]} ∪ list_to_set kept)
    = Some (QuestionBank.num <$> vs)
    /\ length vs = 3%nat /\ NoDup vs /\ (c ∉ vs)
    /\ (forall v, v ∈ vs -> v ∈ kept \/ c - 1 <= v <= c + 2).
Proof.
  intros Hnd Hc Hl.
  destruct kept as [|x [|y [|z [|t kept]]]]; cbn [length] in Hl; try lia.
  all: repeat match goal with
              | H : NoDup (_ :: _) |- _ => apply NoDup_cons in H as [? H]
              end.
  all: cbn [fmap list_fmap].
  all: repeat first
         [ rewrite fill_loop_done by (cbn; lia)
         | first [ rewrite (fill_loop_step_to (-1) _ c 1)
                     by first [cbn; lia | reflexivity]
                 | rewrite (fill_loop_step_to 2 _ c (-1))
                     by first [cbn; lia | reflexivity]
                 | rewrite (fill_loop_step_to (-2) _ c 2)
                     by first [cbn; lia | reflexivity] ];
           cbn [app]; case_bool_decide ].
  all: try (exfalso; set_unfold; lia).
  all: lazymatch goal with
       | |- exists vs, Some ?l = Some _ /\ _ =>
           let vs := values_of l in exists vs
       end.
  all: split; [reflexivity|]; split; [reflexivity|].
  all: split; [repeat (apply NoDup_cons; split); [..|apply NoDup_nil_2];
               set_unfold; lia|].
  all: split; [set_unfold; lia|].
  all: intros v Hv; set_unfold; lia.
Qed.

(** One step of the filter keeps the values distinct, away from the correct
    one, and the set [used] equal to the correct value with the values
    kept. *)
Lemma keep_new_kept (c w : Z) (kept : list Z) :
  NoDup kept -> c ∉ kept ->
  exists kept',
    QuestionBank.keep_new (kept, {[c]} ∪ list_to_set kept) w
    = (kept', {[c]} ∪ list_to_set kept')
    /\ NoDup kept' /\ (c ∉ kept')
    /\ (length kept' <= S (length kept))%nat
    /\ (forall v, v ∈ kept' -> v ∈ kept \/ v = w /\ 0 <= w).
Proof.
  intros Hnd Hc. unfold QuestionBank.keep_new.
  case_bool_decide as Hin; cbn [negb andb].
  - exists kept. repeat split; auto.
  - destruct (0 <=? w) eqn:Hw.
    + exists (kept ++ [w]). split; [f_equal; set_solver|].
      split; [apply NoDup_app; repeat split;
              [exact Hnd|set_solver|apply NoDup_singleton]|].
      split; [set_solver|]. split; [rewrite length_app; cbn; lia|].
      intros v Hv. apply elem_of_app in Hv as [Hv|Hv]; [now left|].
      right. split; [set_solver|lia].
    + exists kept. repeat split; auto.
Qed.

(** The filter followed by three iterations of the fill loop. *)
Lemma orderOfOperations_wrongs_sound (e : QuestionBank.Expression)
    (fuel : nat) :
  (3 <= fuel)%nat ->
  exists vs,
    QuestionBank.orderOfOperations_wrongs fuel e
    = Some (QuestionBank.num <$> vs)
    /\ length vs = 3%nat /\ NoDup vs /\ (QuestionBank.correct e ∉ vs)
    /\ (forall v, v ∈ vs ->
          (v ∈ [QuestionBank.w1 e; QuestionBank.w2 e; QuestionBank.w3 e]
           /\ 0 <= v)
          \/ QuestionBank.correct e - 1 <= v <= QuestionBank.correct e + 2).
Proof.
  intros Hfuel. unfold QuestionBank.orderOfOperations_wrongs.
  cbn [foldl].
  set (c := QuestionBank.correct e).
  assert (Hnil : ({[c]} : gset Z) = {[c]} ∪ list_to_set []) by set_solver.
  rewrite Hnil.
  destruct (keep_new_kept c (QuestionBank.w1 e) [])
    as (k1 & -> & Hnd1 & Hc1 & Hl1 & Hv1); [constructor|set_solver|].
  destruct (keep_new_kept c (QuestionBank.w2 e) k1 Hnd1 Hc1)
    as (k2 & -> & Hnd2 & Hc2 & Hl2 & Hv2).
  destruct (keep_new_kept c (QuestionBank.w3 e) k2 Hnd2 Hc2)
    as (k3 & -> & Hnd3 & Hc3 & Hl3 & Hv3).
  cbn [length] in Hl1.
  destruct (fill_loop_three c k3 Hnd3 Hc3)
    as (vs & Hrun & Hlen & Hnd & Hc & Hvs); [lia|].
  exists vs. split.
  - replace fuel with ((fuel - 3) + 3)%nat by lia.
    apply fill_loop_more. exact Hrun.
  - split; [exact Hlen|]. split; [exact Hnd|]. split; [exact Hc|].
    intros v Hv. destruct (Hvs v Hv) as [Hk|Hr]; [left|now right].
    apply Hv3 in Hk as [Hk|[-> ?]]; [|split; [set_solver|assumption]].
    apply Hv2 in Hk as [Hk|[-> ?]]; [|split; [set_solver|assumption]].
    apply Hv1 in Hk as [Hk|[-> ?]]; [|split; [set_solver|assumption]].
    set_solver.
Qed.

(** X29: the distractors of an order-of-operations question are always found:
    three iterations of the fill loop are enough whatever the expression,
    and the loop then returns three values that differ from each other and
    from the correct one, each of them one of the three mistaken values of
    the expression, not negative, or one of [correct - 1], [correct + 1]
    and [correct + 2]. *)
Theorem orderOfOperations_wrongs_found (e : QuestionBank.Expression)
    (fuel : nat) :
  (3 <= fuel)%nat ->
  exists vs,
    QuestionBank.orderOfOperations_wrongs fuel e
    = Some (QuestionBank.num <$> vs)
    /\ length vs = 3%nat /\ NoDup vs /\ (QuestionBank.correct e ∉ vs)
    /\ (forall v, v ∈ vs ->
          (v ∈ [QuestionBank.w1 e; QuestionBank.w2 e; QuestionBank.w3 e]
           /\ 0 <= v)
          \/ QuestionBank.correct e - 1 <= v <= QuestionBank.correct e + 2).
Proof. exact (orderOfOperations_wrongs_sound e fuel). Qed.

Lemma orderOfOperations_wrongs_found_witness :
  exists vs,
    QuestionBank.orderOfOperations_wrongs 3
      {| QuestionBank.expr := "2 + 2 - 2 × 2"; QuestionBank.correct := 0;
         QuestionBank.w1 := 4; QuestionBank.w2 := 4; QuestionBank.w3 := 0 |}
    = Some (QuestionBank.num <$> vs) /\ length vs = 3%nat.
Proof.
  destruct (orderOfOperations_wrongs_found
              {| QuestionBank.expr := "2 + 2 - 2 × 2"; QuestionBank.correct := 0;
                 QuestionBank.w1 := 4; QuestionBank.w2 := 4;
                 QuestionBank.w3 := 0 |} 3)
    as (vs & Hrun & Hlen & _); [lia|].
  exists vs. split; [exact Hrun|exact Hlen].
Defined.

(** [shuffleArray] returns when it has a draw for each of its steps. *)
Lemma shuffleArray_loop_returns {A} (i : nat) (l : list A) (rs : list Q) :
  (i <= length rs)%nat ->
  exists shuffled rest,
    QuestionBank.shuffleArray_loop i l rs = Some (shuffled, rest).
Proof.
  revert l rs. induction i as [|i IH]; intros l rs Hl.
  - eexists _, _. reflexivity.
  - destruct rs as [|r rs]; [cbn in Hl; lia|].
    cbn [QuestionBank.shuffleArray_loop].
    unfold QuestionBank.rand_bind at 1. cbn [QuestionBank.Math_random].
    cbn [length] in Hl.
    destruct (l !! S i) as [xi|]; [destruct (l !! Z.to_nat _) as [xj|]|];
      apply IH; lia.
Qed.

(** Every branch of the [if] chain returns with four draws at hand. *)
Lemma orderOfOperations_expression_returns (type : option QuestionBank.Shape)
    (hi : Z) (rs : list Q) :
  (4 <= length rs)%nat ->
  exists e rest,
    QuestionBank.orderOfOperations_expression type hi rs = Some (e, rest)
    /\ (length rs <= length rest + 4)%nat.
Proof.
  intros Hl.
  destruct rs as [|r1 [|r2 [|r3 [|r4 rs]]]]; cbn [length] in Hl; try lia.
  destruct type as [[]|]; eexists _, _; (split; [reflexivity|cbn; lia]).
Qed.

(** X30: [generateOrderOfOperations] returns for every difficulty and every
    list of at least eight draws, and the question it returns carries the
    difficulty asked for and has four options that differ from each other,
    the correct answer among them. *)
Theorem generateOrderOfOperations_returns (fuel : nat) (difficulty : string)
    (rs : list Q) :
  (3 <= fuel)%nat -> (8 <= length rs)%nat ->
  exists q rest,
    QuestionBank.generateOrderOfOperations fuel difficulty rs = Some (q, rest)
    /\ length (QuestionBank.options q) = 4%nat
    /\ NoDup (QuestionBank.options q)
    /\ QuestionBank.correctAnswer q ∈ QuestionBank.options q
    /\ QuestionBank.difficulty q = difficulty.
Proof.
  intros Hfuel Hl. unfold QuestionBank.generateOrderOfOperations.
  destruct (QuestionBank.orderOfOperations_configs difficulty) as [types hi].
  destruct rs as [|r rs]; [cbn in Hl; lia|]. cbn [length] in Hl.
  unfold QuestionBank.rand_bind at 1. cbn [QuestionBank.Math_random].
  unfold QuestionBank.rand_bind at 1.
  destruct (orderOfOperations_expression_returns
              (types !! Z.to_nat (JS.Math_floor
                 (r * inject_Z (Z.of_nat (length types))))) hi rs)
    as (e & rs1 & -> & Hl1); [lia|].
  destruct (orderOfOperations_wrongs_sound e fuel Hfuel)
    as (vs & -> & Hlen & Hnd & Hc & _).
  rewrite take_ge by (rewrite length_fmap; lia).
  unfold QuestionBank.rand_bind at 1.
  destruct (shuffleArray_loop_returns 3
              (QuestionBank.num (QuestionBank.correct e)
               :: (QuestionBank.num <$> vs)) rs1)
    as (shuffled & rest & Hsh); [lia|].
  unfold QuestionBank.shuffleArray. cbn [length].
  rewrite length_fmap, Hlen. cbn [Nat.sub]. rewrite Hsh.
  apply shuffleArray_loop_perm in Hsh as [Hperm _].
  eexists _, _. split; [reflexivity|]. cbn.
  split; [rewrite Hperm; cbn; rewrite length_fmap; lia|].
  split; [|split; [rewrite Hperm; left|reflexivity]].
  rewrite Hperm.
  change (QuestionBank.num (QuestionBank.correct e) :: (QuestionBank.num <$> vs))
    with (QuestionBank.num <$> QuestionBank.correct e :: vs).
  apply (NoDup_fmap_2_strong QuestionBank.num).
  - intros x y _ _. apply Number_toString_inj.
  - now apply NoDup_cons.
Qed.

Lemma generateOrderOfOperations_returns_witness :
  exists q rest,
    QuestionBank.generateOrderOfOperations 3 "hard"
      [0.7%Q; 0.1%Q; 0.1%Q; 0.1%Q; 0.1%Q; 0.5%Q; 0.5%Q; 0.5%Q]
    = Some (q, rest)
    /\ length (QuestionBank.options q) = 4%nat.
Proof.
  destruct (generateOrderOfOperations_returns 3 "hard"
              [0.7%Q; 0.1%Q; 0.1%Q; 0.1%Q; 0.1%Q; 0.5%Q; 0.5%Q; 0.5%Q])
    as (q & rest & Hrun & Hlen & _); [lia|cbn; lia|].
  exists q, rest. split; [exact Hrun|exact Hlen].
Defined.
